(** * MockInvi: identity resolution, assessment scoring and the payment /
      learning workflows of the Supabase edge functions.

    The development embeds

    - [generateConsistentUUID] of
      [supabase/functions/enhanced-razorpay-payment/index.ts] and
      [supabase/functions/enhanced-learning-service/index.ts]
      (the two TypeScript copies are textually the same function),
    - [public.generateConsistentUUID] of the SQL migration,
    - the scoring block of the [evaluateAssessment] action,
    - the [verify_payment] action of the payment function,
    - [generateCertificate] and the [fetch] / [evaluateAssessment]
      actions of the learning service,

    and states the properties of the design document about them. *)

From Stdlib Require Import ZArith List String Ascii Bool Lia Znumtheory.
From Stdlib Require Import Floats.SpecFloat.
From Stdlib Require Import Sorting.Sorted.
From stdpp Require Import base option list gmap strings pretty.

Local Open Scope string_scope.
Local Open Scope Z_scope.

(* ===================================================================== *)
(** ** JavaScript primitives used by the edge functions *)
(* ===================================================================== *)

Module JS.

(** A JavaScript string is a sequence of UTF-16 code units;
    [charCodeAt i] returns the i-th of them. *)
Abbreviation code_units := (list Z).

(** The code units of a string literal of the source (all literals of the
    source are ASCII). *)
Fixpoint charCodes (s : string) : code_units :=
  match s with
  | EmptyString => []
  | String c s' => Z.of_N (N_of_ascii c) :: charCodes s'
  end.

(** [ToInt32] of ECMAScript: reduction modulo 2^32 into the signed range. *)
Definition ToInt32 (z : Z) : Z :=
  let m := z mod 2 ^ 32 in
  if 2 ^ 31 <=? m then m - 2 ^ 32 else m.

(** [a << n]: both operands go through the 32-bit conversions, and the
    result is again a signed 32-bit integer. *)
Definition shl (a n : Z) : Z := ToInt32 (Z.shiftl (ToInt32 a) (n mod 32)).

(** [a & b] on numbers. *)
Definition band (a b : Z) : Z := Z.land (ToInt32 a) (ToInt32 b).

Definition hex_digit (d : Z) : ascii :=
  nth (Z.to_nat d)
      ["0"; "1"; "2"; "3"; "4"; "5"; "6"; "7";
       "8"; "9"; "a"; "b"; "c"; "d"; "e"; "f"]%char "0"%char.

(** Base-16 digits of a non-negative integer, least significant first. *)
Fixpoint digits16 (fuel : nat) (n : Z) : list Z :=
  match fuel with
  | O => []
  | S fuel' =>
      if n <? 16 then [n] else n mod 16 :: digits16 fuel' (n / 16)
  end.

(** The number a list of base-16 digits denotes. *)
Fixpoint value16 (ds : list Z) : Z :=
  match ds with
  | [] => 0
  | d :: ds' => d + 16 * value16 ds'
  end.

Fixpoint string_of_chars (l : list ascii) : string :=
  match l with
  | [] => EmptyString
  | c :: l' => String c (string_of_chars l')
  end.

(** [n.toString(16)] for an integral [n >= 0]: no leading zeros, ["0"] for
    zero. A number with binary logarithm [k] has at most [k + 1] digits. *)
Definition toString16 (n : Z) : string :=
  string_of_chars
    (map hex_digit (rev (digits16 (S (Z.to_nat (Z.log2 n))) n))).

Fixpoint repeat_char (c : ascii) (n : nat) : string :=
  match n with
  | O => EmptyString
  | S n' => String c (repeat_char c n')
  end.

(** [s.padStart(n, c)] and [s.padEnd(n, c)] with a one-character filler. *)
Definition padStart (n : nat) (c : ascii) (s : string) : string :=
  repeat_char c (n - String.length s) ++ s.

Definition padEnd (n : nat) (c : ascii) (s : string) : string :=
  s ++ repeat_char c (n - String.length s).

(** [s.slice(a, b)] for [0 <= a <= b]: the end is clamped to the length. *)
Definition slice (a b : nat) (s : string) : string :=
  String.substring a (b - a) s.

End JS.

(* ===================================================================== *)
(** ** 4.1 Identity resolver *)
(* ===================================================================== *)

Module Identity.
Import JS.

(** [const NAMESPACE_UUID = '1b671a64-40d5-491e-99b0-da01ff1f3341'] *)
Definition NAMESPACE_UUID : string := "1b671a64-40d5-491e-99b0-da01ff1f3341".

(** One iteration of the loop body:
    [hash = ((hash << 5) - hash) + char; hash = hash & hash]. *)
Definition hash_step (hash char : Z) : Z :=
  let hash := (shl hash 5 - hash) + char in
  band hash hash.

(** The [for] loop over [input], starting from [hash = 0]. *)
Definition hash_of (input : code_units) : Z := fold_left hash_step input 0.

(** The [return] expression of the TypeScript function, from [hex]. *)
Definition assemble (hex : string) : string :=
  slice 0 8 hex ++ "-" ++ slice 0 4 hex ++ "-4" ++ slice 1 4 hex
  ++ "-a" ++ slice 0 3 hex ++ "-" ++ padEnd 12 "0" (slice 0 12 hex).

Definition hex_of_hash (hash : Z) : string :=
  padStart 8 "0" (toString16 (Z.abs hash)).

(** [generateConsistentUUID(userId)] of both edge functions. Nothing in the
    [try] block throws on a string argument, so the [catch] branch with
    [crypto.randomUUID()] is dead and the function is pure. *)
Definition generateConsistentUUID (userId : code_units) : string :=
  let input := (userId ++ charCodes NAMESPACE_UUID)%list in
  let hash := hash_of input in
  let hex := hex_of_hash hash in
  assemble hex.

(** The grammar [xxxxxxxx-xxxx-4xxx-axxx-xxxxxxxxxxxx], [x] a lower-case
    hexadecimal digit, as a decision procedure on strings. *)
Definition is_hex (c : ascii) : bool :=
  let n := N_of_ascii c in
  ((48 <=? n) && (n <=? 57) || (97 <=? n) && (n <=? 102))%N.

Fixpoint all_hex (s : string) : bool :=
  match s with
  | EmptyString => true
  | String c s' => is_hex c && all_hex s'
  end.

Definition is_char (c : ascii) (s : string) : bool :=
  match s with
  | String d EmptyString => Ascii.eqb c d
  | _ => false
  end.

Definition uuid_shaped (s : string) : bool :=
  (String.length s =? 36)%nat
  && all_hex (String.substring 0 8 s) && is_char "-" (String.substring 8 1 s)
  && all_hex (String.substring 9 4 s) && is_char "-" (String.substring 13 1 s)
  && is_char "4" (String.substring 14 1 s)
  && all_hex (String.substring 15 3 s) && is_char "-" (String.substring 18 1 s)
  && is_char "a" (String.substring 19 1 s)
  && all_hex (String.substring 20 3 s) && is_char "-" (String.substring 23 1 s)
  && all_hex (String.substring 24 12 s).

(** The string of eight given characters, and the strings made of the
    digit [0] only: the vocabulary in which the two formattings of the
    hexadecimal digits are compared. *)
Definition hex8 (c0 c1 c2 c3 c4 c5 c6 c7 : ascii) : string :=
  String c0 (String c1 (String c2 (String c3
    (String c4 (String c5 (String c6 (String c7 EmptyString))))))).

Fixpoint all_zero (s : string) : bool :=
  match s with
  | EmptyString => true
  | String c s' => Ascii.eqb c "0" && all_zero s'
  end.

End Identity.

(* ===================================================================== *)
(** ** PostgreSQL primitives used by the stored procedure *)
(* ===================================================================== *)

Module PG.
Import JS.

(** A [TEXT] value is a sequence of characters; [ascii(substring(t from i
    for 1))] returns the code point of the i-th of them. *)
Abbreviation text := (list Z).

(** Values of type [INTEGER] are the signed 32-bit integers. The
    arithmetic operators [+] and [-] raise [integer out of range] when the
    result leaves that range; the shift operator wraps. *)
Definition int4_fits (z : Z) : bool := (- 2 ^ 31 <=? z) && (z <? 2 ^ 31).

Definition int4pl (a b : Z) : option Z :=
  if int4_fits (a + b) then Some (a + b) else None.

Definition int4mi (a b : Z) : option Z :=
  if int4_fits (a - b) then Some (a - b) else None.

Definition int4shl (a n : Z) : Z := ToInt32 (Z.shiftl a n).

Definition int4and (a b : Z) : Z := Z.land a b.

(** [to_hex] of a non-negative [INTEGER]. *)
Definition to_hex (n : Z) : string := toString16 n.

(** [lpad(s, n, '0')]: fills on the left, and truncates on the right when
    [s] is longer than [n]. *)
Definition lpad (s : string) (n : nat) (c : ascii) : string :=
  if (n <=? String.length s)%nat then String.substring 0 n s
  else repeat_char c (n - String.length s) ++ s.

(** [substring(s from a for n)] with a 1-based start [a >= 1]. *)
Definition substring_from_for (s : string) (a n : nat) : string :=
  String.substring (a - 1) n s.

Definition isxdigit (c : ascii) : bool :=
  let n := N_of_ascii c in
  ((48 <=? n) && (n <=? 57) || (97 <=? n) && (n <=? 102)
   || (65 <=? n) && (n <=? 70))%N.

Definition tolower (c : ascii) : ascii :=
  let n := N_of_ascii c in
  if ((65 <=? n) && (n <=? 90))%N then ascii_of_N (n + 32) else c.

(** After the byte with index [i]: a hyphen is skipped when [i] is odd and
    the byte is not the last. *)
Definition skip_hyphen (i : nat) (src : string) : string :=
  match src with
  | String c rest =>
      if Ascii.eqb c "-" && Nat.odd i && (i <? 15)%nat then rest else src
  | EmptyString => src
  end.

(** The input routine of type [UUID]: sixteen bytes of two hexadecimal
    digits each, a hyphen being accepted after every second byte but the
    last, and nothing after the sixteenth; [i] is the index of the byte to
    read. The digits are returned in lower case. *)
Fixpoint uuid_bytes (fuel : nat) (i : nat) (src : string) : option (list ascii) :=
  match fuel with
  | O => match src with EmptyString => Some [] | _ => None end
  | S fuel' =>
      match src with
      | String c1 (String c2 rest) =>
          if isxdigit c1 && isxdigit c2 then
            match uuid_bytes fuel' (S i) (skip_hyphen i rest) with
            | Some ds => Some (tolower c1 :: tolower c2 :: ds)
            | None => None
            end
          else None
      | _ => None
      end
  end.

(** The cast [uuid_str::UUID] followed by the output routine of the type,
    which prints the digits in groups of 8-4-4-4-12. [None] is the
    [invalid input syntax] error. (Braces around the value, which the
    input routine also accepts, do not occur here.) *)
Definition uuid_cast (s : string) : option string :=
  match uuid_bytes 16 0 s with
  | Some ds =>
      let h := string_of_chars ds in
      Some (String.substring 0 8 h ++ "-" ++ String.substring 8 4 h ++ "-"
            ++ String.substring 12 4 h ++ "-" ++ String.substring 16 4 h
            ++ "-" ++ String.substring 20 12 h)
  | None => None
  end.

End PG.

Module IdentitySQL.
Import JS PG.

(** [namespace_uuid TEXT := '1b671a64-40d5-491e-99b0-da01ff1f3341'] *)
Definition namespace_uuid : string := "1b671a64-40d5-491e-99b0-da01ff1f3341".

(** The loop body
    [hash_val := ((hash_val << 5) - hash_val + char_code) & 2147483647];
    [None] when one of the checked operators raises. *)
Definition hash_step (hash_val : option Z) (char_code : Z) : option Z :=
  match hash_val with
  | Some h =>
      match int4mi (int4shl h 5) h with
      | Some d =>
          match int4pl d char_code with
          | Some e => Some (int4and e 2147483647)
          | None => None
          end
      | None => None
      end
  | None => None
  end.

Definition hash_of (input_text : text) : option Z :=
  fold_left hash_step input_text (Some 0).

(** The assignment to [uuid_str]. *)
Definition uuid_str_of (hex_str : string) : string :=
  substring_from_for hex_str 1 8 ++ "-" ++
  substring_from_for hex_str 1 4 ++ "-4" ++
  substring_from_for hex_str 2 3 ++ "-a" ++
  substring_from_for hex_str 1 3 ++
  lpad (substring_from_for hex_str 1 12) 12 "0".

(** [public.generateConsistentUUID(user_id)], printed as text.
    [random_uuid] is the value [gen_random_uuid()] produces when the
    [EXCEPTION WHEN OTHERS] handler runs. *)
Definition generateConsistentUUID (random_uuid : string) (user_id : text) : string :=
  let input_text := (user_id ++ charCodes namespace_uuid)%list in
  match hash_of input_text with
  | Some hash_val =>
      let hex_str := lpad (to_hex (Z.abs hash_val)) 8 "0" in
      match uuid_cast (uuid_str_of hex_str) with
      | Some u => u
      | None => random_uuid
      end
  | None => random_uuid
  end.

End IdentitySQL.

(* ===================================================================== *)
(** ** Number arithmetic (IEEE 754 binary64) *)
(* ===================================================================== *)

Module Number.

(** The scorer computes [Math.round((correctAnswers / totalQuestions) * 100)]
    on JavaScript Numbers. Both counters are non-negative integers below
    2^32 (array lengths), which binary64 holds exactly; the quotient and
    the product are rounded to the nearest value with a 53-bit significand,
    ties to even. All quantities are non-negative and far below 2^1024, so
    a finite non-negative value [mant * 2^expo] is all that is needed:
    signs, NaN and overflow to Infinity do not occur. *)
Record float64 := Float { mant : Z; expo : Z }.

(** [floor (log2 (a / b))] for [a, b > 0]: with [la] and [lb] the binary
    logarithms of [a] and [b], the quotient lies between [2^(la-lb-1)] and
    [2^(la-lb+1)], and [a / b >= 2^(la-lb)] iff [a * 2^lb >= b * 2^la]. *)
Definition floor_log2_ratio (a b : Z) : Z :=
  let la := Z.log2 a in
  let lb := Z.log2 b in
  if a * 2 ^ lb <? b * 2 ^ la then la - lb - 1 else la - lb.

(** The integer nearest to [a / b], ties to the even one ([a >= 0], [b > 0]). *)
Definition rne (a b : Z) : Z :=
  let q := a / b in
  let r := a mod b in
  if 2 * r <? b then q
  else if b <? 2 * r then q + 1
  else if Z.even q then q else q + 1.

(** Rounding of the exact quotient [a / b] ([a >= 0], [b > 0]) to binary64:
    the significand is scaled into [2^52, 2^53) unless the exponent would
    drop below that of the subnormal numbers, and is then rounded. *)
Definition round64 (a b : Z) : float64 :=
  if a =? 0 then Float 0 0
  else
    let e := Z.max (floor_log2_ratio a b - 52) (-1074) in
    Float (rne (a * 2 ^ Z.max 0 (- e)) (b * 2 ^ Z.max 0 e)) e.

(** An integer below 2^53 is a Number as it stands. *)
Definition of_int (z : Z) : float64 := Float z 0.

(** [x / y] for [y > 0]. *)
Definition div (x y : float64) : float64 :=
  let e := expo x - expo y in
  round64 (mant x * 2 ^ Z.max 0 e) (mant y * 2 ^ Z.max 0 (- e)).

(** [x * y]. *)
Definition mul (x y : float64) : float64 :=
  let e := expo x + expo y in
  round64 (mant x * mant y * 2 ^ Z.max 0 e) (2 ^ Z.max 0 (- e)).

(** [Math.round(x)]: the integer closest to [x], the larger one on a tie,
    that is [floor (x + 1/2)]. *)
Definition Math_round (x : float64) : Z :=
  let e := expo x in
  (2 * mant x * 2 ^ Z.max 0 e + 2 ^ Z.max 0 (- e)) / (2 * 2 ^ Z.max 0 (- e)).

(** The same computation with the binary64 operations of the standard
    library's [SpecFloat], to test the definitions above against. *)
Definition reference_of_int (z : Z) : spec_float :=
  binary_normalize 53 1024 z 0 false.

Definition same_number (x : float64) (y : spec_float) : bool :=
  match y with
  | S754_zero _ => mant x =? 0
  | S754_finite false m e =>
      mant x * 2 ^ Z.max 0 (expo x - e) =? Z.pos m * 2 ^ Z.max 0 (e - expo x)
  | _ => false
  end.

Definition agrees_with_reference (c n : Z) : bool :=
  same_number
    (mul (div (of_int c) (of_int n)) (of_int 100))
    (SFmul 53 1024
       (SFdiv 53 1024 (reference_of_int c) (reference_of_int n))
       (reference_of_int 100)).

Definition pairs_up_to (bound : nat) : list (Z * Z) :=
  flat_map (fun n => map (fun c => (Z.of_nat c, Z.of_nat n)) (seq 0 (2 * n + 1)))
           (seq 1 bound).

End Number.

(* ===================================================================== *)
(** ** 4.3 Assessment scorer *)
(* ===================================================================== *)

Module Scorer.

(** The JSON values that question ids and choices can be. Numbers are
    integral here. *)
Inductive jsval :=
| JUndefined
| JNull
| JBool (b : bool)
| JNum (z : Z)
| JStr (s : string).

(** [a === b] *)
Definition strict_eq (a b : jsval) : bool :=
  match a, b with
  | JUndefined, JUndefined => true
  | JNull, JNull => true
  | JBool x, JBool y => Bool.eqb x y
  | JNum x, JNum y => x =? y
  | JStr x, JStr y => String.eqb x y
  | _, _ => false
  end.

(** Truthiness of a value, as [if], [&&] and [||] test it. *)
Definition truthy (a : jsval) : bool :=
  match a with
  | JUndefined | JNull => false
  | JBool b => b
  | JNum z => negb (z =? 0)
  | JStr s => negb (String.eqb s "")
  end.

(** A row of [course_questions], with the two columns the scorer reads. *)
Record Question := { id : jsval; correct_answer : jsval }.

(** An element of the submitted [answers] array. *)
Record Answer := { questionId : jsval; selectedAnswer : jsval }.

Record EvaluatedAnswer := {
  ea_questionId : jsval;
  ea_selectedAnswer : jsval;
  isCorrect : jsval;
  correctAnswer : jsval
}.

Record AssessmentResult := {
  totalQuestions : Z;
  correctAnswers : Z;
  score : Z;
  passed : bool;
  answers : list EvaluatedAnswer
}.

(** [courseQuestions.find(q => q.id === answer.questionId)] *)
Definition find_question (courseQuestions : list Question) (answer : Answer)
  : option Question :=
  List.find (fun q => strict_eq (id q) (questionId answer)) courseQuestions.

(** [question && answer.selectedAnswer === question.correct_answer] *)
Definition isCorrect_of (question : option Question) (answer : Answer) : jsval :=
  match question with
  | None => JUndefined
  | Some q => JBool (strict_eq (selectedAnswer answer) (correct_answer q))
  end.

(** [question?.correct_answer || null] *)
Definition correctAnswer_of (question : option Question) : jsval :=
  match question with
  | None => JNull
  | Some q => if truthy (correct_answer q) then correct_answer q else JNull
  end.

(** The callback of [answers.map]: it increments the captured counter
    [correctAnswers] and returns the evaluated answer. *)
Definition evaluate_answer (courseQuestions : list Question)
    (correctAnswers : Z) (answer : Answer) : Z * EvaluatedAnswer :=
  let question := find_question courseQuestions answer in
  let isCorrect := isCorrect_of question answer in
  let correctAnswers :=
    if truthy isCorrect then correctAnswers + 1 else correctAnswers in
  (correctAnswers,
   {| ea_questionId := questionId answer;
      ea_selectedAnswer := selectedAnswer answer;
      isCorrect := isCorrect;
      correctAnswer := correctAnswer_of question |}).

(** [answers.map(...)], threading the counter from left to right. *)
Fixpoint evaluate_answers (courseQuestions : list Question)
    (correctAnswers : Z) (answers : list Answer) : Z * list EvaluatedAnswer :=
  match answers with
  | [] => (correctAnswers, [])
  | answer :: rest =>
      let '(correctAnswers, e) :=
        evaluate_answer courseQuestions correctAnswers answer in
      let '(correctAnswers, es) :=
        evaluate_answers courseQuestions correctAnswers rest in
      (correctAnswers, e :: es)
  end.

(** [Math.round((correctAnswers / totalQuestions) * 100)] *)
Definition percentage (correctAnswers totalQuestions : Z) : Z :=
  Number.Math_round
    (Number.mul
       (Number.div (Number.of_int correctAnswers) (Number.of_int totalQuestions))
       (Number.of_int 100)).

(** The block from [let correctAnswers = 0] to [assessmentResult], run when
    [courseQuestions] is not empty. *)
Definition assess (courseQuestions : list Question) (answers : list Answer)
  : AssessmentResult :=
  let '(correctAnswers, evaluatedAnswers) :=
    evaluate_answers courseQuestions 0 answers in
  let totalQuestions := Z.of_nat (length courseQuestions) in
  let score := percentage correctAnswers totalQuestions in
  let passed := 70 <=? score in
  {| totalQuestions := totalQuestions;
     correctAnswers := correctAnswers;
     score := score;
     passed := passed;
     answers := evaluatedAnswers |}.

(** Whether the callback counts [answer] as correct. *)
Definition marked_correct (courseQuestions : list Question) (answer : Answer)
  : bool :=
  truthy (isCorrect_of (find_question courseQuestions answer) answer).

#[global] Instance jsval_eq_dec : EqDecision jsval.
Proof. solve_decision. Defined.

(** The rounding the design document writes: the integer nearest to
    [a / b], halves upwards ([b > 0]). *)
Definition spec_round (a b : Z) : Z := (2 * a + b) / (2 * b).

(** Sample data: [n] questions with ids 1..n whose correct choice is
    ["A"], and correct answers to the first [k] of them. *)
Definition sample_questions (n : nat) : list Question :=
  map (fun i => {| id := JNum (Z.of_nat i); correct_answer := JStr "A" |})
      (seq 1 n).

Definition sample_answers (k : nat) : list Answer :=
  map (fun i => {| questionId := JNum (Z.of_nat i); selectedAnswer := JStr "A" |})
      (seq 1 k).

End Scorer.

(* ===================================================================== *)
(** ** The relational store and the platform *)
(* ===================================================================== *)

Module Database.

(** An instant, by its calendar fields in the time zone of the runtime
    (UTC for an edge function): [month] counts from 0 as [getMonth()]
    does, [day] from 1, [time_of_day] is in milliseconds. The rows keep
    the instant itself where the code stores its [toISOString()] text. *)
Record Date := {
  year : Z;
  month : Z;
  day : Z;
  time_of_day : Z
}.

Definition is_leap_year (y : Z) : bool :=
  (y mod 4 =? 0) && (negb (y mod 100 =? 0) || (y mod 400 =? 0)).

Definition days_in_month (y m : Z) : Z :=
  if m =? 1 then (if is_leap_year y then 29 else 28)
  else if (m =? 3) || (m =? 5) || (m =? 8) || (m =? 10) then 30
  else 31.

(** [d.setMonth(d.getMonth() + 1)]: the date becomes day [day d] of the
    following month, counted from the first of that month, so that a day
    the month does not have runs over into the month after it. *)
Definition setMonth_next (d : Date) : Date :=
  let m := month d + 1 in
  let ym := year d + m / 12 in
  let mn := m mod 12 in
  let dim := days_in_month ym mn in
  if day d <=? dim
  then {| year := ym; month := mn; day := day d; time_of_day := time_of_day d |}
  else {| year := ym; month := mn + 1; day := day d - dim;
          time_of_day := time_of_day d |}.

(** The [error] member of a response of the client library. *)
Record DbError := { code : string; message : string }.

Record AdminCredentialsRow := {
  razorpay_key_id : option string;
  razorpay_key_secret : option string
}.

(** A row of [profiles], with the columns the stored procedures name.
    [profile_updated_at] is [None] as long as the column holds what its
    default gave it: the table is declared outside the files at hand. *)
Record ProfileRow := {
  profile_id : string;
  full_name : option string;
  email : option string;
  role : option string;
  auth_provider : option string;
  profile_updated_at : option Date
}.

Record PaymentRow := {
  payment_user_id : string;
  razorpay_order_id : option string;
  razorpay_payment_id : option string;
  razorpay_signature : option string;
  amount : option Z;
  currency : string;
  payment_plan_type : option string;
  payment_status : string
}.

Record SubscriptionRow := {
  subscription_user_id : string;
  plan_type : option string;
  status : string;
  current_period_start : Date;
  current_period_end : Date;
  was_granted : bool;
  subscription_updated_at : Date
}.

Record LearningRow := {
  learning_id : string;
  learning_user_id : string;
  learning_course_id : string;
  progress : string;
  completed_modules_count : Z;
  total_modules_count : Z;
  assessment_attempted : bool;
  assessment_score : option Z;
  last_assessment_score : Z;
  is_completed : bool;
  assessment_passed : bool;
  assessment_completed_at : option Date;
  learning_updated_at : option Date
}.

Record QuestionRow := {
  question_course_id : string;
  question_is_active : bool;
  order_index : Z;
  question : Scorer.Question
}.

Record CertificateRow := {
  certificate_row_id : string;
  title : string;
  description : string;
  certificate_type : string;
  certificate_is_active : bool;
  auto_issue : bool;
  min_score : Z
}.

Record CompletionData := {
  cd_course_id : string;
  cd_course_name : string;
  cd_completion_date : Date;
  cd_score : Z;
  cd_passing_score : Z;
  cd_user_name : string
}.

Record UserCertificateRow := {
  user_certificate_id : string;
  uc_user_id : string;
  uc_clerk_user_id : option string;
  uc_certificate_id : string;
  uc_course_id : string;
  verification_code : string;
  uc_score : Z;
  completion_data : CompletionData;
  uc_is_active : bool
}.

Record CertificateManagementRow := {
  cm_course_name : string;
  cm_course_complete : bool;
  cm_assessment_pass : bool;
  cm_assessment_score : Z;
  cm_completion_date : option Date
}.

(** The tables the two functions touch. [user_subscriptions] has one row
    per [user_id] (the conflict target of the upsert) and
    [course_certificate_management] one per [(clerk_user_id, course_id)]
    (its [UNIQUE] constraint); the insert-only tables are lists in
    insertion order. *)
Record Store := {
  admin_credentials : list AdminCredentialsRow;
  profiles : list ProfileRow;
  payments : list PaymentRow;
  user_subscriptions : gmap string SubscriptionRow;
  user_learning : list LearningRow;
  course_questions : list QuestionRow;
  certificates : list CertificateRow;
  user_certificates : list UserCertificateRow;
  course_certificate_management : gmap (string * string) CertificateManagementRow
}.

Definition set_profiles (v : list ProfileRow) (st : Store) : Store :=
  {| admin_credentials := admin_credentials st; profiles := v;
     payments := payments st; user_subscriptions := user_subscriptions st;
     user_learning := user_learning st; course_questions := course_questions st;
     certificates := certificates st; user_certificates := user_certificates st;
     course_certificate_management := course_certificate_management st |}.

Definition set_payments (v : list PaymentRow) (st : Store) : Store :=
  {| admin_credentials := admin_credentials st; profiles := profiles st;
     payments := v; user_subscriptions := user_subscriptions st;
     user_learning := user_learning st; course_questions := course_questions st;
     certificates := certificates st; user_certificates := user_certificates st;
     course_certificate_management := course_certificate_management st |}.

Definition set_user_subscriptions (v : gmap string SubscriptionRow) (st : Store)
  : Store :=
  {| admin_credentials := admin_credentials st; profiles := profiles st;
     payments := payments st; user_subscriptions := v;
     user_learning := user_learning st; course_questions := course_questions st;
     certificates := certificates st; user_certificates := user_certificates st;
     course_certificate_management := course_certificate_management st |}.

Definition set_user_learning (v : list LearningRow) (st : Store) : Store :=
  {| admin_credentials := admin_credentials st; profiles := profiles st;
     payments := payments st; user_subscriptions := user_subscriptions st;
     user_learning := v; course_questions := course_questions st;
     certificates := certificates st; user_certificates := user_certificates st;
     course_certificate_management := course_certificate_management st |}.

Definition set_certificates (v : list CertificateRow) (st : Store) : Store :=
  {| admin_credentials := admin_credentials st; profiles := profiles st;
     payments := payments st; user_subscriptions := user_subscriptions st;
     user_learning := user_learning st; course_questions := course_questions st;
     certificates := v; user_certificates := user_certificates st;
     course_certificate_management := course_certificate_management st |}.

Definition set_user_certificates (v : list UserCertificateRow) (st : Store)
  : Store :=
  {| admin_credentials := admin_credentials st; profiles := profiles st;
     payments := payments st; user_subscriptions := user_subscriptions st;
     user_learning := user_learning st; course_questions := course_questions st;
     certificates := certificates st; user_certificates := v;
     course_certificate_management := course_certificate_management st |}.

Definition set_course_certificate_management
    (v : gmap (string * string) CertificateManagementRow) (st : Store) : Store :=
  {| admin_credentials := admin_credentials st; profiles := profiles st;
     payments := payments st; user_subscriptions := user_subscriptions st;
     user_learning := user_learning st; course_questions := course_questions st;
     certificates := certificates st; user_certificates := user_certificates st;
     course_certificate_management := v |}.

(** Two stores with the same rows outside [profiles]. *)
Definition same_but_profiles (st st' : Store) : Prop :=
  admin_credentials st' = admin_credentials st
  /\ payments st' = payments st
  /\ user_subscriptions st' = user_subscriptions st
  /\ user_learning st' = user_learning st
  /\ course_questions st' = course_questions st
  /\ certificates st' = certificates st
  /\ user_certificates st' = user_certificates st
  /\ course_certificate_management st' = course_certificate_management st.

(** Two stores with the same rows outside
    [course_certificate_management]. *)
Definition same_but_certificate_management (st st' : Store) : Prop :=
  admin_credentials st' = admin_credentials st
  /\ profiles st' = profiles st
  /\ payments st' = payments st
  /\ user_subscriptions st' = user_subscriptions st
  /\ user_learning st' = user_learning st
  /\ course_questions st' = course_questions st
  /\ certificates st' = certificates st
  /\ user_certificates st' = user_certificates st.

(** The places where the functions call the store. *)
Inductive call_site :=
| AdminCredentialsSelect
| ProfileRpc
| PaymentInsert
| SubscriptionUpsert
| LearningSelect
| LearningInsert
| LearningUpdate
| QuestionsSelect
| ProfileSelect
| CertificateManagementRpc
| UserCertificateSelect
| CertificateSelect
| CertificateInsert
| UserCertificateInsert.

(** What the world outside answers during one request: whether a call to
    the store fails on its own (and then changes nothing), the clock of the
    function (the [new Date()] expressions of an action, numbered as they
    follow each other in its text and each evaluated at most once, and
    [Date.now()]) and of the store ([NOW()], the start of the transaction
    of the call at a site), the identifiers and random values handed out,
    and the platform's [TextEncoder] and HMAC-SHA-256. [user_role] tells
    the labels of the enumerated type [user_role], which the stored
    procedures cast to and the files at hand do not declare. *)
Record Env := {
  fault : call_site -> option DbError;
  new_Date : nat -> Date;
  Date_now : Z;
  NOW : call_site -> Date;
  user_role : string -> bool;
  Math_random_tail : string;
  generated_id : call_site -> string;
  gen_random_uuid : string;
  TextEncoder_encode : string -> list Z;
  hmac_sha256 : list Z -> list Z -> list Z
}.

(** A computation of a request: it returns or throws, and leaves a store.
    What a step wrote before a later step throws stays written. *)
Inductive outcome (A : Type) : Type :=
| Returned (a : A)
| Thrown (error_message : string).
Arguments Returned {A} a.
Arguments Thrown {A} error_message.

Definition M (A : Type) : Type := Store -> outcome A * Store.

Definition ret {A} (a : A) : M A := fun st => (Returned a, st).

Definition throw {A} (error_message : string) : M A :=
  fun st => (Thrown error_message, st).

Definition bind {A B} (c : M A) (k : A -> M B) : M B :=
  fun st =>
    match c st with
    | (Returned a, st') => k a st'
    | (Thrown e, st') => (Thrown e, st')
    end.

(** [try { c } catch (error) { h error.message }] *)
Definition try_catch {A} (c : M A) (h : string -> M A) : M A :=
  fun st =>
    match c st with
    | (Returned a, st') => (Returned a, st')
    | (Thrown e, st') => h e st'
    end.

(** The [{ data, error }] pair of a call. *)
Inductive db_result (A : Type) : Type :=
| DbOk (data : A)
| DbErr (error : DbError).
Arguments DbOk {A} data.
Arguments DbErr {A} error.

(** A read: it fails when the world says so, and otherwise answers from
    the store. *)
Definition db_read {A} (env : Env) (site : call_site)
    (query : Store -> db_result A) : M (db_result A) :=
  fun st =>
    match fault env site with
    | Some e => (Returned (DbErr e), st)
    | None => (Returned (query st), st)
    end.

(** A write: it fails when the world says so or when the statement itself
    fails, and changes nothing then. *)
Definition db_write {A} (env : Env) (site : call_site)
    (statement : Store -> db_result (A * Store)) : M (db_result A) :=
  fun st =>
    match fault env site with
    | Some e => (Returned (DbErr e), st)
    | None =>
        match statement st with
        | DbOk (a, st') => (Returned (DbOk a), st')
        | DbErr e => (Returned (DbErr e), st)
        end
    end.

(** [.single()]: exactly one row, otherwise an error and no data. *)
Definition single {A} (rows : list A) : db_result A :=
  match rows with
  | [r] => DbOk r
  | _ => DbErr {| code := "PGRST116";
                  message := "JSON object requested, multiple (or no) rows returned" |}
  end.

(** [.maybeSingle()]: the row if there is one, [null] if there is none,
    an error and no data if there are several. *)
Definition maybeSingle {A} (rows : list A) : db_result (option A) :=
  match rows with
  | [] => DbOk None
  | [r] => DbOk (Some r)
  | _ => DbErr {| code := "PGRST116";
                  message := "JSON object requested, multiple (or no) rows returned" |}
  end.

(** The [data] member: [null] when the call failed. *)
Definition data_of {A} (r : db_result (option A)) : option A :=
  match r with
  | DbOk d => d
  | DbErr _ => None
  end.

(** A string in a condition: [undefined], [null] and [""] are falsy. *)
Definition truthy_string (s : option string) : option string :=
  match s with
  | Some v => if String.eqb v "" then None else Some v
  | None => None
  end.

(** [COALESCE(a, b)] *)
Definition coalesce (a : option string) (b : string) : option string :=
  match a with
  | Some v => Some v
  | None => Some b
  end.

Definition string_opt_eqb (a : option string) (b : string) : bool :=
  match a with
  | Some v => String.eqb v b
  | None => false
  end.

(** [COALESCE(profiles.role::text, p_role)], the text the [UPDATE]
    statements cast to [user_role]. *)
Definition role_text (r : ProfileRow) (p_role : string) : string :=
  default p_role (role r).

(** The error of [text::user_role] for a text that is no label of the
    type. *)
Definition invalid_user_role (text : string) : DbError :=
  let quote := String (Ascii.ascii_of_nat 34) EmptyString in
  {| code := "22P02";
     message := "invalid input value for enum user_role: "
                ++ quote ++ text ++ quote |}.

(** [public.ensure_user_profile(p_user_id, p_full_name, p_email, p_role,
    p_auth_provider)] on the [profiles] table, in a transaction that
    started at [now]. A statement works through the rows it matches in
    their order and fails, leaving nothing changed, at the first row whose
    role text is no label of [user_role]; [id] is the primary key, so the
    second row re-keyed to the same id is a unique violation. *)
Definition ensure_user_profile (user_role : string -> bool) (now : Date)
    (p_user_id p_full_name p_email p_role p_auth_provider : string)
    (rows : list ProfileRow)
  : db_result (list ProfileRow) :=
  if existsb (fun r => String.eqb (profile_id r) p_user_id) rows then
    match List.find (fun r => String.eqb (profile_id r) p_user_id
                              && negb (user_role (role_text r p_role))) rows with
    | Some r => DbErr (invalid_user_role (role_text r p_role))
    | None =>
        DbOk (map (fun r =>
                     if String.eqb (profile_id r) p_user_id then
                       {| profile_id := profile_id r;
                          full_name := coalesce (full_name r) p_full_name;
                          email := coalesce (email r) p_email;
                          role := coalesce (role r) p_role;
                          auth_provider :=
                            coalesce (auth_provider r) p_auth_provider;
                          profile_updated_at := Some now |}
                     else r) rows)
    end
  else if existsb (fun r => string_opt_eqb (email r) p_email) rows then
    match List.find (fun r => negb (user_role (role_text r p_role)))
            (firstn 2 (List.filter (fun r => string_opt_eqb (email r) p_email)
                         rows)) with
    | Some r => DbErr (invalid_user_role (role_text r p_role))
    | None =>
        if (length (List.filter (fun r => string_opt_eqb (email r) p_email) rows)
            =? 1)%nat
        then
          DbOk (map (fun r =>
                       if string_opt_eqb (email r) p_email then
                         {| profile_id := p_user_id;
                            full_name := coalesce (full_name r) p_full_name;
                            email := email r;
                            role := coalesce (role r) p_role;
                            auth_provider :=
                              coalesce (auth_provider r) p_auth_provider;
                            profile_updated_at := Some now |}
                       else r) rows)
        else DbErr {| code := "23505";
                      message := "duplicate key value violates unique constraint" |}
    end
  else if user_role p_role then
    DbOk (rows ++ [{| profile_id := p_user_id;
                      full_name := Some p_full_name;
                      email := Some p_email;
                      role := Some p_role;
                      auth_provider := Some p_auth_provider;
                      profile_updated_at := None |}])%list
  else DbErr (invalid_user_role p_role).

(** [supabase.rpc('get_or_create_user_profile', ...)]: the stored
    procedure derives the profile id with the SQL resolver. *)
Definition rpc_get_or_create_user_profile (env : Env)
    (p_clerk_user_id p_full_name p_email p_role : string)
  : M (db_result string) :=
  db_write env ProfileRpc (fun st =>
    let supabase_user_id :=
      IdentitySQL.generateConsistentUUID (gen_random_uuid env)
        (JS.charCodes p_clerk_user_id) in
    match ensure_user_profile (user_role env) (NOW env ProfileRpc)
            supabase_user_id p_full_name p_email p_role "clerk"
            (profiles st) with
    | DbOk rows => DbOk (supabase_user_id, set_profiles rows st)
    | DbErr e => DbErr e
    end).

#[global] Instance call_site_eq_dec : EqDecision call_site.
Proof. solve_decision. Defined.

(** The world [env] with the call at [site] failing with [e]. *)
Definition with_fault (env : Env) (site : call_site) (e : DbError) : Env :=
  {| fault := fun s => if decide (s = site) then Some e else fault env s;
     new_Date := new_Date env;
     Date_now := Date_now env;
     NOW := NOW env;
     user_role := user_role env;
     Math_random_tail := Math_random_tail env;
     generated_id := generated_id env;
     gen_random_uuid := gen_random_uuid env;
     TextEncoder_encode := TextEncoder_encode env;
     hmac_sha256 := hmac_sha256 env |}.

(** A sample world without faults, whose HMAC is a fixed digest. *)
Definition sample_date (d : Z) : Date :=
  {| year := 2025; month := 0; day := d; time_of_day := 43200000 |}.

Definition sample_env : Env :=
  {| fault := fun _ => None;
     new_Date := fun k => sample_date (10 + Z.of_nat k);
     Date_now := 1736510400000;
     NOW := fun _ => sample_date 10;
     user_role := fun label => String.eqb label "student"
                               || String.eqb label "admin";
     Math_random_tail := "K3J9QZ";
     generated_id := fun _ => "7f0c2a7e-5b1d-4c55-9a3e-2f6f1f0f9b11";
     gen_random_uuid := "0b9d6c1e-3f4a-4d2b-8c7e-5a1f2e3d4c5b";
     TextEncoder_encode := JS.charCodes;
     hmac_sha256 := fun _ _ => [0; 171; 15; 255] |}.

(** A second world, ten days later, handing out another identifier. *)
Definition second_env : Env :=
  {| fault := fault sample_env;
     new_Date := fun k => sample_date (20 + Z.of_nat k);
     Date_now := 1737374400000;
     NOW := fun _ => sample_date 20;
     user_role := user_role sample_env;
     Math_random_tail := "P0M4XW";
     generated_id := fun _ => "2d9e4b6a-8c1f-4e37-b5a2-6e7d8c9b0a1f";
     gen_random_uuid := gen_random_uuid sample_env;
     TextEncoder_encode := TextEncoder_encode sample_env;
     hmac_sha256 := hmac_sha256 sample_env |}.

Definition timeout_error : DbError :=
  {| code := "57014"; message := "canceling statement due to statement timeout" |}.

End Database.

Notation "'let!' x := c 'in' k" := (Database.bind c (fun x => k))
  (at level 10, x pattern, c at level 100, k at level 200, only parsing).

(* ===================================================================== *)
(** ** 4.2, 4.4, 4.6 The payment function: [verify_payment] *)
(* ===================================================================== *)

Module Payment.
Import JS Database.

(** The fields [verify_payment] takes out of the request body; [None] is
    an absent field. *)
Record Payload := {
  p_razorpay_order_id : option string;
  p_razorpay_payment_id : option string;
  p_razorpay_signature : option string;
  p_plan_type : option string;
  p_amount : option Z;
  p_currency : option string;
  p_user_email : option string;
  p_user_id : option string
}.

Inductive Request :=
| verify_payment_request (payload : Payload)
| other_action.

Inductive Body :=
| SuccessBody (success : bool) (message : string)
| ErrorBody (error : string) (details : string).

Record Response := { http_status : Z; body : Body }.

(** A value inside a template literal. *)
Definition interpolate (v : option string) : string :=
  match v with
  | Some s => s
  | None => "undefined"
  end.

(** [Array.from(new Uint8Array(signature)).map(b =>
    b.toString(16).padStart(2, '0')).join('')] *)
Definition hex_of_bytes (bytes : list Z) : string :=
  fold_right (fun b acc => padStart 2 "0" (toString16 b) ++ acc) "" bytes.

(** The expected signature: HMAC-SHA-256, keyed by the encoded secret, of
    the encoded text [order_id|payment_id], in hexadecimal. *)
Definition expectedSignature (env : Env) (razorpay_key_secret : string)
    (payload : Payload) : string :=
  let data :=
    TextEncoder_encode env
      (interpolate (p_razorpay_order_id payload) ++ "|"
       ++ interpolate (p_razorpay_payment_id payload)) in
  let key := TextEncoder_encode env razorpay_key_secret in
  hex_of_bytes (hmac_sha256 env key data).

(** [user_email.split('@')[0]] *)
Fixpoint before_at (s : string) : string :=
  match s with
  | EmptyString => EmptyString
  | String c s' => if Ascii.eqb c "@" then EmptyString else String c (before_at s')
  end.

(** The [try] block around the profile call: its failure is logged and
    the payment goes on. *)
Definition ensure_profile (env : Env) (clerkUserId user_email : string) : M unit :=
  try_catch
    (let! r := rpc_get_or_create_user_profile env clerkUserId
            (before_at user_email) user_email "student" in
     match r with
     | DbErr e => throw ("Profile creation failed: " ++ message e)
     | DbOk _ => ret tt
     end)
    (fun _ => ret tt).

(** The row of [supabase.from('payments').insert({...})]. *)
Definition payment_row (supabaseUserId : string) (payload : Payload)
  : PaymentRow :=
  {| payment_user_id := supabaseUserId;
     razorpay_order_id := p_razorpay_order_id payload;
     razorpay_payment_id := p_razorpay_payment_id payload;
     razorpay_signature := p_razorpay_signature payload;
     amount := p_amount payload;
     currency := default "INR" (p_currency payload);
     payment_plan_type := p_plan_type payload;
     payment_status := "completed" |}.

Definition store_payment (env : Env) (supabaseUserId : string)
    (payload : Payload) : M unit :=
  let! r := db_write env PaymentInsert (fun st =>
         DbOk (tt, set_payments
                     (payments st ++ [payment_row supabaseUserId payload])%list
                     st)) in
  match r with
  | DbErr e => throw ("Failed to store payment record: " ++ message e)
  | DbOk _ => ret tt
  end.

(** The row of the upsert. The three [new Date()] of the block are, in
    evaluation order, [subscriptionEnd], [current_period_start] and
    [updated_at]. *)
Definition subscription_row (env : Env) (supabaseUserId : string)
    (payload : Payload) : SubscriptionRow :=
  let subscriptionEnd := setMonth_next (new_Date env 0) in
  {| subscription_user_id := supabaseUserId;
     plan_type := p_plan_type payload;
     status := "active";
     current_period_start := new_Date env 1;
     current_period_end := subscriptionEnd;
     was_granted := false;
     subscription_updated_at := new_Date env 2 |}.

(** [supabase.from('user_subscriptions').upsert({...},
    { onConflict: 'user_id' })] *)
Definition manage_subscription (env : Env) (supabaseUserId : string)
    (payload : Payload) : M unit :=
  let! r := db_write env SubscriptionUpsert (fun st =>
         DbOk (tt, set_user_subscriptions
                     (<[supabaseUserId := subscription_row env supabaseUserId payload]>
                        (user_subscriptions st)) st)) in
  match r with
  | DbErr e => throw ("Failed to manage subscription: " ++ message e)
  | DbOk _ => ret tt
  end.

(** What [verify_payment] does once the signature is verified. *)
Definition after_signature (env : Env) (payload : Payload)
    (clerkUserId user_email supabaseUserId : string) : M Response :=
  let! _ := ensure_profile env clerkUserId user_email in
  let! _ := store_payment env supabaseUserId payload in
  let! _ := manage_subscription env supabaseUserId payload in
  ret {| http_status := 200;
         body := SuccessBody true "Payment verified and subscription activated" |}.

(** [case 'verify_payment'] *)
Definition verify_payment (env : Env) (razorpay_key_secret : string)
    (payload : Payload) : M Response :=
  match truthy_string (p_user_email payload),
        truthy_string (p_user_id payload) with
  | Some user_email, Some clerkUserId =>
      let supabaseUserId :=
        Identity.generateConsistentUUID (charCodes clerkUserId) in
      if negb (string_opt_eqb (p_razorpay_signature payload)
                 (expectedSignature env razorpay_key_secret payload))
      then throw "Invalid payment signature"
      else after_signature env payload clerkUserId user_email supabaseUserId
  | _, _ => throw "Missing user email or ID in request"
  end.

(** The credentials read that precedes the [switch]. *)
Definition razorpay_credentials (env : Env) : M (string * string) :=
  let! r := db_read env AdminCredentialsSelect
              (fun st => single (admin_credentials st)) in
  match r with
  | DbOk adminData =>
      match truthy_string (razorpay_key_id adminData),
            truthy_string (razorpay_key_secret adminData) with
      | Some key_id, Some key_secret => ret (key_id, key_secret)
      | _, _ => throw "Razorpay credentials not configured in admin settings"
      end
  | DbErr _ => throw "Razorpay credentials not configured in admin settings"
  end.

(** The body of the outer [catch]. *)
Definition error_response (error_message : string) : Response :=
  {| http_status := 400;
     body := ErrorBody error_message "Enhanced payment processing failed" |}.

(** The end of a request: the response of the [try] block, or the one the
    outer [catch] makes of what was thrown. *)
Definition respond (result : outcome Response * Store) : Response * Store :=
  match result with
  | (Returned response, st') => (response, st')
  | (Thrown e, st') => (error_response e, st')
  end.

(** The handler, for a request that is not [create_order] (which only
    forwards to the gateway). *)
Definition serve (env : Env) (request : Request) (st : Store) : Response * Store :=
  respond
    ((let! (_, key_secret) := razorpay_credentials env in
      match request with
      | verify_payment_request payload => verify_payment env key_secret payload
      | other_action => throw "Invalid action"
      end) st).

Definition verified_response : Response :=
  {| http_status := 200;
     body := SuccessBody true "Payment verified and subscription activated" |}.

(** Sample data for the payment function: a store holding the gateway
    credentials, and a request carrying a given signature. *)
Definition sample_store : Store :=
  {| admin_credentials :=
       [{| razorpay_key_id := Some "rzp_test_key";
           razorpay_key_secret := Some "secret" |}];
     profiles := [];
     payments := [];
     user_subscriptions := ∅;
     user_learning := [];
     course_questions := [];
     certificates := [];
     user_certificates := [];
     course_certificate_management := ∅ |}.

Definition sample_payload (signature : string) : Payload :=
  {| p_razorpay_order_id := Some "order_1";
     p_razorpay_payment_id := Some "pay_1";
     p_razorpay_signature := Some signature;
     p_plan_type := Some "pro";
     p_amount := Some 999;
     p_currency := None;
     p_user_email := Some "ada@example.com";
     p_user_id := Some "user_2abc" |}.


End Payment.

(* ===================================================================== *)
(** ** 4.5, 4.6 The learning service: [generateCertificate], [fetch],
       [evaluateAssessment] *)
(* ===================================================================== *)

Module Learning.
Import JS Database.

Definition PASSING_SCORE : Z := 70.

Record Params := {
  userId : string;
  name : string;
  courseId : string;
  courseName : string;
  score : Z;
  clerkUserId : option string
}.

Record CertificateResult := {
  success : bool;
  certificateId : option string;
  message : option string
}.

(** [public.update_course_certificate_management(...)]: an insert that, on
    a conflict on [(clerk_user_id, course_id)], updates the completion
    columns and keeps the stored course name. *)
Definition update_course_certificate_management
    (now : Date) (p_clerk_user_id p_course_id p_course_name : string)
    (p_course_complete : bool) (p_assessment_score : Z)
    (table : gmap (string * string) CertificateManagementRow)
  : gmap (string * string) CertificateManagementRow :=
  let pass := 70 <=? p_assessment_score in
  let completion :=
    if p_course_complete && pass then Some now else None in
  let stored_name :=
    match table !! (p_clerk_user_id, p_course_id) with
    | Some old => cm_course_name old
    | None => p_course_name
    end in
  <[(p_clerk_user_id, p_course_id) :=
      {| cm_course_name := stored_name;
         cm_course_complete := p_course_complete;
         cm_assessment_pass := pass;
         cm_assessment_score := p_assessment_score;
         cm_completion_date := completion |}]> table.

(** Step 2: the completion-tracking update. An error it returns is logged,
    one it throws is caught; either way the function goes on. *)
Definition update_certificate_management (env : Env) (params : Params) : M unit :=
  match truthy_string (clerkUserId params) with
  | Some clerk =>
      try_catch
        (let! _ := db_write env CertificateManagementRpc (fun st =>
           DbOk (tt, set_course_certificate_management
                       (update_course_certificate_management
                          (NOW env CertificateManagementRpc) clerk
                          (courseId params) (courseName params) true
                          (score params) (course_certificate_management st))
                       st)) in
         ret tt)
        (fun _ => ret tt)
  | None => ret tt
  end.

(** The rows the existence check selects. *)
Definition active_certificates (user course : string)
    (rows : list UserCertificateRow) : list UserCertificateRow :=
  List.filter (fun c => String.eqb (uc_user_id c) user
                        && String.eqb (uc_course_id c) course
                        && Bool.eqb (uc_is_active c) true) rows.

Definition default_certificates (rows : list CertificateRow) : list CertificateRow :=
  List.filter (fun c => Bool.eqb (certificate_is_active c) true
                        && String.eqb (certificate_type c) "completion") rows.

(** Steps 5 and 6: the verification code and the insert. *)
Definition create_user_certificate (env : Env) (params : Params)
    (defaultCertificate : CertificateRow) : M CertificateResult :=
  let verificationCode :=
    "CERT-" ++ pretty (Date_now env) ++ "-" ++ Math_random_tail env in
  let! r := db_write env UserCertificateInsert (fun st =>
    let row :=
      {| user_certificate_id := generated_id env UserCertificateInsert;
         uc_user_id := userId params;
         uc_clerk_user_id := clerkUserId params;
         uc_certificate_id := certificate_row_id defaultCertificate;
         uc_course_id := courseId params;
         verification_code := verificationCode;
         uc_score := score params;
         completion_data :=
           {| cd_course_id := courseId params;
              cd_course_name := courseName params;
              cd_completion_date := new_Date env 2;
              cd_score := score params;
              cd_passing_score := PASSING_SCORE;
              cd_user_name := name params |};
         uc_is_active := true |} in
    DbOk (user_certificate_id row,
          set_user_certificates (user_certificates st ++ [row])%list st)) in
  match r with
  | DbErr saveError => throw (Database.message saveError)
  | DbOk newCert_id =>
      ret {| success := true; certificateId := Some newCert_id;
             message := Some "Certificate generated successfully" |}
  end.

(** Step 4 when no default certificate is found: one is inserted, and the
    assignment [defaultCertificate = newCertificate] to the [const]
    binding then throws. *)
Definition create_default_certificate (env : Env) : M CertificateResult :=
  let! created := db_write env CertificateInsert (fun st =>
    let row :=
      {| certificate_row_id := generated_id env CertificateInsert;
         title := "Course Completion Certificate";
         description := "Certificate of successful course completion";
         certificate_type := "completion";
         certificate_is_active := true;
         auto_issue := true;
         min_score := PASSING_SCORE |} in
    DbOk (row, set_certificates (certificates st ++ [row])%list st)) in
  match created with
  | DbErr _ =>
      ret {| success := false; certificateId := None;
             message := Some "Failed to create certificate template" |}
  | DbOk newCertificate => throw "Assignment to constant variable."
  end.

(** Steps 4 to 6: the default certificate, then the new row. *)
Definition issue_certificate (env : Env) (params : Params)
  : M CertificateResult :=
  let! r := db_read env CertificateSelect (fun st =>
    single (default_certificates (certificates st))) in
  match r with
  | DbOk defaultCertificate =>
      create_user_certificate env params defaultCertificate
  | DbErr _ => create_default_certificate env
  end.

(** The body of the [try] block of [generateCertificate]: step 2, the
    check for an existing certificate (whose [error] is not looked at),
    and the issuance. *)
Definition generateCertificate_try (env : Env) (params : Params)
  : M CertificateResult :=
  let! _ := update_certificate_management env params in
  let! existing := db_read env UserCertificateSelect (fun st =>
    maybeSingle (active_certificates (userId params) (courseId params)
                   (user_certificates st))) in
  match data_of existing with
  | Some existingCert =>
      ret {| success := true;
             certificateId := Some (user_certificate_id existingCert);
             message := Some "Certificate already exists" |}
  | None => issue_certificate env params
  end.

(** [generateCertificate(supabase, params)] *)
Definition generateCertificate (env : Env) (params : Params)
  : M CertificateResult :=
  if score params <? PASSING_SCORE then
    ret {| success := false; certificateId := None;
           message := Some "Score below passing threshold" |}
  else
    try_catch (generateCertificate_try env params)
      (fun error_message =>
         ret {| success := false; certificateId := None;
                message :=
                  Some (if String.eqb error_message ""
                        then "Certificate generation failed"
                        else error_message) |}).

(** The two successful answers. *)
Definition issued (new_id : string) : CertificateResult :=
  {| success := true; certificateId := Some new_id;
     message := Some "Certificate generated successfully" |}.

Definition already_issued (old_id : string) : CertificateResult :=
  {| success := true; certificateId := Some old_id;
     message := Some "Certificate already exists" |}.

(** *** The request handler *)

Record Data := {
  data_courseId : option string;
  data_courseName : option string
}.

Inductive Action :=
| fetch
| evaluateAssessment
| unknown_action (action : string).

(** The request body. [questions] records whether the field is truthy,
    which is all the handler looks at. *)
Record Request := {
  action : Action;
  request_clerkUserId : option string;
  data : option Data;
  totalModules : option Z;
  questions : bool;
  answers : option (list Scorer.Answer)
}.

Record EvaluationResult := {
  assessmentResult : Scorer.AssessmentResult;
  saved : bool;
  certificateGenerated : bool;
  result_certificateId : option string
}.

Inductive ResultData :=
| learning_record (row : option LearningRow)
| evaluation (result : EvaluationResult).

(** [{ success: true, data }] and [{ success: false, error }]. *)
Inductive Body :=
| SuccessBody (result : ResultData)
| ErrorBody (error : string).

Record Response := { http_status : Z; body : Body }.

Definition courseId_of (request : Request) : option string :=
  match data request with
  | Some d => data_courseId d
  | None => None
  end.

Definition courseName_of (request : Request) : option string :=
  match data request with
  | Some d => data_courseName d
  | None => None
  end.

(** A number in a condition: [undefined] and [0] are falsy. *)
Definition truthy_number (n : option Z) : option Z :=
  match n with
  | Some v => if v =? 0 then None else Some v
  | None => None
  end.

(** A filter value as the query string carries it. *)
Definition filter_value (v : option string) : string :=
  match v with
  | Some s => s
  | None => "undefined"
  end.

(** The profile call of the three actions: whatever it throws is caught,
    and its [error] is not looked at. *)
Definition ensure_profile (env : Env) (clerk : string) : M unit :=
  try_catch
    (let! _ := rpc_get_or_create_user_profile env clerk "Student"
                 (clerk ++ "@temp.com") "student" in
     ret tt)
    (fun _ => ret tt).

Definition learning_rows (user course : string) (rows : list LearningRow)
  : list LearningRow :=
  List.filter (fun r => String.eqb (learning_user_id r) user
                        && String.eqb (learning_course_id r) course) rows.

Definition insert_learning (env : Env) (row : LearningRow)
  : M (db_result LearningRow) :=
  db_write env LearningInsert (fun st =>
    DbOk (row, set_user_learning (user_learning st ++ [row])%list st)).

(** [case 'fetch'] *)
Definition fetch_action (env : Env) (request : Request)
    (clerk supabaseUserId : string) : M ResultData :=
  let! _ := ensure_profile env clerk in
  let! found := db_read env LearningSelect (fun st =>
    maybeSingle (learning_rows supabaseUserId
                   (filter_value (courseId_of request)) (user_learning st))) in
  let after_lookup (existingData : option LearningRow) : M ResultData :=
    match existingData, truthy_number (totalModules request),
          truthy_string (courseId_of request) with
    | None, Some total, Some course =>
        let newRecord :=
          {| learning_id := generated_id env LearningInsert;
             learning_user_id := supabaseUserId;
             learning_course_id := course;
             progress := "{}";
             completed_modules_count := 0;
             total_modules_count := total;
             assessment_attempted := false;
             assessment_score := None;
             last_assessment_score := 0;
             is_completed := false;
             assessment_passed := false;
             assessment_completed_at := None;
             learning_updated_at := None |} in
        let! created := insert_learning env newRecord in
        match created with
        | DbErr createError => ret (learning_record None)
        | DbOk createdData => ret (learning_record (Some createdData))
        end
    | _, _, _ => ret (learning_record existingData)
    end in
  match found with
  | DbErr fetchError =>
      if negb (String.eqb (code fetchError) "PGRST116")
      then throw (Database.message fetchError)
      else after_lookup None
  | DbOk existingData => after_lookup existingData
  end.

(** [.order('order_index')]: a stable insertion sort. *)
Fixpoint insert_by_order (q : QuestionRow) (l : list QuestionRow)
  : list QuestionRow :=
  match l with
  | [] => [q]
  | x :: l' =>
      if order_index q <? order_index x then q :: l
      else x :: insert_by_order q l'
  end.

Definition order_by_order_index (l : list QuestionRow) : list QuestionRow :=
  fold_right insert_by_order [] (rev l).

Definition select_course_questions (course : string) (rows : list QuestionRow)
  : list QuestionRow :=
  order_by_order_index
    (List.filter (fun q => String.eqb (question_course_id q) course
                           && Bool.eqb (question_is_active q) true) rows).

(** The assessment columns written to [user_learning]. *)
Definition save_assessment (env : Env) (request : Request)
    (supabaseUserId course : string) (result : Scorer.AssessmentResult)
  : M unit :=
  let passed := Scorer.passed result in
  let score := Scorer.score result in
  let total := default 0 (truthy_number (totalModules request)) in
  let! found := db_read env LearningSelect (fun st =>
    maybeSingle (learning_rows supabaseUserId course (user_learning st))) in
  match data_of found with
  | Some existingLearning =>
      let! r := db_write env LearningUpdate (fun st =>
        DbOk (tt, set_user_learning
          (map (fun row =>
                  if String.eqb (learning_id row) (learning_id existingLearning)
                  then
                    {| learning_id := learning_id row;
                       learning_user_id := learning_user_id row;
                       learning_course_id := learning_course_id row;
                       progress :=
                         if String.eqb (progress existingLearning) ""
                         then "{}" else progress existingLearning;
                       completed_modules_count :=
                         completed_modules_count existingLearning;
                       total_modules_count := total;
                       assessment_attempted := true;
                       assessment_score := Some score;
                       last_assessment_score := score;
                       is_completed := passed;
                       assessment_passed := passed;
                       assessment_completed_at := Some (new_Date env 0);
                       learning_updated_at := Some (new_Date env 1) |}
                  else row) (user_learning st)) st)) in
      match r with
      | DbErr updateError =>
          throw ("Failed to update assessment results: "
                 ++ Database.message updateError)
      | DbOk _ => ret tt
      end
  | None =>
      let! r := insert_learning env
        {| learning_id := generated_id env LearningInsert;
           learning_user_id := supabaseUserId;
           learning_course_id := course;
           progress := "{}";
           completed_modules_count := 0;
           total_modules_count := total;
           assessment_attempted := true;
           assessment_score := Some score;
           last_assessment_score := score;
           is_completed := passed;
           assessment_passed := passed;
           assessment_completed_at := Some (new_Date env 0);
           learning_updated_at := None |} in
      match r with
      | DbErr insertError =>
          throw ("Failed to save assessment results: "
                 ++ Database.message insertError)
      | DbOk _ => ret tt
      end
  end.

(** The part of [case 'evaluateAssessment'] up to and including the
    saving of the assessment result. *)
Definition evaluate_and_save (env : Env) (request : Request)
    (clerk supabaseUserId : string) : M (Scorer.AssessmentResult * string) :=
  match questions request, answers request, truthy_string (courseId_of request) with
  | true, Some submitted, Some course =>
      let! _ := ensure_profile env clerk in
      let! fetched := db_read env QuestionsSelect (fun st =>
        DbOk (select_course_questions course (course_questions st))) in
      match fetched with
      | DbErr questionsError =>
          throw ("Failed to fetch course questions: "
                 ++ Database.message questionsError)
      | DbOk [] => throw "No questions found for this course"
      | DbOk courseQuestions =>
          let result := Scorer.assess (map question courseQuestions) submitted in
          let! _ := save_assessment env request supabaseUserId course result in
          ret (result, course)
      end
  | _, _, _ =>
      throw "Questions, answers, and courseId are required for assessment evaluation"
  end.

(** The block [// Generate certificate if passed]. Nothing escapes it: the
    store calls return their errors, [generateCertificate] catches its
    own, and the [catch] of the block takes the rest. *)
Definition certificate_if_passed (env : Env) (request : Request)
    (clerk supabaseUserId course : string) (result : Scorer.AssessmentResult)
  : M CertificateResult :=
  match Scorer.passed result, truthy_string (courseName_of request) with
  | true, Some course_name =>
      try_catch
        (let! found := db_read env ProfileSelect (fun st =>
           maybeSingle (List.filter
                          (fun p => String.eqb (profile_id p) supabaseUserId)
                          (profiles st))) in
         match data_of found with
         | Some profileData =>
             match truthy_string (full_name profileData) with
             | Some user_name =>
                 generateCertificate env
                   {| userId := supabaseUserId;
                      name := user_name;
                      courseId := course;
                      courseName := course_name;
                      score := Scorer.score result;
                      clerkUserId := Some clerk |}
             | None =>
                 ret {| success := false; certificateId := None;
                        message := Some "No profile data available" |}
             end
         | None =>
             ret {| success := false; certificateId := None;
                    message := Some "No profile data available" |}
         end)
        (fun _ =>
           ret {| success := false; certificateId := None;
                  message := Some "Certificate generation failed" |})
  | _, _ =>
      ret {| success := false; certificateId := None;
             message := Some "Not applicable" |}
  end.

(** [case 'evaluateAssessment'] *)
Definition evaluateAssessment_action (env : Env) (request : Request)
    (clerk supabaseUserId : string) : M ResultData :=
  let! (result, course) := evaluate_and_save env request clerk supabaseUserId in
  let! certificateResult :=
    certificate_if_passed env request clerk supabaseUserId course result in
  ret (evaluation
         {| assessmentResult := result;
            saved := true;
            certificateGenerated := success certificateResult;
            result_certificateId :=
              truthy_string (certificateId certificateResult) |}).

(** The handler passed to [Deno.serve], for the actions [fetch] and
    [evaluateAssessment] (the [update] action, whose [data] has fields of
    its own, is [LearningUpdate.serve] below). *)
Definition serve (env : Env) (request : Request) (st : Store) : Response * Store :=
  let handler : M ResultData :=
    match truthy_string (request_clerkUserId request) with
    | None => throw "Clerk user ID is required"
    | Some clerk =>
        let supabaseUserId := Identity.generateConsistentUUID (charCodes clerk) in
        match action request with
        | fetch => fetch_action env request clerk supabaseUserId
        | evaluateAssessment =>
            evaluateAssessment_action env request clerk supabaseUserId
        | unknown_action a => throw ("Unknown action: " ++ a)
        end
    end in
  match handler st with
  | (Returned result, st') =>
      ({| http_status := 200; body := SuccessBody result |}, st')
  | (Thrown e, st') =>
      ({| http_status := 400;
          body := ErrorBody
                    (if String.eqb e ""
                     then "An error occurred in the enhanced learning service"
                     else e) |}, st')
  end.

Definition is_success (response : Response) : bool :=
  match body response with
  | SuccessBody _ => true
  | ErrorBody _ => false
  end.

(** Sample data for the learning service: a course of ten questions, the
    profile of the user under the canonical identity, and the default
    certificate. *)
Definition sample_uuid : string :=
  Identity.generateConsistentUUID (charCodes "user_2abc").

Definition sample_course_questions : list QuestionRow :=
  map (fun q => {| question_course_id := "course-1";
                   question_is_active := true;
                   order_index := match Scorer.id q with
                                  | Scorer.JNum z => z
                                  | _ => 0
                                  end;
                   question := q |})
      (Scorer.sample_questions 10).

Definition sample_certificate : CertificateRow :=
  {| certificate_row_id := "c0a80101-0000-4000-8000-000000000001";
     title := "Course Completion Certificate";
     description := "Certificate of successful course completion";
     certificate_type := "completion";
     certificate_is_active := true;
     auto_issue := true;
     min_score := 70 |}.

Definition sample_store : Store :=
  {| admin_credentials := [];
     profiles :=
       [{| profile_id := sample_uuid;
           full_name := Some "Ada Lovelace";
           email := Some "ada@example.com";
           role := Some "student";
           auth_provider := Some "clerk";
           profile_updated_at := None |}];
     payments := [];
     user_subscriptions := ∅;
     user_learning := [];
     course_questions := sample_course_questions;
     certificates := [sample_certificate];
     user_certificates := [];
     course_certificate_management := ∅ |}.

Definition sample_request (a : Action) (correct : nat) : Request :=
  {| action := a;
     request_clerkUserId := Some "user_2abc";
     data := Some {| data_courseId := Some "course-1";
                     data_courseName := Some "Proof Engineering" |};
     totalModules := Some 4;
     questions := true;
     answers := Some (Scorer.sample_answers correct) |}.

Definition sample_params : Params :=
  {| userId := sample_uuid;
     name := "Ada Lovelace";
     courseId := "course-1";
     courseName := "Proof Engineering";
     score := 80;
     clerkUserId := Some "user_2abc" |}.

(** An active certificate of the sample user for the sample course. *)
Definition sample_user_certificate (row_id : string) : UserCertificateRow :=
  {| user_certificate_id := row_id;
     uc_user_id := sample_uuid;
     uc_clerk_user_id := Some "user_2abc";
     uc_certificate_id := certificate_row_id sample_certificate;
     uc_course_id := "course-1";
     verification_code := "CERT-1736000000000-AAAAAA";
     uc_score := 90;
     completion_data :=
       {| cd_course_id := "course-1";
          cd_course_name := "Proof Engineering";
          cd_completion_date := sample_date 5;
          cd_score := 90;
          cd_passing_score := 70;
          cd_user_name := "Ada Lovelace" |};
     uc_is_active := true |}.

End Learning.

(* ===================================================================== *)
(** ** The hash of the resolver, without the 32-bit arithmetic *)
(* ===================================================================== *)

Module Polynomial.

(** The value of the code units as the digits of a number in base 31,
    most significant first: [c_0 * 31^(n-1) + ... + c_(n-1)], computed by
    Horner's rule on unbounded integers. *)
Definition polynomial_hash (input : list Z) : Z :=
  fold_left (fun value char => 31 * value + char) input 0.

End Polynomial.

(* ===================================================================== *)
(** ** Vocabulary for the properties of the stored procedures *)
(* ===================================================================== *)

Module Profiles.
Import Database.

(** What [public.ensure_user_profile] may do to a row that was there: fill
    columns that are [NULL], and move the row found by e-mail to the id
    asked for. A row with another id and another e-mail is left alone. *)
Definition filled_from (p_user_id p_email : string) (r r' : ProfileRow) : Prop :=
  (forall v, full_name r = Some v -> full_name r' = Some v)
  /\ (forall v, email r = Some v -> email r' = Some v)
  /\ (forall v, role r = Some v -> role r' = Some v)
  /\ (forall v, auth_provider r = Some v -> auth_provider r' = Some v)
  /\ (profile_id r' = profile_id r
      \/ (profile_id r' = p_user_id /\ email r = Some p_email))
  /\ (profile_id r <> p_user_id -> email r <> Some p_email -> r' = r).

(** A row whose [updated_at] is set to [now] and whose other columns are
    as they were. *)
Definition stamped (now : Date) (r : ProfileRow) : ProfileRow :=
  {| profile_id := profile_id r;
     full_name := full_name r;
     email := email r;
     role := role r;
     auth_provider := auth_provider r;
     profile_updated_at := Some now |}.

(** A row with a name, an e-mail address, a provider and a role that is a
    label of [user_role]. *)
Definition complete (user_role : string -> bool) (r : ProfileRow) : Prop :=
  is_Some (full_name r) /\ is_Some (email r) /\ is_Some (auth_provider r)
  /\ exists label, role r = Some label /\ user_role label = true.

End Profiles.

(* ===================================================================== *)
(** ** The learning service: the [update] action *)
(* ===================================================================== *)

Module LearningUpdate.
Import JS Database Learning.

(** The fields of [data] the [update] action reads, for a request whose
    [data] carries a course id. A JSON value is held by its text, the
    empty text standing for an absent or falsy one, as in [progress] of a
    learning row; a count is an integer or absent. *)
Record UpdateData := {
  u_courseId : string;
  u_progress : string;
  u_course_progress : string;
  u_completed_modules_count : option Z;
  u_completed_modules : option Z;
  u_total_modules_count : option Z;
  u_total_modules : option Z
}.

(** [data.progress || data.course_progress || {}] *)
Definition progress_of (d : UpdateData) : string :=
  if negb (String.eqb (u_progress d) "") then u_progress d
  else if negb (String.eqb (u_course_progress d) "") then u_course_progress d
  else "{}".

(** [a || b || 0] on counts. *)
Definition count_of (a b : option Z) : Z :=
  match truthy_number a with
  | Some v => v
  | None => default 0 (truthy_number b)
  end.

(** [data.completed_modules_count || data.completed_modules || 0] *)
Definition completed_of (d : UpdateData) : Z :=
  count_of (u_completed_modules_count d) (u_completed_modules d).

(** [data.total_modules_count || data.total_modules || 0] *)
Definition total_of (d : UpdateData) : Z :=
  count_of (u_total_modules_count d) (u_total_modules d).

(** [newRecord] of the branch that finds no record. *)
Definition newRecord (env : Env) (supabaseUserId : string) (d : UpdateData)
  : LearningRow :=
  {| learning_id := generated_id env LearningInsert;
     learning_user_id := supabaseUserId;
     learning_course_id := u_courseId d;
     progress := progress_of d;
     completed_modules_count := completed_of d;
     total_modules_count := total_of d;
     assessment_attempted := false;
     assessment_score := None;
     last_assessment_score := 0;
     is_completed := false;
     assessment_passed := false;
     assessment_completed_at := None;
     learning_updated_at := None |}.

(** A row after [.update(updatePayload)]: the four columns of the payload
    are replaced, the others stay. *)
Definition updated_row (env : Env) (d : UpdateData) (row : LearningRow)
  : LearningRow :=
  {| learning_id := learning_id row;
     learning_user_id := learning_user_id row;
     learning_course_id := learning_course_id row;
     progress := progress_of d;
     completed_modules_count := completed_of d;
     total_modules_count := total_of d;
     assessment_attempted := assessment_attempted row;
     assessment_score := assessment_score row;
     last_assessment_score := last_assessment_score row;
     is_completed := is_completed row;
     assessment_passed := assessment_passed row;
     assessment_completed_at := assessment_completed_at row;
     learning_updated_at := Some (new_Date env 0) |}.

(** [.update(updatePayload).eq('user_id', ...).eq('course_id', ...)
    .select('*').single()]: every row of the identity and course is
    updated, and the statement fails, changing nothing, unless that is
    exactly one row. *)
Definition update_statement (env : Env) (supabaseUserId : string)
    (d : UpdateData) (st : Store) : db_result (LearningRow * Store) :=
  let rows :=
    map (fun row =>
           if String.eqb (learning_user_id row) supabaseUserId
              && String.eqb (learning_course_id row) (u_courseId d)
           then updated_row env d row else row)
        (user_learning st) in
  match single (learning_rows supabaseUserId (u_courseId d) rows) with
  | DbOk row => DbOk (row, set_user_learning rows st)
  | DbErr e => DbErr e
  end.

(** [case 'update'] *)
Definition update_action (env : Env) (d : UpdateData)
    (clerk supabaseUserId : string) : M ResultData :=
  let! _ := ensure_profile env clerk in
  let! checked := db_read env LearningSelect (fun st =>
    maybeSingle (learning_rows supabaseUserId (u_courseId d) (user_learning st))) in
  match data_of checked with
  | None =>
      let! created := insert_learning env (newRecord env supabaseUserId d) in
      match created with
      | DbErr createError => throw (Database.message createError)
      | DbOk createdData => ret (learning_record (Some createdData))
      end
  | Some checkData =>
      let! updated := db_write env LearningUpdate
                        (update_statement env supabaseUserId d) in
      match updated with
      | DbErr updateError => throw (Database.message updateError)
      | DbOk updateData => ret (learning_record (Some updateData))
      end
  end.

(** The end of a request of the learning service: the success envelope
    around the result, or the status 400 envelope the outer [catch] makes
    of what was thrown. *)
Definition respond (result : outcome ResultData * Store) : Response * Store :=
  match result with
  | (Returned result, st') =>
      ({| http_status := 200; body := SuccessBody result |}, st')
  | (Thrown e, st') =>
      ({| http_status := 400;
          body := ErrorBody
                    (if String.eqb e ""
                     then "An error occurred in the enhanced learning service"
                     else e) |}, st')
  end.

(** The handler passed to [Deno.serve], for the action [update]. *)
Definition serve (env : Env) (request_clerkUserId : option string)
    (d : UpdateData) (st : Store) : Response * Store :=
  respond
    (match truthy_string request_clerkUserId with
     | None => throw "Clerk user ID is required"
     | Some clerk =>
         update_action env d clerk
           (Identity.generateConsistentUUID (charCodes clerk))
     end st).

(** At most one learning record for every identity and course. *)
Definition one_record_per_course (rows : list LearningRow) : Prop :=
  forall user course, (length (learning_rows user course rows) <= 1)%nat.

(** [newRecord] of the [fetch] action: no progress, no assessment. *)
Definition fresh_record (env : Env) (supabaseUserId course : string) (total : Z)
  : LearningRow :=
  {| learning_id := generated_id env LearningInsert;
     learning_user_id := supabaseUserId;
     learning_course_id := course;
     progress := "{}";
     completed_modules_count := 0;
     total_modules_count := total;
     assessment_attempted := false;
     assessment_score := None;
     last_assessment_score := 0;
     is_completed := false;
     assessment_passed := false;
     assessment_completed_at := None;
     learning_updated_at := None |}.

(** A learning row that carries the outcome of an assessment. *)
Definition records_assessment (result : Scorer.AssessmentResult)
    (row : LearningRow) : Prop :=
  assessment_attempted row = true
  /\ assessment_score row = Some (Scorer.score result)
  /\ last_assessment_score row = Scorer.score result
  /\ is_completed row = Scorer.passed result
  /\ assessment_passed row = Scorer.passed result.

(** Two learning rows with the same assessment columns. *)
Definition same_assessment (row row' : LearningRow) : Prop :=
  assessment_attempted row' = assessment_attempted row
  /\ assessment_score row' = assessment_score row
  /\ last_assessment_score row' = last_assessment_score row
  /\ is_completed row' = is_completed row
  /\ assessment_passed row' = assessment_passed row
  /\ assessment_completed_at row' = assessment_completed_at row.

(** Sample data: the first two of four modules of the sample course are
    completed. *)
Definition sample_update : UpdateData :=
  {| u_courseId := "course-1";
     u_progress := "[1,2]";
     u_course_progress := "";
     u_completed_modules_count := Some 2;
     u_completed_modules := None;
     u_total_modules_count := None;
     u_total_modules := Some 4 |}.

End LearningUpdate.

(* ===================================================================== *)
(** ** Vocabulary for what a step leaves alone *)
(* ===================================================================== *)

Module Frames.
Import Database.

(** Two stores with the same rows outside [user_learning]. *)
Definition same_but_user_learning (st st' : Store) : Prop :=
  admin_credentials st' = admin_credentials st
  /\ profiles st' = profiles st
  /\ payments st' = payments st
  /\ user_subscriptions st' = user_subscriptions st
  /\ course_questions st' = course_questions st
  /\ certificates st' = certificates st
  /\ user_certificates st' = user_certificates st
  /\ course_certificate_management st' = course_certificate_management st.

(** Two stores with the same rows outside the three tables of the
    certificates: [certificates], [user_certificates] and
    [course_certificate_management]. *)
Definition same_but_certificate_tables (st st' : Store) : Prop :=
  admin_credentials st' = admin_credentials st
  /\ profiles st' = profiles st
  /\ payments st' = payments st
  /\ user_subscriptions st' = user_subscriptions st
  /\ user_learning st' = user_learning st
  /\ course_questions st' = course_questions st.

(** A tracking row that records a completed and passed course. The
    unified view of the certificates shows a tracking row exactly when
    [course_complete] and [assessment_pass] are set. *)
Definition completion_recorded (row : CertificateManagementRow) : Prop :=
  cm_course_complete row = true
  /\ cm_assessment_pass row = true
  /\ 70 <= cm_assessment_score row
  /\ is_Some (cm_completion_date row).

Definition only_completions
    (table : gmap (string * string) CertificateManagementRow) : Prop :=
  forall key row, table !! key = Some row -> completion_recorded row.

End Frames.

(* ===================================================================== *)
(** ** Calendar dates, and the row-level policy of the interview
       resources *)
(* ===================================================================== *)

Module Access.
Import Database.

(** A date of the calendar: a month from 0 to 11 and a day the month
    has. *)
Definition valid_date (d : Date) : Prop :=
  0 <= month d <= 11 /\ 1 <= day d <= days_in_month (year d) (month d).

(** The months since year 0. *)
Definition month_index (d : Date) : Z := 12 * year d + month d.


(** [a < b] on instants given by their calendar fields. *)
Definition before (a b : Date) : bool :=
  (year a <? year b)
  || (year a =? year b)
     && ((month a <? month b)
         || (month a =? month b)
            && ((day a <? day b)
                || (day a =? day b) && (time_of_day a <? time_of_day b))).

(** [public.is_current_user_admin()]: whether a profile with the id
    [auth.uid()] has the role [admin]. Without a session [auth.uid()] is
    [NULL] and no row compares equal to it. *)
Definition is_current_user_admin (st : Store) (uid : option string) : bool :=
  match uid with
  | Some u =>
      existsb (fun p => String.eqb (profile_id p) u
                        && string_opt_eqb (role p) "admin")
              (profiles st)
  | None => false
  end.

(** The [USING] expression of the policy ["Pro users can view interview
    resources"], for a row of [interview_resources] with the given
    [is_active], at the time [NOW()]. [user_subscriptions] has one row per
    [user_id]. *)
Definition pro_users_can_view_interview_resources
    (st : Store) (uid : option string) (now : Date) (is_active : bool) : bool :=
  Bool.eqb is_active true
  && (is_current_user_admin st uid
      || match uid with
         | Some u =>
             match user_subscriptions st !! u with
             | Some s =>
                 string_opt_eqb (plan_type s) "pro"
                 && String.eqb (status s) "active"
                 && before now (current_period_end s)
             | None => false
             end
         | None => false
         end).

End Access.

(* ===================================================================== *)
(** * Properties *)
(* ===================================================================== *)

(** ** Identity resolver *)

Module IdentityFacts.
Import JS Identity.

Lemma ToInt32_range z : - 2 ^ 31 <= ToInt32 z < 2 ^ 31.
Proof.
  unfold ToInt32.
  pose proof (Z.mod_pos_bound z (2 ^ 32) ltac:(lia)) as Hm.
  destruct (2 ^ 31 <=? z `mod` 2 ^ 32) eqn:E; lia.
Qed.

Lemma band_diag z : band z z = ToInt32 z.
Proof. unfold band. apply Z.land_diag. Qed.

Lemma hash_step_range h c : - 2 ^ 31 <= hash_step h c < 2 ^ 31.
Proof. unfold hash_step. rewrite band_diag. apply ToInt32_range. Qed.

Lemma hash_of_range input : - 2 ^ 31 <= hash_of input < 2 ^ 31.
Proof.
  unfold hash_of.
  assert (G : forall l h, - 2 ^ 31 <= h < 2 ^ 31 ->
                          - 2 ^ 31 <= fold_left hash_step l h < 2 ^ 31).
  { induction l as [|c l IH]; intros h Hh; simpl; [exact Hh|].
    apply IH, hash_step_range. }
  apply G. lia.
Qed.

Lemma digits16_length fuel : forall n (k : nat),
  (1 <= k)%nat -> 0 <= n < 16 ^ Z.of_nat k ->
  (length (digits16 fuel n) <= k)%nat.
Proof.
  induction fuel as [|fuel IH]; intros n k Hk Hn; simpl; [lia|].
  destruct (n <? 16) eqn:E; simpl; [lia|].
  apply Z.ltb_ge in E.
  destruct k as [|[|k]]; [lia| simpl in Hn; lia |].
  apply le_n_S, IH; [lia|].
  split; [apply Z.div_pos; lia|].
  apply Z.div_lt_upper_bound; [lia|].
  replace (Z.of_nat (S (S k))) with (Z.succ (Z.of_nat (S k))) in Hn by lia.
  rewrite Z.pow_succ_r in Hn by lia. lia.
Qed.

Lemma digits16_range fuel : forall n,
  0 <= n -> Forall (fun d => 0 <= d < 16) (digits16 fuel n).
Proof.
  induction fuel as [|fuel IH]; intros n Hn; simpl; [constructor|].
  destruct (n <? 16) eqn:E.
  - apply Z.ltb_lt in E. repeat constructor; lia.
  - constructor.
    + apply Z.mod_pos_bound; lia.
    + apply IH, Z.div_pos; lia.
Qed.

(** With the fuel [toString16] gives it, the digits denote the number. *)
Lemma digits16_value fuel : forall n,
  0 <= n < 16 ^ Z.of_nat fuel -> value16 (digits16 fuel n) = n.
Proof.
  induction fuel as [|fuel IH]; intros n Hn.
  - simpl in *. lia.
  - simpl. destruct (n <? 16) eqn:E; simpl; [lia|].
    apply Z.ltb_ge in E.
    rewrite IH.
    + pose proof (Z.div_mod n 16 ltac:(lia)). lia.
    + split; [apply Z.div_pos; lia|].
      apply Z.div_lt_upper_bound; [lia|].
      replace (Z.of_nat (S fuel)) with (Z.succ (Z.of_nat fuel)) in Hn by lia.
      rewrite Z.pow_succ_r in Hn by lia. lia.
Qed.

Lemma toString16_fuel n :
  0 <= n -> n < 16 ^ Z.of_nat (S (Z.to_nat (Z.log2 n))).
Proof.
  intros Hn.
  destruct (Z.eq_dec n 0) as [->|Hne]; [reflexivity|].
  pose proof (Z.log2_spec n ltac:(lia)) as [_ Hlt].
  pose proof (Z.log2_nonneg n) as Hl.
  replace (Z.of_nat (S (Z.to_nat (Z.log2 n)))) with (Z.succ (Z.log2 n)) by lia.
  eapply Z.lt_le_trans; [exact Hlt|].
  apply Z.pow_le_mono_l. lia.
Qed.

Lemma toString16_digits n :
  0 <= n -> value16 (digits16 (S (Z.to_nat (Z.log2 n))) n) = n.
Proof.
  intros Hn. apply digits16_value. split; [exact Hn|].
  now apply toString16_fuel.
Qed.

Lemma hex_digit_is_hex d : 0 <= d < 16 -> is_hex (hex_digit d) = true.
Proof.
  intros Hd.
  assert (H : (Z.to_nat d < 16)%nat) by lia.
  unfold hex_digit. remember (Z.to_nat d) as k eqn:Ek. clear Ek.
  do 16 (destruct k as [|k]; [reflexivity|]). lia.
Qed.

Lemma length_string_of_chars l : String.length (string_of_chars l) = length l.
Proof. induction l; simpl; congruence. Qed.

Lemma all_hex_string_of_chars l :
  Forall (fun c => is_hex c = true) l -> all_hex (string_of_chars l) = true.
Proof.
  induction 1 as [|c l Hc _ IH]; simpl; [reflexivity|].
  now rewrite Hc, IH.
Qed.

Lemma toString16_length_le n (k : nat) :
  (1 <= k)%nat -> 0 <= n < 16 ^ Z.of_nat k ->
  (String.length (toString16 n) <= k)%nat.
Proof.
  intros Hk Hn. unfold toString16.
  rewrite length_string_of_chars, length_map, length_rev.
  now apply digits16_length.
Qed.

Lemma toString16_length n :
  0 <= n < 2 ^ 32 -> (String.length (toString16 n) <= 8)%nat.
Proof. intros Hn. apply toString16_length_le; [lia|]. simpl. lia. Qed.

Lemma toString16_all_hex n : 0 <= n -> all_hex (toString16 n) = true.
Proof.
  intros Hn. unfold toString16.
  apply all_hex_string_of_chars.
  apply Forall_map, Forall_rev.
  eapply Forall_impl; [apply digits16_range, Hn|].
  intros d Hd. now apply hex_digit_is_hex.
Qed.

Lemma length_repeat_char c n : String.length (repeat_char c n) = n.
Proof. induction n; simpl; congruence. Qed.

Lemma length_append (s t : string) :
  String.length (s ++ t) = (String.length s + String.length t)%nat.
Proof. induction s as [|c s IH]; simpl; [reflexivity|]. now rewrite IH. Qed.

Lemma all_hex_append (s t : string) :
  all_hex (s ++ t) = all_hex s && all_hex t.
Proof. induction s; simpl; [reflexivity|]. now rewrite IHs, andb_assoc. Qed.

Lemma all_hex_repeat_zero n : all_hex (repeat_char "0" n) = true.
Proof. induction n; simpl; auto. Qed.

(** [hex] always has exactly eight lower-case hexadecimal digits. *)
Lemma hex_of_hash_shape hash :
  - 2 ^ 31 <= hash < 2 ^ 31 ->
  String.length (hex_of_hash hash) = 8%nat /\ all_hex (hex_of_hash hash) = true.
Proof.
  intros Hh. unfold hex_of_hash, padStart.
  pose proof (toString16_length (Z.abs hash) ltac:(lia)) as Hl.
  split.
  - rewrite length_append, length_repeat_char. lia.
  - rewrite all_hex_append, all_hex_repeat_zero, toString16_all_hex by lia.
    reflexivity.
Qed.

Lemma eight_chars (s : string) :
  String.length s = 8%nat ->
  exists c0 c1 c2 c3 c4 c5 c6 c7,
    s = String c0 (String c1 (String c2 (String c3
         (String c4 (String c5 (String c6 (String c7 EmptyString))))))).
Proof.
  intros H.
  do 8 (destruct s as [|? s]; [discriminate H|]).
  destruct s; [|discriminate H].
  repeat eexists.
Qed.

Lemma assemble_uuid_shaped hex :
  String.length hex = 8%nat -> all_hex hex = true ->
  uuid_shaped (assemble hex) = true.
Proof.
  intros Hl Hx.
  destruct (eight_chars hex Hl) as (c0&c1&c2&c3&c4&c5&c6&c7&->).
  simpl in Hx.
  repeat (apply andb_prop in Hx; destruct Hx as [? Hx]).
  unfold uuid_shaped, assemble, slice, padEnd. simpl.
  repeat match goal with H : is_hex _ = true |- _ => rewrite H; clear H end.
  reflexivity.
Qed.

Example generateConsistentUUID_sample :
  generateConsistentUUID (charCodes "user_2abc")
  = "1e84fece-1e84-4e84-a1e8-1e84fece0000".
Proof. vm_compute. reflexivity. Qed.

(** C2. For every string, two evaluations of the resolver agree, and the
    result has the shape [xxxxxxxx-xxxx-4xxx-axxx-xxxxxxxxxxxx]: five groups
    of 8, 4, 4, 4 and 12 hexadecimal digits, the third starting with [4]
    and the fourth with [a]. *)
Theorem generateConsistentUUID_deterministic_and_shaped (userId : code_units) :
  generateConsistentUUID userId = generateConsistentUUID userId
  /\ uuid_shaped (generateConsistentUUID userId) = true.
Proof.
  split; [reflexivity|].
  unfold generateConsistentUUID.
  destruct (hex_of_hash_shape _ (hash_of_range (userId ++ charCodes NAMESPACE_UUID)))
    as [Hl Hx].
  now apply assemble_uuid_shaped.
Qed.

Example uuid_cast_samples :
  PG.uuid_cast "A0EEBC99-9C0B-4EF8-BB6D-6BB9BD380A11"
  = Some "a0eebc99-9c0b-4ef8-bb6d-6bb9bd380a11"
  /\ PG.uuid_cast "a0eebc999c0b4ef8bb6d6bb9bd380a11"
     = Some "a0eebc99-9c0b-4ef8-bb6d-6bb9bd380a11"
  /\ PG.uuid_cast "a0ee-bc99-9c0b-4ef8-bb6d-6bb9-bd38-0a11"
     = Some "a0eebc99-9c0b-4ef8-bb6d-6bb9bd380a11"
  /\ PG.uuid_cast "a0e-ebc99-9c0b-4ef8-bb6d-6bb9-bd38-0a11" = None
  /\ PG.uuid_cast "a0eebc99-9c0b-4ef8-bb6d-6bb9bd380a11-" = None
  /\ PG.uuid_cast "a0eebc99-9c0b-4ef8-bb6d-6bb9bd380a1" = None.
Proof. repeat split; reflexivity. Qed.

Example sql_formatting_of_the_same_digits :
  PG.uuid_cast (IdentitySQL.uuid_str_of "1e84fece")
  = Some "1e84fece-1e84-4e84-a1e8-00001e84fece"
  /\ assemble "1e84fece" = "1e84fece-1e84-4e84-a1e8-1e84fece0000".
Proof. split; reflexivity. Qed.

Import PG.

Lemma is_hex_isxdigit c : is_hex c = true -> isxdigit c = true.
Proof. unfold is_hex, isxdigit. intros ->. reflexivity. Qed.

Lemma is_hex_cases c :
  is_hex c = true ->
  (48 <= N_of_ascii c <= 57)%N \/ (97 <= N_of_ascii c <= 102)%N.
Proof.
  unfold is_hex. intros H.
  apply orb_true_iff in H as [H|H]; apply andb_true_iff in H as [H1 H2];
    apply N.leb_le in H1, H2; lia.
Qed.

Lemma is_hex_tolower c : is_hex c = true -> tolower c = c.
Proof.
  intros H. apply is_hex_cases in H. unfold tolower.
  destruct ((65 <=? N_of_ascii c)%N && (N_of_ascii c <=? 90)%N) eqn:E;
    [|reflexivity].
  apply andb_true_iff in E as [E1 E2]. apply N.leb_le in E1, E2. lia.
Qed.

Lemma is_hex_skip_hyphen i c rest :
  is_hex c = true -> skip_hyphen i (String c rest) = String c rest.
Proof.
  intros H. unfold skip_hyphen.
  destruct (Ascii.eqb_spec c "-") as [->|_]; [discriminate H|reflexivity].
Qed.

Lemma uuid_bytes_pair fuel i c1 c2 rest :
  is_hex c1 = true -> is_hex c2 = true ->
  uuid_bytes (S fuel) i (String c1 (String c2 rest))
  = match uuid_bytes fuel (S i) (skip_hyphen i rest) with
    | Some ds => Some (c1 :: c2 :: ds)
    | None => None
    end.
Proof.
  intros H1 H2. cbn [uuid_bytes].
  now rewrite (is_hex_isxdigit _ H1), (is_hex_isxdigit _ H2),
              (is_hex_tolower _ H1), (is_hex_tolower _ H2).
Qed.

(** The text the stored procedure returns for the digits [c0 .. c7]. *)
Lemma uuid_cast_uuid_str c0 c1 c2 c3 c4 c5 c6 c7 :
  all_hex (hex8 c0 c1 c2 c3 c4 c5 c6 c7) = true ->
  uuid_cast (IdentitySQL.uuid_str_of (hex8 c0 c1 c2 c3 c4 c5 c6 c7))
  = Some (hex8 c0 c1 c2 c3 c4 c5 c6 c7 ++ "-"
          ++ String c0 (String c1 (String c2 (String c3 "-4")))
          ++ String c1 (String c2 (String c3 "-a"))
          ++ String c0 (String c1 (String c2 "-0000"))
          ++ hex8 c0 c1 c2 c3 c4 c5 c6 c7).
Proof.
  intros Hx. cbn [all_hex hex8] in Hx.
  repeat (apply andb_prop in Hx; destruct Hx as [? Hx]).
  assert (Hfour : is_hex "4" = true) by reflexivity.
  assert (Hlow : is_hex "a" = true) by reflexivity.
  assert (Hzero : is_hex "0" = true) by reflexivity.
  unfold uuid_cast.
  replace (IdentitySQL.uuid_str_of (hex8 c0 c1 c2 c3 c4 c5 c6 c7))
    with (hex8 c0 c1 c2 c3 c4 c5 c6 c7 ++ "-"
          ++ String c0 (String c1 (String c2 (String c3 "-4")))
          ++ String c1 (String c2 (String c3 "-a"))
          ++ String c0 (String c1 (String c2 "0000"))
          ++ hex8 c0 c1 c2 c3 c4 c5 c6 c7) by reflexivity.
  unfold hex8. cbv beta iota fix delta [String.append].
  repeat (rewrite uuid_bytes_pair by assumption;
          first [ rewrite is_hex_skip_hyphen by assumption
                | cbn [skip_hyphen Ascii.eqb Bool.eqb andb negb
                       Nat.odd Nat.even Nat.ltb Nat.leb] ]).
  reflexivity.
Qed.

Lemma substring_all (s : string) : String.substring 0 (String.length s) s = s.
Proof. induction s as [|c s IH]; simpl; [reflexivity|]. now rewrite IH. Qed.

Lemma lpad_padStart (s : string) :
  (String.length s <= 8)%nat -> lpad s 8 "0" = padStart 8 "0" s.
Proof.
  intros Hl. unfold lpad, padStart.
  destruct (8 <=? String.length s)%nat eqn:E; [|reflexivity].
  apply Nat.leb_le in E.
  assert (String.length s = 8%nat) as Heq by lia.
  rewrite <- Heq at 1. rewrite substring_all, Heq. reflexivity.
Qed.

(** The hash of the stored procedure, when no operator raised, is a
    31-bit number. *)
Lemma sql_hash_step_range h c h' :
  IdentitySQL.hash_step (Some h) c = Some h' -> 0 <= h' < 2 ^ 31.
Proof.
  unfold IdentitySQL.hash_step.
  destruct (int4mi _ _) as [d|]; [|discriminate].
  destruct (int4pl _ _) as [e|]; [|discriminate].
  intros [= <-]. unfold int4and.
  change 2147483647 with (Z.ones 31). rewrite Z.land_ones by lia.
  apply Z.mod_pos_bound. lia.
Qed.

Lemma sql_hash_raised l : fold_left IdentitySQL.hash_step l None = None.
Proof. induction l as [|c l IH]; [reflexivity|exact IH]. Qed.

Lemma sql_hash_of_range l : forall h0 h,
  0 <= h0 < 2 ^ 31 ->
  fold_left IdentitySQL.hash_step l (Some h0) = Some h -> 0 <= h < 2 ^ 31.
Proof.
  induction l as [|c l IH]; intros h0 h Hh0; cbn [fold_left].
  - intros [= <-]. exact Hh0.
  - destruct (IdentitySQL.hash_step (Some h0) c) as [h1|] eqn:E.
    + apply IH. eapply sql_hash_step_range, E.
    + rewrite sql_hash_raised. discriminate.
Qed.

Lemma all_zero_append (s t : string) :
  all_zero (s ++ t) = all_zero s && all_zero t.
Proof.
  induction s as [|c s IH]; [reflexivity|].
  cbn [all_zero]. change (String c s ++ t) with (String c (s ++ t)).
  cbn [all_zero]. now rewrite IH, andb_assoc.
Qed.

Lemma hex_digit_zero d : 0 <= d < 16 -> hex_digit d = "0"%char -> d = 0.
Proof.
  intros Hd. unfold hex_digit.
  assert (H : (Z.to_nat d < 16)%nat) by lia.
  replace d with (Z.of_nat (Z.to_nat d)) at 2 by lia.
  remember (Z.to_nat d) as k eqn:Ek. clear Ek Hd.
  destruct k as [|k]; [reflexivity|].
  do 15 (destruct k as [|k]; [discriminate|]). lia.
Qed.

Lemma all_zero_digits (ds : list Z) :
  Forall (fun d => 0 <= d < 16) ds ->
  all_zero (string_of_chars (map hex_digit ds)) = true ->
  Forall (fun d => d = 0) ds.
Proof.
  induction 1 as [|d ds Hd _ IH]; [constructor|].
  cbn [map string_of_chars all_zero]. intros H.
  apply andb_prop in H as [H1 H2].
  constructor; [|auto].
  apply hex_digit_zero; [exact Hd|].
  now destruct (Ascii.eqb_spec (hex_digit d) "0").
Qed.

Lemma value16_zero ds : Forall (fun d => d = 0) ds -> value16 ds = 0.
Proof. induction 1 as [|d ds -> _ IH]; simpl; lia. Qed.

(** Eight zeros are the digits of zero only. *)
Lemma hex_of_hash_zero hash :
  hex_of_hash hash = "00000000" -> hash = 0.
Proof.
  unfold hex_of_hash, padStart. intros H.
  assert (Hz : all_zero (toString16 (Z.abs hash)) = true).
  { assert (G : all_zero (repeat_char "0" (8 - String.length (toString16 (Z.abs hash)))
                          ++ toString16 (Z.abs hash)) = true)
      by (rewrite H; reflexivity).
    rewrite all_zero_append in G. now apply andb_prop in G as [_ G]. }
  unfold toString16 in Hz.
  apply all_zero_digits in Hz.
  - apply Forall_rev in Hz. rewrite rev_involutive in Hz.
    apply value16_zero in Hz.
    rewrite toString16_digits in Hz by lia. lia.
  - apply Forall_rev, digits16_range. lia.
Qed.

Lemma assemble_hex8 c0 c1 c2 c3 c4 c5 c6 c7 :
  assemble (hex8 c0 c1 c2 c3 c4 c5 c6 c7)
  = hex8 c0 c1 c2 c3 c4 c5 c6 c7 ++ "-"
    ++ String c0 (String c1 (String c2 (String c3 "-4")))
    ++ String c1 (String c2 (String c3 "-a"))
    ++ String c0 (String c1 (String c2 "-"))
    ++ hex8 c0 c1 c2 c3 c4 c5 c6 c7 ++ "0000".
Proof. reflexivity. Qed.

Lemma sql_hex_str h :
  0 <= h < 2 ^ 31 -> lpad (to_hex (Z.abs h)) 8 "0" = hex_of_hash h.
Proof.
  intros Hh. unfold to_hex, hex_of_hash.
  apply lpad_padStart, toString16_length. lia.
Qed.

(** Where the stored procedure does not fall back to a random value, it
    agrees with the TypeScript resolver only if both hashes are zero. *)
Theorem resolvers_agree_only_on_zero_hash
    (user_id : code_units) (random_uuid : string) (h : Z) :
  IdentitySQL.hash_of (user_id ++ charCodes IdentitySQL.namespace_uuid)%list
  = Some h ->
  IdentitySQL.generateConsistentUUID random_uuid user_id
  = generateConsistentUUID user_id ->
  h = 0 /\ hash_of (user_id ++ charCodes NAMESPACE_UUID)%list = 0.
Proof.
  intros Hh Heq.
  assert (Hr : 0 <= h < 2 ^ 31)
    by (apply (sql_hash_of_range _ 0 h ltac:(lia) Hh)).
  unfold IdentitySQL.generateConsistentUUID, generateConsistentUUID in Heq.
  rewrite Hh, (sql_hex_str h Hr) in Heq.
  destruct (hex_of_hash_shape h ltac:(lia)) as [Hl Hx].
  destruct (hex_of_hash_shape _
              (hash_of_range (user_id ++ charCodes NAMESPACE_UUID)))
    as [Hl' Hx'].
  destruct (eight_chars _ Hl) as (c0&c1&c2&c3&c4&c5&c6&c7&Hs).
  destruct (eight_chars _ Hl') as (d0&d1&d2&d3&d4&d5&d6&d7&Ht).
  fold (hex8 c0 c1 c2 c3 c4 c5 c6 c7) in Hs.
  fold (hex8 d0 d1 d2 d3 d4 d5 d6 d7) in Ht.
  rewrite Hs in Heq, Hx. rewrite Ht in Heq, Hx'.
  rewrite (uuid_cast_uuid_str _ _ _ _ _ _ _ _ Hx), assemble_hex8 in Heq.
  unfold hex8 in Heq. cbv beta iota fix delta [String.append] in Heq.
  injection Heq as -> -> -> -> -> -> -> ->.
  intros. subst.
  split; apply hex_of_hash_zero; [rewrite Hs|rewrite Ht]; reflexivity.
Qed.

(** Every external id that starts with [user_2] makes the checked
    subtraction raise at its seventh character (or at the first of the
    namespace): the stored procedure answers with the random value. *)
Lemma sql_resolver_random_after_user_2 (rest : text) (random_uuid : string) :
  IdentitySQL.generateConsistentUUID random_uuid (charCodes "user_2" ++ rest)%list
  = random_uuid.
Proof.
  unfold IdentitySQL.generateConsistentUUID, IdentitySQL.hash_of.
  rewrite <- !app_assoc, fold_left_app.
  change (fold_left IdentitySQL.hash_step (charCodes "user_2") (Some 0))
    with (Some 1311453374).
  assert (Hstep : forall c, IdentitySQL.hash_step (Some 1311453374) c = None)
    by (intros c; reflexivity).
  destruct rest as [|c rest].
  - change ([] ++ charCodes IdentitySQL.namespace_uuid)%list
      with (49 :: charCodes "b671a64-40d5-491e-99b0-da01ff1f3341")%list.
    cbn [fold_left]. rewrite Hstep, sql_hash_raised. reflexivity.
  - cbn [app fold_left]. rewrite Hstep, sql_hash_raised. reflexivity.
Qed.

(** Without the fallback the two resolvers still differ: the hashes of
    [tbm] agree, the last group does not. *)
Example resolvers_disagree_on_tbm :
  IdentitySQL.hash_of (charCodes "tbm" ++ charCodes IdentitySQL.namespace_uuid)%list
  = Some 1682180237
  /\ hash_of (charCodes "tbm" ++ charCodes NAMESPACE_UUID)%list = 1682180237
  /\ (forall random_uuid,
        IdentitySQL.generateConsistentUUID random_uuid (charCodes "tbm")
        = "6444088d-6444-4444-a644-00006444088d")
  /\ generateConsistentUUID (charCodes "tbm")
     = "6444088d-6444-4444-a644-6444088d0000".
Proof. repeat split; vm_compute; reflexivity. Qed.

(** C1 does not hold on the code. For the external id [user_2abc] the
    TypeScript resolver returns [1e84fece-1e84-4e84-a1e8-1e84fece0000].
    In the stored procedure the hash is masked to 31 bits where the
    TypeScript code wraps to 32 (after [user_2] the two hashes already
    differ), and the checked [INTEGER] subtraction overflows while the
    seventh character is hashed, so the [EXCEPTION] handler runs and the
    procedure returns whatever [gen_random_uuid()] produces, which is not
    a function of the id. *)
Theorem resolvers_disagree_on_user_2abc :
  generateConsistentUUID (charCodes "user_2abc")
  = "1e84fece-1e84-4e84-a1e8-1e84fece0000"
  /\ hash_of (charCodes "user_2") = - 836030274
  /\ IdentitySQL.hash_of (charCodes "user_2") = Some 1311453374
  /\ PG.int4shl 1311453374 5 - 1311453374 = - 2294618366
  /\ IdentitySQL.hash_of (charCodes "user_2a") = None
  /\ (forall random_uuid,
        IdentitySQL.generateConsistentUUID random_uuid (charCodes "user_2abc")
        = random_uuid)
  /\ IdentitySQL.generateConsistentUUID "0b9d6c1e-3f4a-4d2b-8c7e-5a1f2e3d4c5b"
       (charCodes "user_2abc")
     <> generateConsistentUUID (charCodes "user_2abc").
Proof.
  split; [vm_compute; reflexivity|].
  split; [vm_compute; reflexivity|].
  split; [vm_compute; reflexivity|].
  split; [vm_compute; reflexivity|].
  split; [vm_compute; reflexivity|].
  split; [intros random_uuid; vm_compute; reflexivity|].
  vm_compute. discriminate.
Qed.

End IdentityFacts.

(** ** Number arithmetic *)

Module NumberFacts.
Import Number.

Lemma rne_error a b : 0 < b -> - b <= 2 * (rne a b * b - a) <= b.
Proof.
  intros Hb. unfold rne.
  pose proof (Z.div_mod a b ltac:(lia)) as Hdm.
  pose proof (Z.mod_pos_bound a b Hb) as Hr.
  destruct (2 * (a mod b) <? b) eqn:E1; [apply Z.ltb_lt in E1; nia|].
  apply Z.ltb_ge in E1.
  destruct (b <? 2 * (a mod b)) eqn:E2; [apply Z.ltb_lt in E2; nia|].
  apply Z.ltb_ge in E2.
  destruct (Z.even (a / b)); nia.
Qed.

Lemma rne_le a b k : 0 < b -> a <= k * b -> rne a b <= k.
Proof. intros Hb Ha. pose proof (rne_error a b Hb). nia. Qed.

Lemma rne_ge a b k : 0 < b -> k * b <= a -> k <= rne a b.
Proof. intros Hb Ha. pose proof (rne_error a b Hb). nia. Qed.

Lemma floor_log2_ratio_spec a b :
  0 < a -> 0 < b ->
  (floor_log2_ratio a b = Z.log2 a - Z.log2 b
   /\ b * 2 ^ Z.log2 a <= a * 2 ^ Z.log2 b < 2 * (b * 2 ^ Z.log2 a))
  \/ (floor_log2_ratio a b = Z.log2 a - Z.log2 b - 1
      /\ b * 2 ^ Z.log2 a <= 2 * (a * 2 ^ Z.log2 b) < 2 * (b * 2 ^ Z.log2 a)).
Proof.
  intros Ha Hb. unfold floor_log2_ratio.
  pose proof (Z.log2_spec a Ha) as [Ha1 Ha2].
  pose proof (Z.log2_spec b Hb) as [Hb1 Hb2].
  rewrite Z.pow_succ_r in Ha2, Hb2 by apply Z.log2_nonneg.
  assert (0 < 2 ^ Z.log2 a) by (apply Z.pow_pos_nonneg; [lia|apply Z.log2_nonneg]).
  assert (0 < 2 ^ Z.log2 b) by (apply Z.pow_pos_nonneg; [lia|apply Z.log2_nonneg]).
  destruct (a * 2 ^ Z.log2 b <? b * 2 ^ Z.log2 a) eqn:E.
  - apply Z.ltb_lt in E. right. split; [reflexivity|]. nia.
  - apply Z.ltb_ge in E. left. split; [reflexivity|]. nia.
Qed.

(** In the range of the normal numbers, below 2^53: the significand is
    the quotient scaled into [2^52, 2^53) and rounded. *)
Lemma round64_normal a b :
  0 < a -> 0 < b ->
  - 1022 <= floor_log2_ratio a b <= 52 ->
  round64 a b
  = Float (rne (a * 2 ^ (52 - floor_log2_ratio a b)) b)
          (floor_log2_ratio a b - 52)
  /\ 2 ^ 52 * b <= a * 2 ^ (52 - floor_log2_ratio a b) < 2 ^ 53 * b.
Proof.
  intros Ha Hb HL.
  split.
  - unfold round64.
    destruct (a =? 0) eqn:E; [apply Z.eqb_eq in E; lia|].
    rewrite (Z.max_l _ (-1074)) by lia.
    replace (Z.max 0 (- (floor_log2_ratio a b - 52)))
      with (52 - floor_log2_ratio a b) by lia.
    rewrite (Z.max_l 0) by lia.
    now rewrite Z.pow_0_r, Z.mul_1_r.
  - pose proof (Z.log2_nonneg a) as Hla.
    pose proof (Z.log2_nonneg b) as Hlb.
    assert (Pa : 0 < 2 ^ Z.log2 a) by (apply Z.pow_pos_nonneg; lia).
    set (P := 2 ^ (52 - floor_log2_ratio a b)).
    destruct (floor_log2_ratio_spec a b Ha Hb) as [[HLe Hs]|[HLe Hs]].
    + assert (HP : P * 2 ^ Z.log2 a = 2 ^ 52 * 2 ^ Z.log2 b).
      { unfold P. rewrite <- !Z.pow_add_r by lia. f_equal. lia. }
      nia.
    + assert (HP : P * 2 ^ Z.log2 a = 2 ^ 53 * 2 ^ Z.log2 b).
      { unfold P. rewrite <- !Z.pow_add_r by lia. f_equal. lia. }
      nia.
Qed.

Lemma floor_log2_ratio_range a b la lb :
  0 < a -> 0 < b -> Z.log2 a <= la -> Z.log2 b <= lb ->
  - lb - 1 <= floor_log2_ratio a b <= la.
Proof.
  intros Ha Hb Hla Hlb.
  pose proof (Z.log2_nonneg a). pose proof (Z.log2_nonneg b).
  destruct (floor_log2_ratio_spec a b Ha Hb) as [[-> _]|[-> _]]; lia.
Qed.

Lemma Math_round_spec m e :
  e < 0 ->
  2 * 2 ^ (- e) * Math_round (Float m e) <= 2 * m + 2 ^ (- e)
    < 2 * 2 ^ (- e) * Math_round (Float m e) + 2 * 2 ^ (- e).
Proof.
  intros He. unfold Math_round. simpl.
  rewrite (Z.max_l 0 e) by lia. rewrite (Z.max_r 0 (- e)) by lia.
  rewrite Z.pow_0_r, Z.mul_1_r.
  assert (0 < 2 ^ (- e)) by (apply Z.pow_pos_nonneg; lia).
  pose proof (Z.div_mod (2 * m + 2 ^ (- e)) (2 * 2 ^ (- e)) ltac:(lia)).
  pose proof (Z.mod_pos_bound (2 * m + 2 ^ (- e)) (2 * 2 ^ (- e)) ltac:(lia)).
  lia.
Qed.

Lemma log2_in_range x k : 0 <= k -> 2 ^ k <= x < 2 ^ (k + 2) ->
  k <= Z.log2 x <= k + 1.
Proof.
  intros Hk [H1 H2]. split.
  - apply Z.log2_le_pow2; lia.
  - assert (Z.log2 x < k + 2) by (apply Z.log2_lt_pow2; lia). lia.
Qed.

(** Below 2^52 the exponent is negative. *)
Lemma round64_small a b :
  0 < a -> 0 < b -> floor_log2_ratio a b <= 51 ->
  exists e, e < 0 /\ round64 a b = Float (rne (a * 2 ^ (- e)) b) e.
Proof.
  intros Ha Hb HL.
  exists (Z.max (floor_log2_ratio a b - 52) (-1074)).
  split; [lia|].
  unfold round64.
  destruct (a =? 0) eqn:E; [apply Z.eqb_eq in E; lia|].
  rewrite (Z.max_r 0 (- _)) by lia.
  rewrite (Z.max_l 0 (Z.max _ _)) by lia.
  now rewrite Z.pow_0_r, Z.mul_1_r.
Qed.

Lemma floor_log2_ratio_le a b k :
  0 < a -> 0 < b -> 0 <= k -> a < 2 ^ (k + 1) * b ->
  floor_log2_ratio a b <= k.
Proof.
  intros Ha Hb Hk Hab.
  pose proof (Z.log2_nonneg a) as Hla. pose proof (Z.log2_nonneg b) as Hlb.
  pose proof (Z.log2_spec a Ha) as [Ha1 Ha2].
  pose proof (Z.log2_spec b Hb) as [Hb1 Hb2].
  assert (Hlt : Z.log2 a < k + 1 + Z.succ (Z.log2 b)).
  { apply (Z.pow_lt_mono_r_iff 2); [lia|lia|].
    rewrite Z.pow_add_r by lia.
    assert (0 < 2 ^ (k + 1)) by (apply Z.pow_pos_nonneg; lia).
    nia. }
  destruct (floor_log2_ratio_spec a b Ha Hb) as [[HL Hs]|[HL Hs]]; [|lia].
  destruct (Z.eq_dec (Z.log2 a) (k + 1 + Z.log2 b)) as [Heq|]; [|lia].
  exfalso. rewrite Heq in Hs.
  rewrite Z.pow_add_r in Hs by lia.
  assert (0 < 2 ^ Z.log2 b) by (apply Z.pow_pos_nonneg; lia).
  nia.
Qed.

Lemma Math_round_range m e k :
  e < 0 -> 0 <= k -> 0 <= m <= k * 2 ^ (- e) ->
  0 <= Math_round (Float m e) <= k.
Proof.
  intros He Hk Hm.
  pose proof (Math_round_spec m e He) as Hr.
  assert (0 < 2 ^ (- e)) by (apply Z.pow_pos_nonneg; lia).
  nia.
Qed.

(** The quotient and its product by 100 are those of [SpecFloat] for all
    counters [c <= 2 * n], [n < 64], and for some large ones. *)
Example reference_agreement :
  forallb (fun '(c, n) => agrees_with_reference c n) (pairs_up_to 64) = true
  /\ forallb (fun '(c, n) => agrees_with_reference c n)
       [(23, 40); (29, 200); (4294967295, 4294967294); (1, 4294967295);
        (4294967295, 1); (123456789, 987654321)] = true.
Proof. vm_compute. split; reflexivity. Qed.

(** Two roundings to 53 bits followed by [Math.round], in integers:
    [m1 / p1] is the rounded quotient [c / n], [m2 / p2] the rounded
    product by 100, and [s] the result. *)
Lemma nearest_from_roundings c n p1 m1 p2 m2 s :
  0 < n -> 0 < c < 2 ^ 32 -> 0 < p1 -> 0 < p2 ->
  0 <= m1 <= 2 ^ 53 ->
  2 ^ 52 * n <= c * p1 ->
  - n <= 2 * (m1 * n - c * p1) <= n ->
  2 ^ 52 * p1 <= m1 * 100 * p2 ->
  - p1 <= 2 * (m2 * p1 - m1 * 100 * p2) <= p1 ->
  2 * p2 * s <= 2 * m2 + p2 < 2 * p2 * s + 2 * p2 ->
  - n <= 2 * (s * n - 100 * c) <= n.
Proof.
  intros Hn Hc Hp1 Hp2 Hm1 Ha Hb Hc' Hd He.
  assert (Hnp : 2 ^ 20 * n < p1) by nia.
  assert (Hpp : p1 <= 200 * p2) by nia.
  assert (Hnp1 : 0 < n * p1) by (apply Z.mul_pos_pos; lia).
  assert (Hpp2 : 0 < p1 * p2) by (apply Z.mul_pos_pos; lia).
  assert (Hsmall : 100 * p2 * n + p1 * n < p1 * p2).
  { assert (2 ^ 20 * (100 * p2 * n) < 100 * p2 * p1)
      by (clear - Hnp Hp2; nia).
    assert (2 ^ 20 * (p1 * n) < 200 * p2 * p1)
      by (clear - Hnp Hpp Hp1 Hn Hp2; nia).
    lia. }
  assert (U1 : 2 * m2 * p1 * n <= (200 * m1 * p2 + p1) * n)
    by (apply Z.mul_le_mono_nonneg_r; lia).
  assert (U2 : 200 * m1 * n * p2 <= 100 * p2 * (2 * c * p1 + n))
    by (clear - Hb Hp2; nia).
  assert (L1 : (200 * m1 * p2 - p1) * n <= 2 * m2 * p1 * n)
    by (apply Z.mul_le_mono_nonneg_r; lia).
  assert (L2 : 100 * p2 * (2 * c * p1 - n) <= 200 * m1 * n * p2)
    by (clear - Hb Hp2; nia).
  assert (E1 : 2 * p2 * s * (n * p1) <= (2 * m2 + p2) * (n * p1))
    by (apply Z.mul_le_mono_nonneg_r; lia).
  assert (E2 : (2 * m2 + p2) * (n * p1) < (2 * p2 * s + 2 * p2) * (n * p1))
    by (apply Z.mul_lt_mono_pos_r; lia).
  split.
  - assert (G : - (p1 * p2) < (2 * (s * n - 100 * c) + n) * (p1 * p2))
      by lia.
    clear - G Hpp2. nia.
  - assert (G : (2 * (s * n - 100 * c) - n) * (p1 * p2) < p1 * p2)
      by lia.
    clear - G Hpp2. nia.
Qed.

End NumberFacts.

(** ** Assessment scorer *)

Module ScorerFacts.
Import Number NumberFacts Scorer.

Lemma percentage_zero n : 0 < n -> percentage 0 n = 0.
Proof.
  intros Hn. unfold percentage, div, mul, of_int. cbn [mant expo].
  rewrite !Z.mul_0_l.
  change (round64 0 (n * 2 ^ Z.max 0 (- (0 - 0)))) with (Float 0 0).
  reflexivity.
Qed.

(** The two roundings of [percentage], for counters below 2^32. *)
Lemma percentage_unfold c n :
  0 < c < 2 ^ 32 -> 0 < n < 2 ^ 32 ->
  exists L1 L2 m1 m2,
    - 32 <= L1 <= 31 /\ - 27 <= L2 <= 38
    /\ 2 ^ 52 <= m1 <= 2 ^ 53
    /\ 2 ^ 52 * n <= c * 2 ^ (52 - L1) < 2 ^ 53 * n
    /\ - n <= 2 * (m1 * n - c * 2 ^ (52 - L1)) <= n
    /\ 2 ^ 52 * 2 ^ (52 - L1) <= m1 * 100 * 2 ^ (52 - L2)
    /\ - 2 ^ (52 - L1)
       <= 2 * (m2 * 2 ^ (52 - L1) - m1 * 100 * 2 ^ (52 - L2))
       <= 2 ^ (52 - L1)
    /\ percentage c n = Math_round (Float m2 (L2 - 52)).
Proof.
  intros Hc Hn.
  unfold percentage, div, of_int. cbn [mant expo].
  change (Z.max 0 (0 - 0)) with 0. change (Z.max 0 (- (0 - 0))) with 0.
  change (2 ^ 0) with 1. rewrite !Z.mul_1_r.
  set (L1 := floor_log2_ratio c n).
  assert (HL1 : - 32 <= L1 <= 31).
  { pose proof (floor_log2_ratio_range c n 31 31 ltac:(lia) ltac:(lia)) as H.
    unfold L1. 
    assert (Z.log2 c < 32) by (apply Z.log2_lt_pow2; lia).
    assert (Z.log2 n < 32) by (apply Z.log2_lt_pow2; lia).
    lia. }
  destruct (round64_normal c n ltac:(lia) ltac:(lia) ltac:(fold L1; lia))
    as [-> Hs1].
  fold L1 in Hs1 |- *.
  set (p1 := 2 ^ (52 - L1)) in *.
  assert (Hp1 : 0 < p1) by (apply Z.pow_pos_nonneg; lia).
  set (m1 := rne (c * p1) n).
  pose proof (rne_error (c * p1) n ltac:(lia)) as He1. fold m1 in He1.
  assert (Hm1 : 2 ^ 52 <= m1 <= 2 ^ 53).
  { split; [apply rne_ge|apply rne_le]; lia. }
  unfold mul. cbn [mant expo].
  replace (L1 - 52 + 0) with (L1 - 52) by lia.
  rewrite (Z.max_l 0 (L1 - 52)) by lia.
  replace (Z.max 0 (- (L1 - 52))) with (52 - L1) by lia.
  rewrite Z.pow_0_r, Z.mul_1_r. fold p1.
  set (L2 := floor_log2_ratio (m1 * 100) p1).
  assert (HL2 : - 27 <= L2 <= 38).
  { assert (Hlp : Z.log2 p1 = 52 - L1) by (apply Z.log2_pow2; lia).
    pose proof (log2_in_range (m1 * 100) 58 ltac:(lia) ltac:(lia)) as Hlm.
    destruct (floor_log2_ratio_spec (m1 * 100) p1 ltac:(lia) Hp1)
      as [[HL _]|[HL _]]; unfold L2; rewrite HL, Hlp; lia. }
  destruct (round64_normal (m1 * 100) p1 ltac:(lia) Hp1 ltac:(fold L2; lia))
    as [-> Hs2].
  fold L2 in Hs2 |- *.
  set (p2 := 2 ^ (52 - L2)) in *.
  set (m2 := rne (m1 * 100 * p2) p1).
  pose proof (rne_error (m1 * 100 * p2) p1 Hp1) as He2. fold m2 in He2.
  exists L1, L2, m1, m2.
  fold p1 p2. repeat split; try lia.
Qed.

(** [percentage c n] is an integer nearest to [100 * c / n]. *)
Lemma percentage_nearest c n :
  0 <= c < 2 ^ 32 -> 0 < n < 2 ^ 32 ->
  - n <= 2 * (percentage c n * n - 100 * c) <= n.
Proof.
  intros Hc Hn.
  destruct (Z.eq_dec c 0) as [->|Hc0].
  { rewrite percentage_zero by lia. lia. }
  destruct (percentage_unfold c n ltac:(lia) Hn)
    as (L1 & L2 & m1 & m2 & HL1 & HL2 & Hm1 & Hs1 & He1 & Hs2 & He2 & ->).
  pose proof (Math_round_spec m2 (L2 - 52) ltac:(lia)) as Hr.
  replace (- (L2 - 52)) with (52 - L2) in Hr by lia.
  assert (0 < 2 ^ (52 - L1)) by (apply Z.pow_pos_nonneg; lia).
  assert (0 < 2 ^ (52 - L2)) by (apply Z.pow_pos_nonneg; lia).
  apply (nearest_from_roundings c n (2 ^ (52 - L1)) m1 (2 ^ (52 - L2)) m2);
    try lia.
Qed.

(** Away from the halves it is the rounding of the design document. *)
Lemma percentage_spec_round c n :
  0 <= c < 2 ^ 32 -> 0 < n < 2 ^ 32 ->
  (200 * c) mod (2 * n) <> n ->
  percentage c n = spec_round (100 * c) n.
Proof.
  intros Hc Hn Htie.
  pose proof (percentage_nearest c n Hc Hn) as Hp.
  unfold spec_round.
  set (s := percentage c n) in *.
  apply (Z.div_unique _ _ s (2 * (100 * c) + n - 2 * n * s)); [|lia].
  left. split; [lia|].
  assert (2 * (s * n - 100 * c) <> - n); [|lia].
  intros Heq. apply Htie.
  replace (200 * c) with (n + s * (2 * n)) by lia.
  rewrite Z.mod_add by lia. apply Z.mod_small. lia.
Qed.

(** With no more correct answers than questions the result is a
    percentage. *)
Lemma percentage_range c n :
  0 <= c <= n -> 0 < n -> 0 <= percentage c n <= 100.
Proof.
  intros Hc Hn.
  destruct (Z.eq_dec c 0) as [->|Hc0].
  { rewrite percentage_zero by lia. lia. }
  unfold percentage, div, of_int. cbn [mant expo].
  change (Z.max 0 (0 - 0)) with 0. change (Z.max 0 (- (0 - 0))) with 0.
  change (2 ^ 0) with 1. rewrite !Z.mul_1_r.
  destruct (round64_small c n ltac:(lia) Hn) as (e1 & He1 & ->).
  { apply Z.le_trans with 0; [|lia].
    apply floor_log2_ratio_le; lia. }
  set (p1 := 2 ^ (- e1)).
  assert (Hp1 : 0 < p1) by (apply Z.pow_pos_nonneg; lia).
  set (m1 := rne (c * p1) n).
  assert (Hm1 : 0 <= m1 <= p1).
  { split; [apply rne_ge|apply rne_le]; nia. }
  unfold mul. cbn [mant expo].
  replace (e1 + 0) with e1 by lia.
  rewrite (Z.max_l 0 e1) by lia. rewrite (Z.max_r 0 (- e1)) by lia.
  rewrite Z.pow_0_r, Z.mul_1_r. fold p1.
  destruct (Z.eq_dec m1 0) as [->|Hm0]; [vm_compute; split; discriminate|].
  destruct (round64_small (m1 * 100) p1 ltac:(lia) Hp1) as (e2 & He2 & ->).
  { apply Z.le_trans with 6; [|lia].
    apply floor_log2_ratio_le; lia. }
  apply Math_round_range; [lia|lia|].
  assert (0 < 2 ^ (- e2)) by (apply Z.pow_pos_nonneg; lia).
  split; [apply rne_ge|apply rne_le]; nia.
Qed.

Lemma strict_eq_true a b : strict_eq a b = true <-> a = b.
Proof.
  destruct a, b; simpl; try (split; [discriminate|congruence]);
    try (split; reflexivity).
  - rewrite Bool.eqb_true_iff. split; congruence.
  - rewrite Z.eqb_eq. split; congruence.
  - rewrite String.eqb_eq. split; congruence.
Qed.

Lemma evaluate_answers_spec qs : forall ans c,
  evaluate_answers qs c ans
  = (c + Z.of_nat (length (List.filter (marked_correct qs) ans)),
     map (fun a => snd (evaluate_answer qs 0 a)) ans).
Proof.
  induction ans as [|a ans IH]; intros c; simpl.
  - f_equal. lia.
  - rewrite IH. unfold marked_correct.
    destruct (truthy (isCorrect_of (find_question qs a) a)); simpl;
      f_equal; lia.
Qed.

Lemma find_question_Some qs a q :
  find_question qs a = Some q -> q ∈ qs /\ id q = questionId a.
Proof.
  unfold find_question. intros H.
  apply List.find_some in H as [Hin Heq].
  split; [now apply list_elem_of_In|now apply strict_eq_true].
Qed.

Lemma find_question_unique qs a q :
  NoDup (map id qs) -> q ∈ qs -> id q = questionId a ->
  find_question qs a = Some q.
Proof.
  unfold find_question.
  induction qs as [|x qs IH]; intros Hnd Hin Hid.
  - inversion Hin.
  - simpl in *. apply NoDup_cons in Hnd as [Hx Hnd].
    destruct (strict_eq (id x) (questionId a)) eqn:E.
    + apply strict_eq_true in E.
      apply elem_of_cons in Hin as [->|Hin]; [reflexivity|].
      exfalso. apply Hx. rewrite E, <- Hid.
      apply list_elem_of_fmap. eauto.
    + apply elem_of_cons in Hin as [->|Hin].
      * apply strict_eq_true in Hid. congruence.
      * now apply IH.
Qed.

Lemma marked_correct_iff qs a :
  NoDup (map id qs) ->
  marked_correct qs a = true
  <-> exists q, q ∈ qs /\ id q = questionId a
                /\ selectedAnswer a = correct_answer q.
Proof.
  intros Hnd. unfold marked_correct. split.
  - destruct (find_question qs a) as [q|] eqn:E; simpl; [|discriminate].
    intros H. apply strict_eq_true in H.
    apply find_question_Some in E as [Hin Hid]. eauto.
  - intros (q & Hin & Hid & Hsel).
    rewrite (find_question_unique qs a q Hnd Hin Hid). simpl.
    now apply strict_eq_true.
Qed.

Lemma marked_correct_first qs a :
  marked_correct qs a = true
  <-> exists q, find_question qs a = Some q
                /\ selectedAnswer a = correct_answer q.
Proof.
  unfold marked_correct.
  destruct (find_question qs a) as [q|]; simpl.
  - rewrite strict_eq_true. split.
    + intros H. exists q. auto.
    + intros (q' & [= <-] & H). exact H.
  - split; [discriminate|]. intros (q & H & _). discriminate.
Qed.

Lemma marked_correct_id qs a :
  marked_correct qs a = true -> questionId a ∈ map id qs.
Proof.
  unfold marked_correct.
  destruct (find_question qs a) as [q|] eqn:E; simpl; [|discriminate].
  intros _. apply find_question_Some in E as [Hin Hid].
  rewrite <- Hid. apply list_elem_of_fmap. eauto.
Qed.

Lemma NoDup_map_filter {A B} (f : A -> B) (p : A -> bool) (l : list A) :
  NoDup (map f l) -> NoDup (map f (List.filter p l)).
Proof.
  induction l as [|x l IH]; simpl; intros Hnd; [constructor|].
  apply NoDup_cons in Hnd as [Hx Hnd].
  destruct (p x); simpl; [|auto].
  apply NoDup_cons. split; [|auto].
  intros Hin. apply Hx.
  apply list_elem_of_fmap in Hin as (y & -> & Hy).
  apply list_elem_of_fmap. exists y. split; [reflexivity|].
  apply list_elem_of_In in Hy. apply List.filter_In in Hy as [Hy _].
  now apply list_elem_of_In.
Qed.

(** Answers to distinct questions: no more correct ones than questions. *)
Lemma correct_count_le qs ans :
  NoDup (map questionId ans) ->
  (length (List.filter (marked_correct qs) ans) <= length qs)%nat.
Proof.
  intros Hnd.
  rewrite <- (length_map questionId), <- (length_map id qs).
  apply submseteq_length, NoDup_submseteq.
  - now apply NoDup_map_filter.
  - intros i Hi.
    apply list_elem_of_fmap in Hi as (a & -> & Ha).
    apply list_elem_of_In in Ha. apply List.filter_In in Ha as [_ Ha].
    now apply marked_correct_id.
Qed.

Lemma assess_unfold qs ans :
  assess qs ans
  = {| totalQuestions := Z.of_nat (length qs);
       correctAnswers := Z.of_nat (length (List.filter (marked_correct qs) ans));
       score := percentage (Z.of_nat (length (List.filter (marked_correct qs) ans)))
                           (Z.of_nat (length qs));
       passed := 70 <=? percentage
                          (Z.of_nat (length (List.filter (marked_correct qs) ans)))
                          (Z.of_nat (length qs));
       answers := map (fun a => snd (evaluate_answer qs 0 a)) ans |}.
Proof. unfold assess. rewrite evaluate_answers_spec. reflexivity. Qed.

Lemma evaluated_marked qs ans :
  List.filter (fun e => truthy (isCorrect e))
              (map (fun a => snd (evaluate_answer qs 0 a)) ans)
  = map (fun a => snd (evaluate_answer qs 0 a))
        (List.filter (marked_correct qs) ans).
Proof.
  induction ans as [|a ans IH]; [reflexivity|].
  cbn [map List.filter].
  change (truthy (isCorrect (snd (evaluate_answer qs 0 a))))
    with (marked_correct qs a).
  destruct (marked_correct qs a); cbn [map]; now rewrite IH.
Qed.

Lemma filter_length_le {A} (p : A -> bool) (l : list A) :
  (length (List.filter p l) <= length l)%nat.
Proof. induction l as [|x l IH]; simpl; [lia|]. destruct (p x); simpl; lia. Qed.

Example score_7_of_10 :
  score (assess (sample_questions 10) (sample_answers 7)) = 70
  /\ passed (assess (sample_questions 10) (sample_answers 7)) = true.
Proof. vm_compute. split; reflexivity. Qed.

Example score_6_of_10 :
  score (assess (sample_questions 10) (sample_answers 6)) = 60
  /\ passed (assess (sample_questions 10) (sample_answers 6)) = false.
Proof. vm_compute. split; reflexivity. Qed.

(** C3 does not hold as stated: with 23 correct answers out of 40
    questions the exact percentage is 57.5, which rounds to 58 (halves
    upwards, or to even), but the score is 57, because the Number
    [(23 / 40) * 100] lies just below 57.5. *)
Lemma score_23_of_40_not_rounded :
  correctAnswers (assess (sample_questions 40) (sample_answers 23)) = 23
  /\ totalQuestions (assess (sample_questions 40) (sample_answers 23)) = 40
  /\ score (assess (sample_questions 40) (sample_answers 23)) = 57
  /\ spec_round (100 * 23) 40 = 58
  /\ score (assess (sample_questions 40) (sample_answers 23))
     <> spec_round
          (100 * correctAnswers (assess (sample_questions 40) (sample_answers 23)))
          (totalQuestions (assess (sample_questions 40) (sample_answers 23))).
Proof. vm_compute. repeat split; congruence. Qed.

(** C3, amended. For a non-empty list of canonical questions and a list
    of submitted answers (arrays, hence shorter than 2^32): a submitted
    answer is marked correct iff [find] returns a canonical question for
    its [questionId] and the selected choice is that question's correct
    choice, that is, ids being unique among the canonical questions, iff a
    canonical question with that id exists and the selected choice is its
    correct choice; [correctAnswers] counts the answers so marked and
    [totalQuestions] the canonical questions; the score is an
    integer nearest to [100 * correctAnswers / totalQuestions], and is
    the rounding of the design document unless that quotient lies exactly
    halfway between two integers; [passed] is [score >= 70]; five correct
    answers to ten questions score 50 and do not pass. *)
Theorem assess_marks_and_scores (qs : list Question) (ans : list Answer) :
  qs <> [] ->
  Z.of_nat (length qs) < 2 ^ 32 -> Z.of_nat (length ans) < 2 ^ 32 ->
  Forall2 (fun a e =>
             ea_questionId e = questionId a
             /\ ea_selectedAnswer e = selectedAnswer a
             /\ (truthy (isCorrect e) = true
                 <-> exists q, find_question qs a = Some q
                               /\ selectedAnswer a = correct_answer q)
             /\ (NoDup (map id qs) ->
                 truthy (isCorrect e) = true
                 <-> exists q, q ∈ qs /\ id q = questionId a
                               /\ selectedAnswer a = correct_answer q))
          ans (answers (assess qs ans))
  /\ correctAnswers (assess qs ans)
     = Z.of_nat (length (List.filter (fun e => truthy (isCorrect e))
                                     (answers (assess qs ans))))
  /\ totalQuestions (assess qs ans) = Z.of_nat (length qs)
  /\ - Z.of_nat (length qs)
     <= 2 * (score (assess qs ans) * Z.of_nat (length qs)
             - 100 * correctAnswers (assess qs ans))
     <= Z.of_nat (length qs)
  /\ ((200 * correctAnswers (assess qs ans)) mod (2 * Z.of_nat (length qs))
        <> Z.of_nat (length qs) ->
      score (assess qs ans)
      = spec_round (100 * correctAnswers (assess qs ans)) (Z.of_nat (length qs)))
  /\ passed (assess qs ans) = (70 <=? score (assess qs ans))
  /\ (length qs = 10%nat -> correctAnswers (assess qs ans) = 5 ->
      score (assess qs ans) = 50 /\ passed (assess qs ans) = false).
Proof.
  intros Hne Hqs Hans.
  rewrite assess_unfold. cbn [answers correctAnswers totalQuestions score passed].
  assert (Hpos : (0 < length qs)%nat).
  { destruct qs; [congruence|]. cbn [length]. lia. }
  set (c := Z.of_nat (length (List.filter (marked_correct qs) ans))).
  set (n := Z.of_nat (length qs)).
  assert (Hn : 0 < n < 2 ^ 32) by (unfold n; lia).
  assert (Hc : 0 <= c < 2 ^ 32).
  { unfold c. pose proof (filter_length_le (marked_correct qs) ans). lia. }
  split; [|split; [|split; [|split; [|split; [|split]]]]].
  - clear. induction ans as [|a ans IH]; simpl; constructor; [|exact IH].
    split; [reflexivity|]. split; [reflexivity|].
    split; [apply marked_correct_first|apply marked_correct_iff].
  - rewrite evaluated_marked, length_map. reflexivity.
  - reflexivity.
  - now apply percentage_nearest.
  - now apply percentage_spec_round.
  - reflexivity.
  - intros Hlen Hc5. unfold n. rewrite Hlen, Hc5. vm_compute. split; reflexivity.
Qed.

Lemma assess_marks_and_scores_witness :
  sample_questions 10 <> []
  /\ Z.of_nat (length (sample_questions 10)) < 2 ^ 32
  /\ Z.of_nat (length (sample_answers 5)) < 2 ^ 32
  /\ score (assess (sample_questions 10) (sample_answers 5)) = 50
  /\ passed (assess (sample_questions 10) (sample_answers 5)) = false.
Proof.
  assert (H1 : sample_questions 10 <> []) by discriminate.
  assert (H2 : Z.of_nat (length (sample_questions 10)) < 2 ^ 32)
    by (vm_compute; reflexivity).
  assert (H3 : Z.of_nat (length (sample_answers 5)) < 2 ^ 32)
    by (vm_compute; reflexivity).
  split; [exact H1|]. split; [exact H2|]. split; [exact H3|].
  apply (assess_marks_and_scores (sample_questions 10) (sample_answers 5)
           H1 H2 H3); vm_compute; reflexivity.
Defined.

(** C4 fails on the code: the counter is incremented once per submitted
    answer and nothing collapses repeated question ids, so one question
    answered correctly twice gives [correctAnswers = 2] of
    [totalQuestions = 1] and a score of 200. *)
Lemma score_of_repeated_answer_exceeds_100 :
  sample_questions 1 <> []
  /\ score (assess (sample_questions 1) (sample_answers 1 ++ sample_answers 1)%list)
     = 200.
Proof. split; [discriminate|]. vm_compute. reflexivity. Qed.

(** The same defect lets one known answer, sent seven times, pass an
    assessment of ten questions. *)
Example one_known_answer_sent_seven_times_passes :
  correctAnswers (assess (sample_questions 10)
                    (List.repeat {| questionId := JNum 1; selectedAnswer := JStr "A" |}
                       7)) = 7
  /\ score (assess (sample_questions 10)
              (List.repeat {| questionId := JNum 1; selectedAnswer := JStr "A" |} 7))
     = 70
  /\ passed (assess (sample_questions 10)
               (List.repeat {| questionId := JNum 1; selectedAnswer := JStr "A" |} 7))
     = true.
Proof. vm_compute. repeat split; reflexivity. Qed.

(** Where the score does stay in range. For a non-empty list of canonical
    questions the score is an integer between 0 and 100 whenever no more
    answers are counted correct than there are questions, which is so when
    the submitted answers have pairwise distinct question ids; it is never
    negative (for arrays, hence lists shorter than 2^32). *)
Theorem score_in_range (qs : list Question) (ans : list Answer) :
  qs <> [] ->
  (NoDup (map questionId ans) ->
   correctAnswers (assess qs ans) <= totalQuestions (assess qs ans))
  /\ (correctAnswers (assess qs ans) <= totalQuestions (assess qs ans) ->
      0 <= score (assess qs ans) <= 100)
  /\ (Z.of_nat (length qs) < 2 ^ 32 -> Z.of_nat (length ans) < 2 ^ 32 ->
      0 <= score (assess qs ans)).
Proof.
  intros Hne.
  rewrite assess_unfold. cbn [score correctAnswers totalQuestions].
  assert (Hpos : 0 < Z.of_nat (length qs)).
  { destruct qs; [congruence|]. cbn [length]. lia. }
  split; [|split].
  - intros Hnd. pose proof (correct_count_le qs ans Hnd). lia.
  - intros Hle. apply percentage_range; lia.
  - intros Hqs Hans.
    pose proof (filter_length_le (marked_correct qs) ans) as Hf.
    pose proof (percentage_nearest
                  (Z.of_nat (length (List.filter (marked_correct qs) ans)))
                  (Z.of_nat (length qs)) ltac:(lia) ltac:(lia)) as Hn.
    nia.
Qed.

Lemma score_in_range_witness :
  sample_questions 10 <> []
  /\ NoDup (map questionId (sample_answers 7))
  /\ 0 <= score (assess (sample_questions 10) (sample_answers 7)) <= 100.
Proof.
  assert (H1 : sample_questions 10 <> []) by discriminate.
  assert (H2 : NoDup (map questionId (sample_answers 7)))
    by (apply (bool_decide_unpack _); vm_compute; exact I).
  split; [exact H1|]. split; [exact H2|].
  destruct (score_in_range (sample_questions 10) (sample_answers 7) H1)
    as (Hcount & Hrange & _).
  exact (Hrange (Hcount H2)).
Defined.

End ScorerFacts.

(** ** The store *)

Module DatabaseFacts.
Import Database.

Lemma same_but_profiles_refl st : same_but_profiles st st.
Proof. repeat split. Qed.

Lemma rpc_profile_spec env clerk n e r st :
  exists res st', rpc_get_or_create_user_profile env clerk n e r st
                  = (Returned res, st')
                  /\ same_but_profiles st st'.
Proof.
  unfold rpc_get_or_create_user_profile, db_write.
  destruct (fault env ProfileRpc).
  - eexists _, _. split; [reflexivity|apply same_but_profiles_refl].
  - destruct (ensure_user_profile _ _ _ _ _ _).
    + eexists _, _. split; [reflexivity|]. repeat split.
    + eexists _, _. split; [reflexivity|apply same_but_profiles_refl].
Qed.

Lemma truthy_string_Some s v : truthy_string s = Some v -> s = Some v.
Proof.
  destruct s as [w|]; simpl; [|discriminate].
  destruct (String.eqb w ""); congruence.
Qed.

End DatabaseFacts.

(** ** The payment function *)

Module PaymentFacts.
Import JS Database DatabaseFacts Payment Access.

(** The profile step never stops the payment, and writes to [profiles]
    only. *)
Lemma payment_profile_step env clerk user_email st :
  exists st', ensure_profile env clerk user_email st = (Returned tt, st')
              /\ same_but_profiles st st'.
Proof.
  unfold ensure_profile, try_catch, bind.
  destruct (rpc_profile_spec env clerk (before_at user_email) user_email
              "student" st) as (res & st' & -> & Hs).
  destruct res; simpl; eauto.
Qed.

(** What happens after the signature check, step by step. *)
Lemma after_signature_spec env payload clerk user_email uuid st :
  exists st1,
    same_but_profiles st st1
    /\ after_signature env payload clerk user_email uuid st
       = match fault env PaymentInsert with
         | Some e =>
             (Thrown ("Failed to store payment record: " ++ message e), st1)
         | None =>
             let st2 :=
               set_payments (payments st1 ++ [payment_row uuid payload])%list st1 in
             match fault env SubscriptionUpsert with
             | Some e =>
                 (Thrown ("Failed to manage subscription: " ++ message e), st2)
             | None =>
                 (Returned verified_response,
                  set_user_subscriptions
                    (<[uuid := subscription_row env uuid payload]>
                       (user_subscriptions st2)) st2)
             end
         end.
Proof.
  destruct (payment_profile_step env clerk user_email st) as (st1 & Hp & Hs).
  exists st1. split; [exact Hs|].
  unfold after_signature, bind. rewrite Hp.
  unfold store_payment, manage_subscription, bind, db_write.
  destruct (fault env PaymentInsert); [reflexivity|]. simpl.
  destruct (fault env SubscriptionUpsert); reflexivity.
Qed.

Lemma razorpay_credentials_store env st r st' :
  razorpay_credentials env st = (r, st') -> st' = st.
Proof.
  unfold razorpay_credentials, bind, db_read.
  destruct (fault env AdminCredentialsSelect).
  - intros [= _ <-]. reflexivity.
  - destruct (single (admin_credentials st)) as [adminData|]; simpl.
    + destruct (truthy_string (razorpay_key_id adminData)),
               (truthy_string (razorpay_key_secret adminData));
        intros [= _ <-]; reflexivity.
    + intros [= _ <-]. reflexivity.
Qed.


Lemma string_opt_eqb_true (a : option string) (b : string) :
  string_opt_eqb a b = true <-> a = Some b.
Proof.
  destruct a as [v|]; simpl; [|split; discriminate].
  rewrite String.eqb_eq. split; congruence.
Qed.



(** The encoding of the digest: two lower-case hexadecimal digits per
    byte. *)
Lemma hex_of_bytes_shape (bytes : list Z) :
  Forall (fun b => 0 <= b < 256) bytes ->
  String.length (hex_of_bytes bytes) = (2 * length bytes)%nat
  /\ Identity.all_hex (hex_of_bytes bytes) = true.
Proof.
  induction 1 as [|b bytes Hb _ [IHl IHx]]; [split; reflexivity|].
  cbn [hex_of_bytes fold_right]. fold (hex_of_bytes bytes).
  pose proof (IdentityFacts.toString16_length_le b 2 ltac:(lia) ltac:(simpl; lia))
    as Hl.
  pose proof (IdentityFacts.toString16_all_hex b ltac:(lia)) as Hx.
  unfold padStart.
  rewrite !IdentityFacts.length_append, IdentityFacts.length_repeat_char.
  rewrite !IdentityFacts.all_hex_append, IdentityFacts.all_hex_repeat_zero.
  rewrite Hx, IHx, IHl. cbn [length]. split; [lia|reflexivity].
Qed.





Example setMonth_next_end_of_january :
  setMonth_next {| year := 2025; month := 0; day := 31; time_of_day := 0 |}
  = {| year := 2025; month := 2; day := 3; time_of_day := 0 |}.
Proof. reflexivity. Qed.








End PaymentFacts.

(** ** The learning service *)

Module LearningFacts.
Import JS Database DatabaseFacts Learning.

(** The profile step of the learning service never stops the request, and
    writes to [profiles] only. *)
Lemma learning_profile_step env clerk st :
  exists st', ensure_profile env clerk st = (Returned tt, st')
              /\ same_but_profiles st st'.
Proof.
  unfold ensure_profile, try_catch, bind.
  destruct (rpc_profile_spec env clerk "Student"
              (clerk ++ "@temp.com") "student" st) as (res & st' & -> & Hs).
  eauto.
Qed.

(** Step 2 never stops the issuance, whether its call fails or not, and
    writes to [course_certificate_management] only. *)
Lemma update_certificate_management_spec env params st :
  exists st', update_certificate_management env params st = (Returned tt, st')
              /\ same_but_certificate_management st st'.
Proof.
  unfold update_certificate_management.
  destruct (truthy_string (clerkUserId params)) as [clerk|].
  - unfold try_catch, bind, db_write.
    destruct (fault env CertificateManagementRpc); simpl;
      eexists; (split; [reflexivity|]); repeat split.
  - eexists. split; [reflexivity|]. repeat split.
Qed.

(** C10. In a [fetch] request for which the lookup finds no learning
    record of the identity and course, and the insert of a new record
    (attempted when [totalModules] and the course id are given) fails at
    the store, the failure is not propagated: the response is the status
    200 success envelope with [data] null, and no record is added. *)
Theorem fetch_create_failure_is_swallowed env request st clerk course total e :
  action request = fetch ->
  truthy_string (request_clerkUserId request) = Some clerk ->
  truthy_string (courseId_of request) = Some course ->
  truthy_number (totalModules request) = Some total ->
  fault env LearningSelect = None ->
  learning_rows (Identity.generateConsistentUUID (charCodes clerk)) course
    (user_learning st) = [] ->
  fault env LearningInsert = Some e ->
  exists st',
    serve env request st
    = ({| http_status := 200; body := SuccessBody (learning_record None) |}, st')
    /\ is_success (fst (serve env request st)) = true
    /\ user_learning st' = user_learning st.
Proof.
  intros Ha Hc Hcourse Htotal Hsel Hnone Hins.
  unfold serve. rewrite Hc, Ha.
  unfold fetch_action, bind.
  destruct (learning_profile_step env clerk st) as (st1 & -> & Hsame).
  destruct Hsame as (_ & _ & _ & Hl & _).
  unfold db_read. rewrite Hsel.
  rewrite (truthy_string_Some _ _ Hcourse). cbn [filter_value].
  rewrite Hl, Hnone. cbn [maybeSingle].
  rewrite Htotal, <- (truthy_string_Some _ _ Hcourse), Hcourse.
  unfold insert_learning, db_write. rewrite Hins.
  eexists. split; [reflexivity|]. split; [reflexivity|]. exact Hl.
Qed.

Lemma active_certificates_app user course l1 l2 :
  active_certificates user course (l1 ++ l2)
  = (active_certificates user course l1 ++ active_certificates user course l2)%list.
Proof. unfold active_certificates. apply List.filter_app. Qed.

(** The row step 6 inserts. *)
Lemma create_user_certificate_spec env params tpl st :
  match fault env UserCertificateInsert with
  | Some e =>
      create_user_certificate env params tpl st = (Thrown (Database.message e), st)
  | None =>
      exists row,
        create_user_certificate env params tpl st
        = (Returned (issued (generated_id env UserCertificateInsert)),
           set_user_certificates (user_certificates st ++ [row])%list st)
        /\ user_certificate_id row = generated_id env UserCertificateInsert
        /\ active_certificates (userId params) (courseId params) [row] = [row]
  end.
Proof.
  unfold create_user_certificate, bind, db_write.
  destruct (fault env UserCertificateInsert); [reflexivity|].
  eexists. split; [reflexivity|]. split; [reflexivity|].
  unfold active_certificates. cbn. rewrite !String.eqb_refl. reflexivity.
Qed.

(** Steps 4 to 6 answer [issued] only by appending a row. *)
Lemma issue_certificate_issued_inv env params st new_id st1 :
  issue_certificate env params st = (Returned (issued new_id), st1) ->
  exists row,
    user_certificates st1 = (user_certificates st ++ [row])%list
    /\ user_certificate_id row = new_id
    /\ active_certificates (userId params) (courseId params) [row] = [row].
Proof.
  unfold issue_certificate, bind, db_read.
  assert (Hcreate : forall st0,
            create_default_certificate env st0 <> (Returned (issued new_id), st1)).
  { intros st0. unfold create_default_certificate, bind, db_write.
    destruct (fault env CertificateInsert); cbn; intros [= ? ?]; discriminate. }
  destruct (fault env CertificateSelect).
  { intros H. now apply Hcreate in H. }
  destruct (single (default_certificates (certificates st))) as [tpl|err].
  - pose proof (create_user_certificate_spec env params tpl st) as Hc.
    destruct (fault env UserCertificateInsert).
    + rewrite Hc. discriminate.
    + destruct Hc as (row & -> & Hid & Hact).
      intros [= <- <-]. exists row. auto.
  - intros H. now apply Hcreate in H.
Qed.

(** A call that answers [issued] has appended one active row for the
    pair, with the identifier it returns. *)
Lemma generateCertificate_issued_inv env params st new_id st1 :
  generateCertificate env params st = (Returned (issued new_id), st1) ->
  PASSING_SCORE <= score params
  /\ exists row,
       user_certificates st1 = (user_certificates st ++ [row])%list
       /\ user_certificate_id row = new_id
       /\ active_certificates (userId params) (courseId params) [row] = [row].
Proof.
  unfold generateCertificate.
  destruct (score params <? PASSING_SCORE) eqn:E; [intros H; inversion H|].
  apply Z.ltb_ge in E. intros H. split; [exact E|]. revert H.
  unfold try_catch, generateCertificate_try, bind.
  destruct (update_certificate_management_spec env params st)
    as (st0 & -> & Hsame).
  destruct Hsame as (_ & _ & _ & _ & _ & _ & _ & Hu).
  unfold db_read. rewrite <- Hu.
  destruct (issue_certificate env params st0) as [[r|msg] st0'] eqn:Hissue.
  - destruct (fault env UserCertificateSelect); cbn [data_of].
    + rewrite Hissue. intros [= -> ->].
      now apply issue_certificate_issued_inv in Hissue.
    + destruct (maybeSingle _) as [[existing|]|err]; cbn [data_of].
      * intros H; inversion H.
      * rewrite Hissue. intros [= -> ->].
        now apply issue_certificate_issued_inv in Hissue.
      * rewrite Hissue. intros [= -> ->].
        now apply issue_certificate_issued_inv in Hissue.
  - destruct (fault env UserCertificateSelect); cbn [data_of].
    + rewrite Hissue. intros H; inversion H.
    + destruct (maybeSingle _) as [[existing|]|err]; cbn [data_of].
      * intros H; inversion H.
      * rewrite Hissue. intros H; inversion H.
      * rewrite Hissue. intros H; inversion H.
Qed.

(** C8, amended. Two calls of [generateCertificate] in sequence for the
    same identity and course, the second with a passing score. If the
    store held no active certificate of the pair before the first call,
    the first call answered that it generated a certificate, and the
    existence check of the second call is answered by the store, then the
    second call answers [Certificate already exists] with the identifier
    the first call returned, and leaves the certificate rows as they
    were. *)
Theorem issuance_is_idempotent env1 env2 params1 params2 st st1 new_id :
  userId params2 = userId params1 ->
  courseId params2 = courseId params1 ->
  PASSING_SCORE <= score params2 ->
  active_certificates (userId params1) (courseId params1) (user_certificates st)
  = [] ->
  generateCertificate env1 params1 st = (Returned (issued new_id), st1) ->
  fault env2 UserCertificateSelect = None ->
  PASSING_SCORE <= score params1
  /\ exists st2,
       generateCertificate env2 params2 st1
       = (Returned (already_issued new_id), st2)
       /\ user_certificates st2 = user_certificates st1.
Proof.
  intros Hu2 Hc2 Hscore2 Hnone H1 Hsel.
  apply generateCertificate_issued_inv in H1
    as (Hscore & row & Hrows & Hid & Hact).
  split; [exact Hscore|].
  unfold generateCertificate.
  destruct (score params2 <? PASSING_SCORE) eqn:E; [apply Z.ltb_lt in E; lia|].
  unfold try_catch, generateCertificate_try, bind.
  destruct (update_certificate_management_spec env2 params2 st1)
    as (st2 & -> & Hsame).
  destruct Hsame as (_ & _ & _ & _ & _ & _ & _ & Hu).
  unfold db_read. rewrite Hsel, Hu, Hrows, Hu2, Hc2.
  rewrite active_certificates_app, Hnone, Hact. cbn.
  exists st2. rewrite Hid. split; [reflexivity|]. now rewrite Hu, Hrows.
Qed.

(** C8 does not hold as stated. Starting from a store without
    certificates, the first call issues one; when the existence check of
    the second call fails at the store, its [error] is ignored and a
    second row with another identifier is inserted. And when two active
    certificates of the pair are already stored, [maybeSingle] answers no
    data, so each of two calls in sequence inserts a further row. *)
Lemma second_issuance_can_duplicate :
  (exists st1 st2,
     active_certificates (userId sample_params) (courseId sample_params)
       (user_certificates sample_store) = []
     /\ generateCertificate sample_env sample_params sample_store
        = (Returned (issued "7f0c2a7e-5b1d-4c55-9a3e-2f6f1f0f9b11"), st1)
     /\ generateCertificate
          (with_fault second_env UserCertificateSelect timeout_error)
          sample_params st1
        = (Returned (issued "2d9e4b6a-8c1f-4e37-b5a2-6e7d8c9b0a1f"), st2)
     /\ length (user_certificates st2) = 2%nat)
  /\ (exists st1 st2,
        generateCertificate sample_env sample_params
          (set_user_certificates
             [sample_user_certificate "5a1e0c3b-9d2f-4b6a-8e7c-1f2d3c4b5a69";
              sample_user_certificate "6b2f1d4c-0e3a-4c7b-9f8d-2a3e4d5c6b7a"]
             sample_store)
        = (Returned (issued "7f0c2a7e-5b1d-4c55-9a3e-2f6f1f0f9b11"), st1)
        /\ generateCertificate second_env sample_params st1
           = (Returned (issued "2d9e4b6a-8c1f-4e37-b5a2-6e7d8c9b0a1f"), st2)
        /\ length (user_certificates st2) = 4%nat).
Proof.
  split.
  - eexists _, _. split; [reflexivity|].
    split; [vm_compute; reflexivity|].
    split; vm_compute; reflexivity.
  - eexists _, _.
    split; [vm_compute; reflexivity|].
    split; vm_compute; reflexivity.
Qed.

Lemma issuance_is_idempotent_witness :
  exists st1 st2,
    generateCertificate sample_env sample_params sample_store
    = (Returned (issued "7f0c2a7e-5b1d-4c55-9a3e-2f6f1f0f9b11"), st1)
    /\ generateCertificate second_env sample_params st1
       = (Returned (already_issued "7f0c2a7e-5b1d-4c55-9a3e-2f6f1f0f9b11"), st2)
    /\ user_certificates st2 = user_certificates st1.
Proof.
  assert (H1 : generateCertificate sample_env sample_params sample_store
               = (Returned (issued "7f0c2a7e-5b1d-4c55-9a3e-2f6f1f0f9b11"),
                  snd (generateCertificate sample_env sample_params sample_store)))
    by (vm_compute; reflexivity).
  destruct (issuance_is_idempotent sample_env second_env sample_params
              sample_params sample_store _ _
              eq_refl eq_refl ltac:(vm_compute; discriminate) eq_refl H1 eq_refl)
    as (_ & st2 & H2 & H3).
  exists (snd (generateCertificate sample_env sample_params sample_store)), st2.
  split; [exact H1|]. split; [exact H2|exact H3].
Defined.

(** [generateCertificate] never throws. *)
Lemma generateCertificate_returns env params st :
  exists r st', generateCertificate env params st = (Returned r, st').
Proof.
  unfold generateCertificate.
  destruct (score params <? PASSING_SCORE); [eexists _, _; reflexivity|].
  unfold try_catch.
  destruct (generateCertificate_try env params st) as [[r|msg] st'];
    eexists _, _; reflexivity.
Qed.

(** A failing insert of the certificate row ends the issuance with
    [success = false] and the message of the error, and adds no row. *)
Lemma generateCertificate_insert_fault env params st tpl e :
  PASSING_SCORE <= score params ->
  active_certificates (userId params) (courseId params) (user_certificates st)
  = [] ->
  fault env CertificateSelect = None ->
  default_certificates (certificates st) = [tpl] ->
  fault env UserCertificateInsert = Some e ->
  exists st',
    generateCertificate env params st
    = (Returned {| success := false; certificateId := None;
                   message := Some (if String.eqb (Database.message e) ""
                                    then "Certificate generation failed"
                                    else Database.message e) |}, st')
    /\ same_but_certificate_management st st'.
Proof.
  intros Hscore Hnone Hsel Htpl Hins.
  unfold generateCertificate.
  destruct (score params <? PASSING_SCORE) eqn:E; [apply Z.ltb_lt in E; lia|].
  unfold try_catch, generateCertificate_try, bind.
  destruct (update_certificate_management_spec env params st)
    as (st0 & -> & Hsame).
  pose proof Hsame as (_ & _ & _ & _ & _ & _ & Hc & Hu).
  assert (Hissue : issue_certificate env params st0
                   = (Thrown (Database.message e), st0)).
  { unfold issue_certificate, bind, db_read. rewrite Hsel, Hc, Htpl. cbn [single].
    pose proof (create_user_certificate_spec env params tpl st0) as H.
    now rewrite Hins in H. }
  unfold db_read. rewrite Hu, Hnone.
  destruct (fault env UserCertificateSelect); cbn [maybeSingle data_of];
    rewrite Hissue; eexists; (split; [reflexivity|exact Hsame]).
Qed.

(** The certificate block of [evaluateAssessment] never throws. *)
Lemma certificate_if_passed_returns env request clerk uuid course result st :
  exists cert st',
    certificate_if_passed env request clerk uuid course result st
    = (Returned cert, st').
Proof.
  unfold certificate_if_passed.
  destruct (Scorer.passed result); [|eexists _, _; reflexivity].
  destruct (truthy_string (courseName_of request)); [|eexists _, _; reflexivity].
  unfold try_catch.
  match goal with |- context [match ?c st with _ => _ end] =>
    destruct (c st) as [[r|msg] st'] end; eexists _, _; reflexivity.
Qed.

(** C9 does not hold as stated. When the insert of the certificate row
    fails, [generateCertificate] catches the error and answers
    [success = false], and the response of the [evaluateAssessment]
    request is the status 200 success envelope, with
    [certificateGenerated] false and [certificateId] null. *)
Lemma certificate_insert_fault_reports_success :
  fault (with_fault sample_env UserCertificateInsert timeout_error)
    UserCertificateInsert = Some timeout_error
  /\ (exists st',
        generateCertificate
          (with_fault sample_env UserCertificateInsert timeout_error)
          sample_params sample_store
        = (Returned {| success := false; certificateId := None;
                       message := Some (Database.message timeout_error) |}, st'))
  /\ http_status
       (fst (serve (with_fault sample_env UserCertificateInsert timeout_error)
               (sample_request evaluateAssessment 8) sample_store)) = 200
  /\ is_success
       (fst (serve (with_fault sample_env UserCertificateInsert timeout_error)
               (sample_request evaluateAssessment 8) sample_store)) = true
  /\ (exists result,
        body (fst (serve (with_fault sample_env UserCertificateInsert timeout_error)
                     (sample_request evaluateAssessment 8) sample_store))
        = SuccessBody (evaluation
                         {| assessmentResult := result;
                            saved := true;
                            certificateGenerated := false;
                            result_certificateId := None |})).
Proof.
  split; [reflexivity|].
  split; [eexists; vm_compute; reflexivity|].
  split; [vm_compute; reflexivity|].
  split; [vm_compute; reflexivity|].
  eexists. vm_compute. reflexivity.
Qed.

(** C9, amended. Step 2 never stops the issuance, whether its call to
    the store fails or not. And an [evaluateAssessment] request whose
    assessment has been scored and saved is always answered with the
    status 200 success envelope, [certificateGenerated] being the
    [success] of the certificate step: when that step reaches the insert
    of the certificate row and the insert fails, the issuance ends with
    [success = false] and the message of the error, no row is added, and
    the response still is the success envelope, with
    [certificateGenerated] false. *)
Theorem certificate_fault_is_not_fatal env request st clerk result course st1 :
  action request = evaluateAssessment ->
  truthy_string (request_clerkUserId request) = Some clerk ->
  evaluate_and_save env request clerk
    (Identity.generateConsistentUUID (charCodes clerk)) st
  = (Returned (result, course), st1) ->
  (forall params st0,
     exists st0', update_certificate_management env params st0 = (Returned tt, st0')
                  /\ same_but_certificate_management st0 st0')
  /\ exists cert st2,
       certificate_if_passed env request clerk
         (Identity.generateConsistentUUID (charCodes clerk)) course result st1
       = (Returned cert, st2)
       /\ serve env request st
          = ({| http_status := 200;
                body := SuccessBody
                          (evaluation
                             {| assessmentResult := result;
                                saved := true;
                                certificateGenerated := success cert;
                                result_certificateId :=
                                  truthy_string (certificateId cert) |}) |},
             st2)
       /\ (forall course_name profile user_name tpl e,
             Scorer.passed result = true ->
             truthy_string (courseName_of request) = Some course_name ->
             fault env ProfileSelect = None ->
             List.filter
               (fun p => String.eqb (profile_id p)
                           (Identity.generateConsistentUUID (charCodes clerk)))
               (profiles st1) = [profile] ->
             truthy_string (full_name profile) = Some user_name ->
             active_certificates
               (Identity.generateConsistentUUID (charCodes clerk)) course
               (user_certificates st1) = [] ->
             fault env CertificateSelect = None ->
             default_certificates (certificates st1) = [tpl] ->
             fault env UserCertificateInsert = Some e ->
             cert = {| success := false; certificateId := None;
                       message := Some (if String.eqb (Database.message e) ""
                                        then "Certificate generation failed"
                                        else Database.message e) |}
             /\ user_certificates st2 = user_certificates st1).
Proof.
  intros Ha Hc Hsave.
  split; [intros; apply update_certificate_management_spec|].
  set (uuid := Identity.generateConsistentUUID (charCodes clerk)) in *.
  destruct (certificate_if_passed_returns env request clerk uuid course result st1)
    as (cert & st2 & Hcert).
  exists cert, st2. split; [exact Hcert|]. split.
  - unfold serve. rewrite Hc, Ha. fold uuid.
    unfold evaluateAssessment_action, bind. rewrite Hsave, Hcert. reflexivity.
  - intros course_name profile user_name tpl e
           Hpass Hname Hpsel Hprof Hfull Hnone Hsel Htpl Hins.
    revert Hcert. unfold certificate_if_passed.
    rewrite Hpass, Hname. unfold try_catch, bind, db_read.
    rewrite Hpsel, Hprof. cbn [maybeSingle data_of]. rewrite Hfull.
    match goal with |- context [generateCertificate env ?p st1] =>
      destruct (generateCertificate_insert_fault env p st1 tpl e)
        as (st' & -> & Hsame)
    end; try assumption.
    { cbn [score]. unfold PASSING_SCORE.
      (* the result passed *)
      revert Hpass. clear - Hsave.
      intros Hpass.
      assert (Hp : Scorer.passed result = (70 <=? Scorer.score result)).
      { revert Hsave. unfold evaluate_and_save.
        destruct (questions request); [|intros H; inversion H].
        destruct (answers request); [|intros H; inversion H].
        destruct (truthy_string (courseId_of request)); [|intros H; inversion H].
        unfold bind.
        destruct (learning_profile_step env clerk st) as (sp & -> & _).
        destruct (db_read env QuestionsSelect _ sp) as [[[[|q qs]|err]|msg] s0];
          try (intros H; inversion H; fail).
        destruct (save_assessment _ _ _ _ _ _) as [[[]|msg] s1];
          [|intros H; inversion H].
        intros [= <- _ _]. unfold Scorer.assess.
        destruct (Scorer.evaluate_answers _ _ _). reflexivity. }
      rewrite Hp in Hpass. now apply Z.leb_le in Hpass. }
    intros [= <- <-]. split; [reflexivity|].
    now destruct Hsame as (_ & _ & _ & _ & _ & _ & _ & Hu).
Qed.

Lemma fetch_create_failure_is_swallowed_witness :
  exists st',
    serve (with_fault sample_env LearningInsert timeout_error)
      (sample_request fetch 0) sample_store
    = ({| http_status := 200; body := SuccessBody (learning_record None) |}, st')
    /\ user_learning st' = [].
Proof.
  destruct (fetch_create_failure_is_swallowed
              (with_fault sample_env LearningInsert timeout_error)
              (sample_request fetch 0) sample_store "user_2abc" "course-1" 4
              timeout_error eq_refl eq_refl eq_refl eq_refl eq_refl
              ltac:(vm_compute; reflexivity) eq_refl)
    as (st' & H1 & _ & H2).
  exists st'. split; [exact H1|exact H2].
Defined.

Lemma certificate_fault_is_not_fatal_witness :
  exists result,
    body (fst (serve (with_fault sample_env UserCertificateInsert timeout_error)
                 (sample_request evaluateAssessment 8) sample_store))
    = SuccessBody (evaluation {| assessmentResult := result;
                                 saved := true;
                                 certificateGenerated := false;
                                 result_certificateId := None |}).
Proof.
  pose (env := with_fault sample_env UserCertificateInsert timeout_error).
  pose (o := evaluate_and_save env (sample_request evaluateAssessment 8)
               "user_2abc" sample_uuid sample_store).
  pose (result := match fst o with
                  | Returned (r, _) => r
                  | Thrown _ => Scorer.assess [] []
                  end).
  assert (Hsave : evaluate_and_save env (sample_request evaluateAssessment 8)
                    "user_2abc"
                    (Identity.generateConsistentUUID (charCodes "user_2abc"))
                    sample_store
                  = (Returned (result, "course-1"), snd o))
    by (vm_compute; reflexivity).
  destruct (certificate_fault_is_not_fatal env
              (sample_request evaluateAssessment 8) sample_store "user_2abc"
              result "course-1" (snd o) eq_refl eq_refl Hsave)
    as (_ & cert & st2 & _ & Hserve & Hfault).
  destruct (Hfault "Proof Engineering"
              {| profile_id := sample_uuid;
                 full_name := Some "Ada Lovelace";
                 email := Some "ada@example.com";
                 role := Some "student";
                 auth_provider := Some "clerk";
                 profile_updated_at := None |}
              "Ada Lovelace" sample_certificate timeout_error
              ltac:(vm_compute; reflexivity) eq_refl eq_refl
              ltac:(vm_compute; reflexivity) eq_refl
              ltac:(vm_compute; reflexivity) eq_refl
              ltac:(vm_compute; reflexivity) eq_refl)
    as (Hcert & _).
  exists result. fold env. rewrite Hserve, Hcert. reflexivity.
Defined.
End LearningFacts.

(** ** The identity resolver, further *)

Module ResolverFacts.
Import JS Identity IdentityFacts PG Polynomial.

(** *** The hash is the polynomial hash with multiplier 31, modulo 2^32 *)

Lemma ToInt32_wraps z : exists k, ToInt32 z = z + k * 2 ^ 32.
Proof.
  unfold ToInt32. pose proof (Z.div_mod z (2 ^ 32) ltac:(lia)) as E.
  destruct (2 ^ 31 <=? z mod 2 ^ 32).
  - exists (- (z / 2 ^ 32) - 1). lia.
  - exists (- (z / 2 ^ 32)). lia.
Qed.

Lemma ToInt32_congruent a b k : a = b + k * 2 ^ 32 -> ToInt32 a = ToInt32 b.
Proof. unfold ToInt32. intros ->. now rewrite Z.mod_add by lia. Qed.

Lemma hash_step_wraps h c : exists k, hash_step h c = 31 * h + c + k * 2 ^ 32.
Proof.
  unfold hash_step. rewrite band_diag. unfold shl.
  change (5 mod 32) with 5. rewrite Z.shiftl_mul_pow2 by lia.
  destruct (ToInt32_wraps h) as [k1 E1].
  destruct (ToInt32_wraps (ToInt32 h * 2 ^ 5)) as [k2 E2].
  destruct (ToInt32_wraps (ToInt32 (ToInt32 h * 2 ^ 5) - h + c)) as [k3 E3].
  exists (k1 * 32 + k2 + k3). lia.
Qed.

Lemma hash_step_polynomial h c : hash_step h c = ToInt32 (31 * h + c).
Proof.
  unfold hash_step. rewrite band_diag. unfold shl.
  change (5 mod 32) with 5. rewrite Z.shiftl_mul_pow2 by lia.
  destruct (ToInt32_wraps h) as [k1 E1].
  destruct (ToInt32_wraps (ToInt32 h * 2 ^ 5)) as [k2 E2].
  apply (ToInt32_congruent _ _ (k1 * 32 + k2)). lia.
Qed.

Lemma ToInt32_idem z : ToInt32 (ToInt32 z) = ToInt32 z.
Proof.
  destruct (ToInt32_wraps z) as [k E]. now apply (ToInt32_congruent _ _ k).
Qed.

Lemma hash_fold_polynomial input : forall value,
  fold_left hash_step input (ToInt32 value)
  = ToInt32 (fold_left (fun value char => 31 * value + char) input value).
Proof.
  induction input as [|char input IH]; intros value; [reflexivity|].
  cbn [fold_left]. rewrite <- IH. f_equal.
  rewrite hash_step_polynomial.
  destruct (ToInt32_wraps value) as [k E].
  apply (ToInt32_congruent _ _ (31 * k)). lia.
Qed.

(** The loop of the resolver, with its shift, its subtraction and its
    [hash & hash], computes the polynomial hash with multiplier 31 of the
    code units (the hash of Java's [String.hashCode]), reduced to a signed
    32-bit integer; a further code unit multiplies the value by 31 and
    adds the unit. *)
Theorem hash_of_is_the_polynomial_hash (input : code_units) :
  hash_of input = ToInt32 (polynomial_hash input)
  /\ forall char, polynomial_hash (input ++ [char]) = 31 * polynomial_hash input + char.
Proof.
  split.
  - unfold hash_of, polynomial_hash.
    change 0 with (ToInt32 0) at 1. apply hash_fold_polynomial.
  - intros char. unfold polynomial_hash. now rewrite fold_left_app.
Qed.

(** The two-character blocks [Aa] and [BB] hash alike from every state:
    [31 * 65 + 97 = 31 * 66 + 66]. *)
Lemma hash_step_Aa_BB h :
  hash_step (hash_step h 65) 97 = hash_step (hash_step h 66) 66.
Proof.
  rewrite (hash_step_polynomial (hash_step h 65)), (hash_step_polynomial (hash_step h 66)).
  destruct (hash_step_wraps h 65) as [k1 E1].
  destruct (hash_step_wraps h 66) as [k2 E2].
  apply (ToInt32_congruent _ _ (31 * (k1 - k2))). lia.
Qed.

(** C-style string hashes collide on such blocks wherever they stand, and
    so does the resolver. *)
Theorem generateConsistentUUID_collides (before after : code_units) :
  (before ++ charCodes "Aa" ++ after)%list <> (before ++ charCodes "BB" ++ after)%list
  /\ generateConsistentUUID (before ++ charCodes "Aa" ++ after)
     = generateConsistentUUID (before ++ charCodes "BB" ++ after).
Proof.
  split.
  - intros H. apply app_inv_head in H.
    assert (E : hd 0 (charCodes "Aa" ++ after) = hd 0 (charCodes "BB" ++ after))
      by now rewrite H.
    vm_compute in E. discriminate E.
  - assert (E : forall h, fold_left hash_step (charCodes "Aa") h
                         = fold_left hash_step (charCodes "BB") h)
      by (intros h; apply hash_step_Aa_BB).
    unfold generateConsistentUUID, hash_of.
    rewrite <- !app_assoc, !fold_left_app, E. reflexivity.
Qed.

(** *** The identity is an injective encoding of the absolute hash *)

Lemma hex_digit_inj d1 d2 :
  0 <= d1 < 16 -> 0 <= d2 < 16 -> hex_digit d1 = hex_digit d2 -> d1 = d2.
Proof.
  intros H1 H2. unfold hex_digit.
  assert (K1 : (Z.to_nat d1 < 16)%nat) by lia.
  assert (K2 : (Z.to_nat d2 < 16)%nat) by lia.
  intros E. apply Z2Nat.inj; [lia|lia|].
  remember (Z.to_nat d1) as n1 eqn:E1. remember (Z.to_nat d2) as n2 eqn:E2.
  clear E1 E2 H1 H2 d1 d2.
  do 16 (destruct n1 as [|n1]; [
    do 16 (destruct n2 as [|n2]; [first [reflexivity|discriminate E]|]); lia |]).
  lia.
Qed.

Lemma hex_digits_inj (l1 l2 : list Z) :
  Forall (fun d => 0 <= d < 16) l1 -> Forall (fun d => 0 <= d < 16) l2 ->
  string_of_chars (map hex_digit l1) = string_of_chars (map hex_digit l2) ->
  l1 = l2.
Proof.
  intros H1. revert l2.
  induction H1 as [|d1 l1 Hd1 _ IH]; intros l2 H2 E; destruct H2 as [|d2 l2 Hd2 H2];
    cbn [map string_of_chars] in E; try discriminate E; [reflexivity|].
  injection E as Ec Es.
  f_equal; [now apply hex_digit_inj|now apply IH].
Qed.

Lemma repeat_char_zero n :
  repeat_char "0" n = string_of_chars (map hex_digit (repeat 0 n)).
Proof. induction n as [|n IH]; [reflexivity|]. cbn. now rewrite IH. Qed.

Lemma string_of_chars_app l1 l2 :
  string_of_chars (l1 ++ l2) = string_of_chars l1 ++ string_of_chars l2.
Proof.
  induction l1 as [|c l1 IH]; [reflexivity|].
  cbn [app string_of_chars]. now rewrite IH.
Qed.

Lemma value16_app_zeros ds n : value16 (ds ++ repeat 0 n) = value16 ds.
Proof.
  induction ds as [|d ds IH]; cbn [app value16].
  - induction n as [|n IHn]; cbn [repeat value16]; lia.
  - now rewrite IH.
Qed.

(** The digits [hex] is made of, most significant first. *)
Lemma hex_of_hash_digits hash :
  exists ds, Forall (fun d => 0 <= d < 16) ds
             /\ value16 (rev ds) = Z.abs hash
             /\ hex_of_hash hash = string_of_chars (map hex_digit ds).
Proof.
  set (n := Z.abs hash).
  exists (repeat 0 (8 - String.length (toString16 n))
          ++ rev (digits16 (S (Z.to_nat (Z.log2 n))) n))%list.
  split; [|split].
  - apply Forall_app. split.
    + apply List.Forall_forall. intros d Hd. apply repeat_spec in Hd. lia.
    + apply Forall_rev, digits16_range. lia.
  - rewrite rev_app_distr, rev_involutive, rev_repeat, value16_app_zeros.
    apply toString16_digits. lia.
  - unfold hex_of_hash, padStart. fold n.
    rewrite map_app, string_of_chars_app, <- repeat_char_zero. reflexivity.
Qed.

Lemma hex_of_hash_inj h1 h2 :
  hex_of_hash h1 = hex_of_hash h2 -> Z.abs h1 = Z.abs h2.
Proof.
  destruct (hex_of_hash_digits h1) as (d1 & F1 & V1 & ->).
  destruct (hex_of_hash_digits h2) as (d2 & F2 & V2 & ->).
  intros E. apply hex_digits_inj in E; [|assumption..]. congruence.
Qed.

Lemma assemble_first_group hex :
  String.length hex = 8%nat -> String.substring 0 8 (assemble hex) = hex.
Proof.
  intros Hl.
  destruct (eight_chars hex Hl) as (c0&c1&c2&c3&c4&c5&c6&c7&->). reflexivity.
Qed.

(** Two external ids get the same identity exactly when their hashes agree
    up to the sign: the identity carries the absolute value of the 32-bit
    hash and nothing else of the id. *)
Theorem same_identity_iff_same_absolute_hash (a b : code_units) :
  generateConsistentUUID a = generateConsistentUUID b
  <-> Z.abs (hash_of (a ++ charCodes NAMESPACE_UUID))
      = Z.abs (hash_of (b ++ charCodes NAMESPACE_UUID)).
Proof.
  unfold generateConsistentUUID. split.
  - intros E. apply hex_of_hash_inj.
    destruct (hex_of_hash_shape _ (hash_of_range (a ++ charCodes NAMESPACE_UUID)))
      as [La _].
    destruct (hex_of_hash_shape _ (hash_of_range (b ++ charCodes NAMESPACE_UUID)))
      as [Lb _].
    rewrite <- (assemble_first_group _ La), <- (assemble_first_group _ Lb).
    now rewrite E.
  - intros E. unfold hex_of_hash. now rewrite E.
Qed.


(** *** The identity as a value of the [UUID] columns *)

Lemma uuid_cast_assemble c0 c1 c2 c3 c4 c5 c6 c7 :
  all_hex (hex8 c0 c1 c2 c3 c4 c5 c6 c7) = true ->
  uuid_cast (assemble (hex8 c0 c1 c2 c3 c4 c5 c6 c7))
  = Some (assemble (hex8 c0 c1 c2 c3 c4 c5 c6 c7)).
Proof.
  intros Hx. cbn [all_hex hex8] in Hx.
  repeat (apply andb_prop in Hx; destruct Hx as [? Hx]).
  assert (Hfour : is_hex "4" = true) by reflexivity.
  assert (Hlow : is_hex "a" = true) by reflexivity.
  assert (Hzero : is_hex "0" = true) by reflexivity.
  rewrite assemble_hex8. unfold uuid_cast, hex8.
  cbv beta iota fix delta [String.append].
  repeat (rewrite uuid_bytes_pair by assumption;
          first [ rewrite is_hex_skip_hyphen by assumption
                | cbn [skip_hyphen Ascii.eqb Bool.eqb andb negb
                       Nat.odd Nat.even Nat.ltb Nat.leb] ]).
  reflexivity.
Qed.

(** The [UUID] type of the store accepts every identity the resolver
    returns and prints it back unchanged: the text the functions filter
    and insert with is the canonical text of the value stored. *)
Theorem generateConsistentUUID_is_canonical_uuid_text (userId : code_units) :
  uuid_cast (generateConsistentUUID userId) = Some (generateConsistentUUID userId).
Proof.
  unfold generateConsistentUUID.
  destruct (hex_of_hash_shape _
              (hash_of_range (userId ++ charCodes NAMESPACE_UUID))) as [Hl Hx].
  destruct (eight_chars _ Hl) as (c0&c1&c2&c3&c4&c5&c6&c7&Hs).
  fold (hex8 c0 c1 c2 c3 c4 c5 c6 c7) in Hs.
  rewrite Hs in Hx |- *. now apply uuid_cast_assemble.
Qed.

(** *** The stored procedure *)

(** When the stored procedure does not fall back to the random value, its
    result differs from the TypeScript one unless the hash is zero: the
    last group is filled on the other side. *)
Theorem resolvers_differ_without_fallback
    (user_id : code_units) (random_uuid : string) (h : Z) :
  IdentitySQL.hash_of (user_id ++ charCodes IdentitySQL.namespace_uuid)%list
  = Some h ->
  h <> 0 ->
  IdentitySQL.generateConsistentUUID random_uuid user_id
  <> generateConsistentUUID user_id.
Proof.
  intros Hh Hne E.
  destruct (resolvers_agree_only_on_zero_hash user_id random_uuid h Hh E) as [Hz _].
  contradiction.
Qed.

Lemma resolvers_differ_without_fallback_witness :
  IdentitySQL.generateConsistentUUID "0b9d6c1e-3f4a-4d2b-8c7e-5a1f2e3d4c5b"
    (charCodes "tbm")
  <> generateConsistentUUID (charCodes "tbm").
Proof.
  apply (resolvers_differ_without_fallback (charCodes "tbm") _ 1682180237).
  - vm_compute. reflexivity.
  - lia.
Defined.

End ResolverFacts.

(** ** The assessment scorer, further *)

Module ScoringFacts.
Import Number NumberFacts Scorer ScorerFacts.

(** *** The pass mark *)

Lemma counters_in_range (qs : list Question) (ans : list Answer) :
  qs <> [] ->
  Z.of_nat (length qs) < 2 ^ 32 -> Z.of_nat (length ans) < 2 ^ 32 ->
  0 <= Z.of_nat (length (List.filter (marked_correct qs) ans)) < 2 ^ 32
  /\ 0 < Z.of_nat (length qs) < 2 ^ 32.
Proof.
  intros Hne Hqs Hans.
  pose proof (filter_length_le (marked_correct qs) ans).
  destruct qs; [congruence|]. cbn [length] in *. lia.
Qed.

(** The assessment is passed from 69.5 % of correct answers on: passing
    needs [correct / total >= 0.695], and every ratio above it passes. *)
Theorem passed_from_139_of_200 (qs : list Question) (ans : list Answer) :
  qs <> [] ->
  Z.of_nat (length qs) < 2 ^ 32 -> Z.of_nat (length ans) < 2 ^ 32 ->
  (passed (assess qs ans) = true ->
   139 * totalQuestions (assess qs ans) <= 200 * correctAnswers (assess qs ans))
  /\ (139 * totalQuestions (assess qs ans) < 200 * correctAnswers (assess qs ans) ->
      passed (assess qs ans) = true).
Proof.
  intros Hne Hqs Hans.
  destruct (counters_in_range qs ans Hne Hqs Hans) as [Hc Hn].
  rewrite assess_unfold. cbn [passed totalQuestions correctAnswers].
  set (c := Z.of_nat (length (List.filter (marked_correct qs) ans))) in *.
  set (n := Z.of_nat (length qs)) in *.
  pose proof (percentage_nearest c n Hc Hn) as Hp.
  set (s := percentage c n) in *.
  split; intros H.
  - apply Z.leb_le in H. nia.
  - apply Z.leb_le. nia.
Qed.

Lemma passed_from_139_of_200_witness :
  (passed (assess (sample_questions 23) (sample_answers 16)) = true ->
   139 * totalQuestions (assess (sample_questions 23) (sample_answers 16))
   <= 200 * correctAnswers (assess (sample_questions 23) (sample_answers 16)))
  /\ (139 * totalQuestions (assess (sample_questions 23) (sample_answers 16))
      < 200 * correctAnswers (assess (sample_questions 23) (sample_answers 16)) ->
      passed (assess (sample_questions 23) (sample_answers 16)) = true).
Proof.
  apply (passed_from_139_of_200 (sample_questions 23) (sample_answers 16)).
  - discriminate.
  - vm_compute. reflexivity.
  - vm_compute. reflexivity.
Defined.

Example sixteen_of_23_pass :
  score (assess (sample_questions 23) (sample_answers 16)) = 70
  /\ score (assess (sample_questions 200) (sample_answers 139)) = 70
  /\ score (assess (sample_questions 13) (sample_answers 9)) = 69.
Proof. vm_compute. repeat split; reflexivity. Qed.


(** *** The order of the canonical questions *)

Lemma find_question_Permutation qs qs' a :
  NoDup (map id qs) -> qs ≡ₚ qs' ->
  find_question qs' a = find_question qs a.
Proof.
  intros Hnd Hp.
  assert (Hnd' : NoDup (map id qs')).
  { change (NoDup (id <$> qs')). rewrite <- Hp. exact Hnd. }
  destruct (find_question qs a) as [q|] eqn:E.
  - apply find_question_Some in E as [Hin Hid].
    apply find_question_unique; [exact Hnd'| |exact Hid].
    now rewrite <- Hp.
  - destruct (find_question qs' a) as [q'|] eqn:E'; [|reflexivity].
    apply find_question_Some in E' as [Hin Hid].
    rewrite <- Hp in Hin.
    rewrite (find_question_unique qs a q' Hnd Hin Hid) in E. discriminate.
Qed.

Lemma evaluate_answers_Permutation qs qs' :
  NoDup (map id qs) -> qs ≡ₚ qs' ->
  forall ans c, evaluate_answers qs' c ans = evaluate_answers qs c ans.
Proof.
  intros Hnd Hp. induction ans as [|a ans IH]; intros c; [reflexivity|].
  cbn [evaluate_answers]. unfold evaluate_answer.
  rewrite (find_question_Permutation qs qs' a Hnd Hp).
  now rewrite IH.
Qed.

(** With distinct ids, the order in which the store returns the canonical
    questions does not matter: the whole result is the same. *)
Theorem assess_ignores_question_order (qs qs' : list Question) (ans : list Answer) :
  NoDup (map id qs) -> qs ≡ₚ qs' -> assess qs' ans = assess qs ans.
Proof.
  intros Hnd Hp. unfold assess.
  rewrite (evaluate_answers_Permutation qs qs' Hnd Hp).
  now rewrite (Permutation_length Hp).
Qed.

Lemma assess_ignores_question_order_witness :
  assess (rev (sample_questions 10)) (sample_answers 7)
  = assess (sample_questions 10) (sample_answers 7).
Proof.
  apply (assess_ignores_question_order (sample_questions 10)).
  - apply (bool_decide_unpack _). vm_compute. exact I.
  - apply Permutation_rev.
Defined.

(** *** The two ends of the scale *)

Lemma marked_correct_own_answer qs q :
  NoDup (map id qs) -> q ∈ qs ->
  marked_correct qs {| questionId := id q; selectedAnswer := correct_answer q |} = true.
Proof.
  intros Hnd Hin. apply (marked_correct_iff _ _ Hnd).
  exists q. auto.
Qed.

(** Answering every question once with its correct choice scores 100 and
    passes; submitting no answer at all scores 0 and fails. *)
Theorem full_marks_and_no_marks (qs : list Question) :
  qs <> [] -> Z.of_nat (length qs) < 2 ^ 32 -> NoDup (map id qs) ->
  let all_right :=
    map (fun q => {| questionId := id q; selectedAnswer := correct_answer q |}) qs in
  correctAnswers (assess qs all_right) = totalQuestions (assess qs all_right)
  /\ score (assess qs all_right) = 100
  /\ passed (assess qs all_right) = true
  /\ assess qs []
     = {| totalQuestions := Z.of_nat (length qs); correctAnswers := 0;
          score := 0; passed := false; answers := [] |}.
Proof.
  intros Hne Hlen Hnd all_right.
  assert (Hn : 0 < Z.of_nat (length qs) < 2 ^ 32).
  { destruct qs; [congruence|]. cbn [length] in *. lia. }
  assert (Hall : List.filter (marked_correct qs) all_right = all_right).
  { unfold all_right.
    assert (G : forall l, (forall q, q ∈ l -> q ∈ qs) ->
              List.filter (marked_correct qs)
                (map (fun q => {| questionId := id q;
                                  selectedAnswer := correct_answer q |}) l)
              = map (fun q => {| questionId := id q;
                                 selectedAnswer := correct_answer q |}) l).
    { induction l as [|q l IH]; intros Hsub; [reflexivity|].
      cbn [map List.filter].
      rewrite (marked_correct_own_answer qs q Hnd) by (apply Hsub; left).
      rewrite IH; [reflexivity|]. intros q' Hq'. apply Hsub. now right. }
    apply G. auto. }
  rewrite !assess_unfold. cbn [correctAnswers totalQuestions score passed answers].
  rewrite Hall. unfold all_right. rewrite !length_map.
  set (n := Z.of_nat (length qs)) in *.
  pose proof (percentage_nearest n n ltac:(lia) Hn) as Hp.
  assert (Hs : percentage n n = 100) by nia.
  rewrite Hs. cbn [List.filter length map].
  rewrite percentage_zero by lia.
  repeat split.
Qed.

Lemma full_marks_and_no_marks_witness :
  score (assess (sample_questions 10)
           (map (fun q => {| questionId := id q; selectedAnswer := correct_answer q |})
                (sample_questions 10))) = 100.
Proof.
  apply (full_marks_and_no_marks (sample_questions 10)).
  - discriminate.
  - vm_compute. reflexivity.
  - apply (bool_decide_unpack _). vm_compute. exact I.
Defined.


(** *** More correct answers, no lower score *)

Lemma percentage_monotone c c' n :
  0 <= c <= c' -> c' < 2 ^ 32 -> 0 < n < 2 ^ 32 ->
  percentage c n <= percentage c' n.
Proof.
  intros Hc Hc' Hn.
  destruct (Z.eq_dec c c') as [->|Hne]; [lia|].
  pose proof (percentage_nearest c n ltac:(lia) Hn) as H1.
  pose proof (percentage_nearest c' n ltac:(lia) Hn) as H2.
  set (s := percentage c n) in *. set (s' := percentage c' n) in *.
  assert (H : - n < (s' - s) * n) by nia.
  nia.
Qed.

(** The score, a rounding of a rounded quotient, is still monotone in the
    number of correct answers: a submission with at least as many correct
    answers scores at least as much, and passes if the other does. *)
Theorem score_grows_with_correct_answers (qs : list Question) (ans ans' : list Answer) :
  qs <> [] -> Z.of_nat (length qs) < 2 ^ 32 ->
  Z.of_nat (length ans) < 2 ^ 32 -> Z.of_nat (length ans') < 2 ^ 32 ->
  correctAnswers (assess qs ans) <= correctAnswers (assess qs ans') ->
  score (assess qs ans) <= score (assess qs ans')
  /\ (passed (assess qs ans) = true -> passed (assess qs ans') = true).
Proof.
  intros Hne Hqs Hans Hans'.
  destruct (counters_in_range qs ans Hne Hqs Hans) as [Hc Hn].
  destruct (counters_in_range qs ans' Hne Hqs Hans') as [Hc' _].
  rewrite !assess_unfold. cbn [correctAnswers score passed].
  intros Hle.
  pose proof (percentage_monotone _ _ _ (conj (proj1 Hc) Hle) (proj2 Hc') Hn) as Hm.
  split; [exact Hm|].
  intros H. apply Z.leb_le in H. apply Z.leb_le. lia.
Qed.

Lemma score_grows_with_correct_answers_witness :
  score (assess (sample_questions 40) (sample_answers 22))
  <= score (assess (sample_questions 40) (sample_answers 23)).
Proof.
  apply (score_grows_with_correct_answers
           (sample_questions 40) (sample_answers 22) (sample_answers 23)).
  - discriminate.
  - vm_compute. reflexivity.
  - vm_compute. reflexivity.
  - vm_compute. reflexivity.
  - vm_compute. discriminate.
Defined.

End ScoringFacts.

(** ** The profiles *)

Module ProfileFacts.
Import JS Database DatabaseFacts Profiles.

Lemma coalesce_idem a b : coalesce (coalesce a b) b = coalesce a b.
Proof. now destruct a. Qed.

Lemma coalesce_keeps a b v : a = Some v -> coalesce a b = Some v.
Proof. now intros ->. Qed.

Lemma existsb_false_In {A} (p : A -> bool) (l : list A) x :
  existsb p l = false -> In x l -> p x = false.
Proof.
  intros H Hin. destruct (p x) eqn:E; [|reflexivity].
  assert (existsb p l = true) by (apply existsb_exists; eauto). congruence.
Qed.

Lemma map_unchanged {A} (f : A -> A) (l : list A) :
  (forall x, In x l -> f x = x) -> map f l = l.
Proof.
  induction l as [|x l IH]; intros H; [reflexivity|].
  cbn [map]. rewrite H by now left. rewrite IH; [reflexivity|].
  intros y Hy. apply H. now right.
Qed.

Lemma Forall2_map_same {A} (R : A -> A -> Prop) (f : A -> A) (l : list A) :
  (forall x, R x (f x)) -> Forall2 R l (map f l).
Proof. intros H. induction l; cbn [map]; constructor; auto. Qed.

Lemma string_opt_eqb_Some a b : string_opt_eqb a b = true <-> a = Some b.
Proof.
  destruct a as [v|]; cbn [string_opt_eqb]; [|split; discriminate].
  rewrite String.eqb_eq. split; congruence.
Qed.

Lemma coalesce_is_Some a b : is_Some (coalesce a b).
Proof. destruct a; eexists; reflexivity. Qed.

Lemma coalesce_role r p_role : coalesce (role r) p_role = Some (role_text r p_role).
Proof. unfold role_text. now destruct (role r). Qed.

Section EnsureUserProfile.
Variable user_role : string -> bool.
Variables p_user_id p_full_name p_email p_role p_auth_provider : string.

(** A successful call leaves a row under the id asked for. *)
Lemma ensure_user_profile_leaves_the_id now rows rows' :
  ensure_user_profile user_role now p_user_id p_full_name p_email p_role
    p_auth_provider rows = DbOk rows' ->
  exists row, In row rows' /\ profile_id row = p_user_id.
Proof.
  unfold ensure_user_profile.
  destruct (existsb (fun r => String.eqb (profile_id r) p_user_id) rows) eqn:Eid.
  - destruct (List.find _ rows); [discriminate|]. intros [= <-].
    apply existsb_exists in Eid as (r0 & Hin0 & Hid0).
    eexists. split; [apply in_map, Hin0|].
    rewrite Hid0. cbn [profile_id]. now apply String.eqb_eq.
  - destruct (existsb (fun r => string_opt_eqb (email r) p_email) rows) eqn:Eem.
    + destruct (List.find _ _); [discriminate|].
      destruct (_ =? 1)%nat; [|discriminate]. intros [= <-].
      apply existsb_exists in Eem as (r0 & Hin0 & Hem0).
      eexists. split; [apply in_map, Hin0|].
      rewrite Hem0. reflexivity.
    + destruct (user_role p_role); [|discriminate]. intros [= <-].
      eexists. split; [apply in_or_app; right; left; reflexivity|reflexivity].
Qed.

(** The rows under that id are then complete: the columns that were
    [NULL] are filled, and the role went through the cast. *)
Lemma ensure_user_profile_completes now rows rows' :
  ensure_user_profile user_role now p_user_id p_full_name p_email p_role
    p_auth_provider rows = DbOk rows' ->
  forall row, In row rows' -> profile_id row = p_user_id -> complete user_role row.
Proof.
  unfold ensure_user_profile.
  destruct (existsb (fun r => String.eqb (profile_id r) p_user_id) rows) eqn:Eid.
  - destruct (List.find _ rows) eqn:Hfind; [discriminate|]. intros [= <-].
    intros row Hrow Hid. apply in_map_iff in Hrow as (r & <- & Hr).
    pose proof (List.find_none _ _ Hfind r Hr) as Hcast. cbv beta in Hcast.
    destruct (String.eqb (profile_id r) p_user_id) eqn:E.
    + cbn [andb] in Hcast. apply negb_false_iff in Hcast.
      unfold complete. cbn [full_name email role auth_provider].
      rewrite coalesce_role.
      split; [apply coalesce_is_Some|]. split; [apply coalesce_is_Some|].
      split; [apply coalesce_is_Some|].
      eexists. split; [reflexivity|exact Hcast].
    + apply String.eqb_neq in E. contradiction.
  - destruct (existsb (fun r => string_opt_eqb (email r) p_email) rows) eqn:Eem.
    + destruct (List.find _ _) eqn:Hfind; [discriminate|].
      destruct (_ =? 1)%nat eqn:Hone; [|discriminate]. intros [= <-].
      apply Nat.eqb_eq in Hone.
      rewrite firstn_all2 in Hfind by lia.
      intros row Hrow Hid. apply in_map_iff in Hrow as (r & <- & Hr).
      destruct (string_opt_eqb (email r) p_email) eqn:E.
      * assert (Hin : In r (List.filter (fun r => string_opt_eqb (email r) p_email)
                              rows)) by (apply List.filter_In; auto).
        pose proof (List.find_none _ _ Hfind r Hin) as Hcast. cbv beta in Hcast.
        apply negb_false_iff in Hcast.
        apply string_opt_eqb_Some in E.
        unfold complete. cbn [full_name email role auth_provider].
        rewrite coalesce_role, E.
        split; [apply coalesce_is_Some|]. split; [eexists; reflexivity|].
        split; [apply coalesce_is_Some|].
        eexists. split; [reflexivity|exact Hcast].
      * pose proof (existsb_false_In _ _ r Eid Hr) as Hne. cbv beta in Hne.
        apply String.eqb_neq in Hne. contradiction.
    + destruct (user_role p_role) eqn:Hcast; [|discriminate]. intros [= <-].
      intros row Hrow Hid. apply in_app_or in Hrow as [Hr|[<-|[]]].
      * pose proof (existsb_false_In _ _ row Eid Hr) as Hne. cbv beta in Hne.
        apply String.eqb_neq in Hne. contradiction.
      * unfold complete. cbn [full_name email role auth_provider].
        split; [eexists; reflexivity|]. split; [eexists; reflexivity|].
        split; [eexists; reflexivity|].
        eexists. split; [reflexivity|exact Hcast].
Qed.

(** On such rows a call finds the profile by its id, and sets [updated_at]
    only. *)
Lemma ensure_user_profile_on_complete now rows :
  (exists row, In row rows /\ profile_id row = p_user_id) ->
  (forall row, In row rows -> profile_id row = p_user_id ->
               complete user_role row) ->
  ensure_user_profile user_role now p_user_id p_full_name p_email p_role
    p_auth_provider rows
  = DbOk (map (fun r => if String.eqb (profile_id r) p_user_id
                        then stamped now r else r) rows).
Proof.
  intros (r0 & Hin0 & Hid0) Hall. unfold ensure_user_profile.
  assert (Eid : existsb (fun r => String.eqb (profile_id r) p_user_id) rows = true).
  { apply existsb_exists. exists r0. split; [exact Hin0|].
    now apply String.eqb_eq. }
  rewrite Eid.
  destruct (List.find _ rows) as [r|] eqn:Hfind.
  - apply List.find_some in Hfind as [Hr Hbad].
    apply andb_true_iff in Hbad as [Hid Hbad].
    apply String.eqb_eq in Hid.
    destruct (Hall r Hr Hid) as (_ & _ & _ & label & Hrole & Hlabel).
    unfold role_text in Hbad. rewrite Hrole in Hbad.
    change (negb (user_role label) = true) in Hbad.
    rewrite Hlabel in Hbad. discriminate.
  - f_equal. apply map_ext_in. intros r Hr.
    destruct (String.eqb (profile_id r) p_user_id) eqn:E; [|reflexivity].
    apply String.eqb_eq in E.
    destruct (Hall r Hr E) as ([n Hn] & [e He] & [a Ha] & label & Hrole & _).
    unfold stamped. rewrite Hn, He, Ha, Hrole. reflexivity.
Qed.

End EnsureUserProfile.

(** A successful call leaves a profile under the id asked for, and a
    further call with the same arguments, at whatever time, succeeds and
    changes nothing but the [updated_at] of that profile, which it sets to
    its own time: the procedure is idempotent up to that column. *)
Theorem ensure_user_profile_again_only_stamps
    (user_role : string -> bool) (now now' : Date)
    (p_user_id p_full_name p_email p_role p_auth_provider : string)
    (rows rows' : list ProfileRow) :
  ensure_user_profile user_role now p_user_id p_full_name p_email p_role
    p_auth_provider rows = DbOk rows' ->
  (exists row, row ∈ rows' /\ profile_id row = p_user_id)
  /\ ensure_user_profile user_role now' p_user_id p_full_name p_email p_role
       p_auth_provider rows'
     = DbOk (map (fun r => if String.eqb (profile_id r) p_user_id
                           then stamped now' r else r) rows').
Proof.
  intros H.
  pose proof (ensure_user_profile_leaves_the_id _ _ _ _ _ _ _ _ _ H) as Hid.
  pose proof (ensure_user_profile_completes _ _ _ _ _ _ _ _ _ H) as Hall.
  split.
  - destruct Hid as (row & Hin & Hrow). exists row.
    split; [now apply list_elem_of_In|exact Hrow].
  - now apply ensure_user_profile_on_complete.
Qed.

Lemma ensure_user_profile_again_only_stamps_witness :
  ensure_user_profile (user_role sample_env) (sample_date 20)
    "6444088d-6444-4444-a644-6444088d0000" "Student" "tbm@temp.com" "student"
    "clerk"
    [{| profile_id := "6444088d-6444-4444-a644-6444088d0000";
        full_name := Some "Student"; email := Some "tbm@temp.com";
        role := Some "student"; auth_provider := Some "clerk";
        profile_updated_at := None |}]
  = DbOk [{| profile_id := "6444088d-6444-4444-a644-6444088d0000";
             full_name := Some "Student"; email := Some "tbm@temp.com";
             role := Some "student"; auth_provider := Some "clerk";
             profile_updated_at := Some (sample_date 20) |}].
Proof.
  exact (proj2 (ensure_user_profile_again_only_stamps
                  (user_role sample_env) (sample_date 10) (sample_date 20)
                  "6444088d-6444-4444-a644-6444088d0000" "Student"
                  "tbm@temp.com" "student" "clerk" []
                  [{| profile_id := "6444088d-6444-4444-a644-6444088d0000";
                      full_name := Some "Student"; email := Some "tbm@temp.com";
                      role := Some "student"; auth_provider := Some "clerk";
                      profile_updated_at := None |}]
                  eq_refl)).
Defined.

(** The procedure never deletes a profile and never overwrites a name, an
    e-mail address, a role or a provider that is set: the rows that were
    there stay, in place, with at most their [NULL] columns filled (and,
    for the row found by e-mail, the id replaced), and at most one row is
    added. *)
Theorem ensure_user_profile_keeps_what_is_set
    (user_role : string -> bool) (now : Date)
    (p_user_id p_full_name p_email p_role p_auth_provider : string)
    (rows rows' : list ProfileRow) :
  ensure_user_profile user_role now p_user_id p_full_name p_email p_role
    p_auth_provider rows = DbOk rows' ->
  exists kept added,
    rows' = (kept ++ added)%list
    /\ Forall2 (filled_from p_user_id p_email) rows kept
    /\ (length added <= 1)%nat
    /\ Forall (fun r => profile_id r = p_user_id) added.
Proof.
  unfold ensure_user_profile.
  destruct (existsb (fun r => String.eqb (profile_id r) p_user_id) rows) eqn:Eid.
  - destruct (List.find _ rows); [discriminate|].
    intros [= <-]. eexists _, []. rewrite app_nil_r.
    split; [reflexivity|]. split; [|split; [cbn; lia|constructor]].
    apply Forall2_map_same. intros r.
    destruct (String.eqb (profile_id r) p_user_id) eqn:E.
    + apply String.eqb_eq in E.
      repeat split; cbn [full_name email role auth_provider profile_id];
        try (intros v Hv; now apply coalesce_keeps); auto.
      intros Hne. contradiction.
    + repeat split; auto.
  - destruct (existsb (fun r => string_opt_eqb (email r) p_email) rows) eqn:Eem.
    + destruct (List.find _ _); [discriminate|].
      destruct (_ =? 1)%nat; [|discriminate].
      intros [= <-]. eexists _, []. rewrite app_nil_r.
      split; [reflexivity|]. split; [|split; [cbn; lia|constructor]].
      apply Forall2_map_same. intros r.
      destruct (string_opt_eqb (email r) p_email) eqn:E.
      * apply string_opt_eqb_Some in E.
        repeat split; cbn [full_name email role auth_provider profile_id];
          try (intros v Hv; now apply coalesce_keeps); auto.
        intros _ Hne. contradiction.
      * repeat split; auto.
    + destruct (user_role p_role); [|discriminate].
      intros [= <-]. eexists rows, [_].
      split; [reflexivity|]. split; [|split; [cbn; lia|repeat constructor]].
      rewrite <- (map_id rows) at 2. apply Forall2_map_same. intros r.
      repeat split; auto.
Qed.

Lemma ensure_user_profile_keeps_what_is_set_witness :
  exists kept added,
    [{| profile_id := "6444088d-6444-4444-a644-6444088d0000";
        full_name := Some "Ada"; email := Some "tbm@temp.com";
        role := Some "student"; auth_provider := Some "clerk";
        profile_updated_at := Some (sample_date 10) |}]
    = (kept ++ added)%list
    /\ Forall2 (filled_from "6444088d-6444-4444-a644-6444088d0000" "tbm@temp.com")
         [{| profile_id := "11111111-1111-4111-a111-111111110000";
             full_name := Some "Ada"; email := Some "tbm@temp.com";
             role := None; auth_provider := None;
             profile_updated_at := None |}] kept
    /\ (length added <= 1)%nat
    /\ Forall (fun r => profile_id r = "6444088d-6444-4444-a644-6444088d0000") added.
Proof.
  apply (ensure_user_profile_keeps_what_is_set (user_role sample_env)
           (sample_date 10) _ "Student" "tbm@temp.com" "student" "clerk").
  reflexivity.
Defined.

End ProfileFacts.

(** ** The certificates *)

Module CertificateFacts.
Import JS Database DatabaseFacts Learning LearningFacts Frames.

Lemma charCodes_app (s t : string) :
  charCodes (s ++ t) = (charCodes s ++ charCodes t)%list.
Proof.
  induction s as [|c s IH]; [reflexivity|].
  change (String c s ++ t) with (String c (s ++ t)).
  cbn [charCodes app]. now rewrite IH.
Qed.

(** The ids of the profiles after [public.ensure_user_profile]: those that
    were there, and the one asked for. *)
Lemma ensure_user_profile_ids (P : string -> Prop)
    (user_role : string -> bool) (now : Date)
    (p_user_id p_full_name p_email p_role p_auth_provider : string)
    (rows rows' : list ProfileRow) :
  ensure_user_profile user_role now p_user_id p_full_name p_email p_role
    p_auth_provider rows = DbOk rows' ->
  P p_user_id ->
  Forall (fun p => P (profile_id p)) rows ->
  Forall (fun p => P (profile_id p)) rows'.
Proof.
  unfold ensure_user_profile. intros H Hid Hrows.
  destruct (existsb _ rows).
  - destruct (List.find _ rows); [discriminate|].
    injection H as <-. apply Forall_map.
    eapply Forall_impl; [exact Hrows|]. intros r Hr. cbn beta.
    now destruct (String.eqb (profile_id r) p_user_id).
  - destruct (existsb _ rows).
    + destruct (List.find _ _); [discriminate|].
      destruct (_ =? 1)%nat; [|discriminate].
      injection H as <-. apply Forall_map.
      eapply Forall_impl; [exact Hrows|]. intros r Hr. cbn beta.
      now destruct (string_opt_eqb (email r) p_email).
    + destruct (user_role p_role); [|discriminate].
      injection H as <-. apply Forall_app. split; [exact Hrows|].
      repeat constructor. exact Hid.
Qed.

Lemma rpc_profile_ids (P : string -> Prop) env clerk n e r st out st' :
  rpc_get_or_create_user_profile env clerk n e r st = (out, st') ->
  P (IdentitySQL.generateConsistentUUID (gen_random_uuid env) (charCodes clerk)) ->
  Forall (fun p => P (profile_id p)) (profiles st) ->
  Forall (fun p => P (profile_id p)) (profiles st').
Proof.
  unfold rpc_get_or_create_user_profile, db_write. intros H Hid Hrows.
  destruct (fault env ProfileRpc); [injection H as _ <-; exact Hrows|].
  destruct (ensure_user_profile _ _ _ _ _ _) as [rows'|] eqn:E.
  - injection H as _ <-. cbn [profiles set_profiles].
    eapply ensure_user_profile_ids; eauto.
  - injection H as _ <-. exact Hrows.
Qed.

Lemma ensure_profile_ids (P : string -> Prop) env clerk st out st' :
  ensure_profile env clerk st = (out, st') ->
  P (IdentitySQL.generateConsistentUUID (gen_random_uuid env) (charCodes clerk)) ->
  Forall (fun p => P (profile_id p)) (profiles st) ->
  Forall (fun p => P (profile_id p)) (profiles st').
Proof.
  unfold ensure_profile, try_catch, bind. intros H Hid Hrows.
  destruct (rpc_get_or_create_user_profile _ _ _ _ _ st) as [[res|msg] st1] eqn:E;
    injection H as _ <-; eapply rpc_profile_ids; eauto.
Qed.

Lemma same_but_user_learning_refl st : same_but_user_learning st st.
Proof. repeat split. Qed.

Lemma insert_learning_frame env row st out st' :
  insert_learning env row st = (out, st') -> same_but_user_learning st st'.
Proof.
  unfold insert_learning, db_write.
  destruct (fault env LearningInsert); intros [= _ <-]; repeat split.
Qed.

(** Saving the assessment writes to [user_learning] only. *)
Lemma save_assessment_frame env request uuid course result st out st' :
  save_assessment env request uuid course result st = (out, st') ->
  same_but_user_learning st st'.
Proof.
  unfold save_assessment, bind, db_read.
  assert (Hins : forall row k,
    (let (o, st1) := insert_learning env row st in
     match o with
     | Returned r => k r st1
     | Thrown e => (Thrown e, st1)
     end) = (out, st') ->
    (forall r st1, k r st1 = (out, st') -> st' = st1) ->
    same_but_user_learning st st').
  { intros row k H Hk.
    destruct (insert_learning env row st) as [[r|msg] st1] eqn:E.
    - apply Hk in H as ->. eapply insert_learning_frame; eauto.
    - injection H as _ <-. eapply insert_learning_frame; eauto. }
  destruct (fault env LearningSelect) as [e|]; cbn [data_of].
  - intros H. eapply Hins; [exact H|].
    intros [r|e'] st1; cbn; intros [= _ <-]; reflexivity.
  - destruct (data_of (maybeSingle _)) as [existing|].
    + unfold db_write. destruct (fault env LearningUpdate);
        cbn; intros [= _ <-]; repeat split.
    + intros H. eapply Hins; [exact H|].
      intros [r|e'] st1; cbn; intros [= _ <-]; reflexivity.
Qed.


(** The first part of [evaluateAssessment] either stops before any call,
    or ensures the profile and then writes to [user_learning] only. *)
Lemma evaluate_and_save_frame env request clerk uuid st out st' :
  evaluate_and_save env request clerk uuid st = (out, st') ->
  st' = st
  \/ exists st1, ensure_profile env clerk st = (Returned tt, st1)
                 /\ same_but_user_learning st1 st'.
Proof.
  unfold evaluate_and_save.
  destruct (questions request); [|intros [= _ <-]; now left].
  destruct (answers request) as [submitted|]; [|intros [= _ <-]; now left].
  destruct (truthy_string (courseId_of request)) as [course|];
    [|intros [= _ <-]; now left].
  intros H. right.
  destruct (learning_profile_step env clerk st) as (st1 & Hp & _).
  exists st1. split; [exact Hp|].
  unfold bind in H. rewrite Hp in H. unfold db_read in H.
  destruct (fault env QuestionsSelect).
  { injection H as _ <-. apply same_but_user_learning_refl. }
  destruct (select_course_questions course (course_questions st1)) as [|q qs].
  { injection H as _ <-. apply same_but_user_learning_refl. }
  destruct (save_assessment env request uuid course _ st1) as [[[]|msg] st2] eqn:E;
    injection H as _ <-; eapply save_assessment_frame; eauto.
Qed.

(** Without a profile under the identity, the certificate block issues
    nothing and touches nothing. *)
Lemma certificate_if_passed_without_profile env request clerk uuid course result st :
  Forall (fun p => profile_id p <> uuid) (profiles st) ->
  exists r, certificate_if_passed env request clerk uuid course result st
            = (Returned r, st)
            /\ success r = false /\ certificateId r = None.
Proof.
  intros Hnone. unfold certificate_if_passed.
  destruct (Scorer.passed result); [|eexists; repeat split].
  destruct (truthy_string (courseName_of request)); [|eexists; repeat split].
  assert (Hf : List.filter (fun p => String.eqb (profile_id p) uuid) (profiles st) = []).
  { induction Hnone as [|p l Hp _ IH]; [reflexivity|].
    cbn [List.filter]. apply String.eqb_neq in Hp. now rewrite Hp. }
  unfold try_catch, bind, db_read. rewrite Hf.
  destruct (fault env ProfileSelect); cbn; eexists; repeat split.
Qed.

(** The profile the service ensures is keyed by the stored procedure's
    resolver. For an external id that starts with [user_2] that key is the
    random value, not the identity the service itself computes: unless a
    profile already stands under that identity, an evaluation, passed or
    not, issues no certificate and reports none. *)
Theorem no_certificate_without_profile_under_the_identity
    (env : Env) (request : Request) (st : Store) (rest : string) :
  request_clerkUserId request = Some ("user_2" ++ rest) ->
  action request = evaluateAssessment ->
  gen_random_uuid env
  <> Identity.generateConsistentUUID (charCodes ("user_2" ++ rest)) ->
  Forall (fun p => profile_id p
                   <> Identity.generateConsistentUUID (charCodes ("user_2" ++ rest)))
         (profiles st) ->
  user_certificates (snd (serve env request st)) = user_certificates st
  /\ certificates (snd (serve env request st)) = certificates st
  /\ course_certificate_management (snd (serve env request st))
     = course_certificate_management st
  /\ (forall r, body (fst (serve env request st)) = SuccessBody (evaluation r) ->
      certificateGenerated r = false /\ result_certificateId r = None).
Proof.
  intros Hclerk Hact Hrandom Hnone.
  set (clerk := "user_2" ++ rest) in *.
  set (uuid := Identity.generateConsistentUUID (charCodes clerk)) in *.
  unfold serve. rewrite Hclerk, Hact.
  assert (Ht : truthy_string (Some clerk) = Some clerk) by reflexivity.
  rewrite Ht. fold uuid.
  unfold evaluateAssessment_action, bind.
  destruct (evaluate_and_save env request clerk uuid st) as [[[result course]|msg] st1] eqn:E.
  2:{ apply evaluate_and_save_frame in E as [->|(st0 & Hp & Hl)].
      - cbn. split; [reflexivity|]. split; [reflexivity|]. split; [reflexivity|].
        intros r0 Hb. discriminate Hb.
      - destruct (learning_profile_step env clerk st) as (st0' & Hp' & Hs).
        rewrite Hp in Hp'. injection Hp' as <-.
        destruct Hs as (_ & _ & _ & _ & _ & Hc & Hu & Hm).
        destruct Hl as (_ & _ & _ & _ & _ & Hc' & Hu' & Hm').
        cbn. rewrite Hc', Hu', Hm', Hc, Hu, Hm.
        split; [reflexivity|]. split; [reflexivity|]. split; [reflexivity|].
        intros r0 Hb. discriminate Hb. }
  assert (Hst1 : Forall (fun p => profile_id p <> uuid) (profiles st1)
                 /\ user_certificates st1 = user_certificates st
                 /\ certificates st1 = certificates st
                 /\ course_certificate_management st1
                    = course_certificate_management st).
  { apply evaluate_and_save_frame in E as [->|(st0 & Hp & Hl)]; [auto|].
    destruct (learning_profile_step env clerk st) as (st0' & Hp' & Hs).
    rewrite Hp in Hp'. injection Hp' as <-.
    destruct Hs as (_ & _ & _ & _ & _ & Hc & Hu & Hm).
    destruct Hl as (_ & Hpr & _ & _ & _ & Hc' & Hu' & Hm').
    rewrite Hpr, Hc', Hu', Hm', Hc, Hu, Hm. split; [|auto].
    eapply (ensure_profile_ids (fun i => i <> uuid)); [exact Hp| |exact Hnone].
    unfold clerk. rewrite charCodes_app.
    rewrite IdentityFacts.sql_resolver_random_after_user_2. exact Hrandom. }
  destruct Hst1 as (Hnone1 & Hu & Hc & Hm).
  destruct (certificate_if_passed_without_profile env request clerk uuid course
              result st1 Hnone1) as (r & -> & Hs & Hi).
  cbn. rewrite Hu, Hc, Hm.
  split; [reflexivity|]. split; [reflexivity|]. split; [reflexivity|].
  intros r0 [= <-]. cbn. rewrite Hi. auto.
Qed.


Lemma no_certificate_without_profile_under_the_identity_witness :
  user_certificates
    (snd (serve sample_env (sample_request evaluateAssessment 8)
            (set_profiles [] sample_store)))
  = [].
Proof.
  apply (no_certificate_without_profile_under_the_identity
           sample_env (sample_request evaluateAssessment 8)
           (set_profiles [] sample_store) "abc").
  - reflexivity.
  - reflexivity.
  - vm_compute. discriminate.
  - constructor.
Defined.

Example passed_but_no_certificate :
  fst (serve sample_env (sample_request evaluateAssessment 8)
         (set_profiles [] sample_store))
  = {| http_status := 200;
       body := SuccessBody (evaluation
         {| assessmentResult :=
              Scorer.assess (Scorer.sample_questions 10) (Scorer.sample_answers 8);
            saved := true;
            certificateGenerated := false;
            result_certificateId := None |}) |}
  /\ Scorer.passed (Scorer.assess (Scorer.sample_questions 10)
                      (Scorer.sample_answers 8)) = true.
Proof. split; vm_compute; reflexivity. Qed.

(** *** [generateCertificate], path by path *)

Lemma maybeSingle_Some {A} (l : list A) (x : A) :
  data_of (maybeSingle l) = Some x -> l = [x].
Proof.
  destruct l as [|y [|z l]]; cbn; intros H; try discriminate.
  now injection H as ->.
Qed.

Lemma single_Ok {A} (l : list A) (x : A) : single l = DbOk x -> l = [x].
Proof.
  destruct l as [|y [|z l]]; cbn; intros H; try discriminate.
  now injection H as ->.
Qed.

(** What a call of [issue_certificate] can do: fail without a write, add a
    certificate template and fail, or add the user's certificate. *)
Lemma issue_certificate_cases env params st :
  (exists msg, issue_certificate env params st = (Thrown msg, st))
  \/ (exists r, issue_certificate env params st = (Returned r, st)
                /\ success r = false)
  \/ (exists tpl,
        issue_certificate env params st
        = (Thrown "Assignment to constant variable.",
           set_certificates (certificates st ++ [tpl])%list st)
        /\ (fault env CertificateSelect <> None
            \/ length (default_certificates (certificates st)) <> 1%nat))
  \/ (exists tpl row,
        issue_certificate env params st
        = (Returned (issued (user_certificate_id row)),
           set_user_certificates (user_certificates st ++ [row])%list st)
        /\ default_certificates (certificates st) = [tpl]
        /\ uc_certificate_id row = certificate_row_id tpl
        /\ uc_user_id row = userId params
        /\ uc_course_id row = courseId params
        /\ uc_is_active row = true
        /\ uc_score row = score params).
Proof.
  unfold issue_certificate, bind, db_read.
  assert (Hcreate : forall st0 : Store,
    fault env CertificateSelect <> None
    \/ length (default_certificates (certificates st0)) <> 1%nat ->
    (exists r, create_default_certificate env st0 = (Returned r, st0)
               /\ success r = false)
    \/ (exists tpl,
          create_default_certificate env st0
          = (Thrown "Assignment to constant variable.",
             set_certificates (certificates st0 ++ [tpl])%list st0)
          /\ (fault env CertificateSelect <> None
              \/ length (default_certificates (certificates st0)) <> 1%nat))).
  { intros st0 Hwhy. unfold create_default_certificate, bind, db_write.
    destruct (fault env CertificateInsert); cbn.
    - left. eexists. split; reflexivity.
    - right. eexists. split; [reflexivity|exact Hwhy]. }
  destruct (fault env CertificateSelect) as [e|] eqn:Hsel.
  { destruct (Hcreate st) as [H|H]; [left; congruence|auto|auto]. }
  destruct (single (default_certificates (certificates st))) as [tpl|err] eqn:Hs.
  - apply single_Ok in Hs.
    unfold create_user_certificate, bind, db_write.
    destruct (fault env UserCertificateInsert); cbn.
    + left. eexists. reflexivity.
    + right. right. right.
      match goal with
      | |- context [set_user_certificates (_ ++ [?row]) _] =>
          exists tpl, row; split; [reflexivity|]
      end.
      cbn. auto 10.
  - assert (Hlen : length (default_certificates (certificates st)) <> 1%nat).
    { destruct (default_certificates (certificates st)) as [|a [|b l]];
        cbn in *; try discriminate; lia. }
    destruct (Hcreate st) as [H|H]; auto.
Qed.


(** What a call of [generateCertificate] can do, with the store [st0]
    that step 2 leaves. *)
Lemma generateCertificate_cases env params st :
  (score params < PASSING_SCORE
   /\ generateCertificate env params st
      = (Returned {| success := false; certificateId := None;
                     message := Some "Score below passing threshold" |}, st))
  \/ (PASSING_SCORE <= score params
      /\ exists st0,
           update_certificate_management env params st = (Returned tt, st0)
           /\ same_but_certificate_management st st0
           /\ ((exists existing,
                  active_certificates (userId params) (courseId params)
                    (user_certificates st) = [existing]
                  /\ generateCertificate env params st
                     = (Returned (already_issued (user_certificate_id existing)), st0))
               \/ (exists r, generateCertificate env params st = (Returned r, st0)
                             /\ success r = false)
               \/ (exists r tpl,
                     generateCertificate env params st
                     = (Returned r,
                        set_certificates (certificates st0 ++ [tpl])%list st0)
                     /\ success r = false)
               \/ (exists tpl row,
                     generateCertificate env params st
                     = (Returned (issued (user_certificate_id row)),
                        set_user_certificates
                          (user_certificates st0 ++ [row])%list st0)
                     /\ default_certificates (certificates st0) = [tpl]
                     /\ uc_certificate_id row = certificate_row_id tpl
                     /\ uc_user_id row = userId params
                     /\ uc_course_id row = courseId params
                     /\ uc_is_active row = true
                     /\ uc_score row = score params))).
Proof.
  unfold generateCertificate.
  destruct (score params <? PASSING_SCORE) eqn:E.
  { left. apply Z.ltb_lt in E. auto. }
  right. apply Z.ltb_ge in E. split; [exact E|].
  destruct (update_certificate_management_spec env params st) as (st0 & Hupd & Hsame).
  exists st0. split; [exact Hupd|]. split; [exact Hsame|].
  pose proof Hsame as (_ & _ & _ & _ & _ & _ & _ & Hu).
  unfold try_catch, generateCertificate_try, bind. rewrite Hupd.
  unfold db_read.
  assert (Hissue :
    (exists r, (let (o, st') := issue_certificate env params st0 in
                match o with
                | Returned a => (Returned a, st')
                | Thrown e =>
                    (Returned {| success := false; certificateId := None;
                                 message := Some (if String.eqb e ""
                                                  then "Certificate generation failed"
                                                  else e) |}, st')
                end) = (Returned r, st0) /\ success r = false)
    \/ (exists r tpl,
          (let (o, st') := issue_certificate env params st0 in
           match o with
           | Returned a => (Returned a, st')
           | Thrown e =>
               (Returned {| success := false; certificateId := None;
                            message := Some (if String.eqb e ""
                                             then "Certificate generation failed"
                                             else e) |}, st')
           end) = (Returned r, set_certificates (certificates st0 ++ [tpl])%list st0)
          /\ success r = false)
    \/ (exists tpl row,
          (let (o, st') := issue_certificate env params st0 in
           match o with
           | Returned a => (Returned a, st')
           | Thrown e =>
               (Returned {| success := false; certificateId := None;
                            message := Some (if String.eqb e ""
                                             then "Certificate generation failed"
                                             else e) |}, st')
           end) = (Returned (issued (user_certificate_id row)),
                   set_user_certificates (user_certificates st0 ++ [row])%list st0)
          /\ default_certificates (certificates st0) = [tpl]
          /\ uc_certificate_id row = certificate_row_id tpl
          /\ uc_user_id row = userId params
          /\ uc_course_id row = courseId params
          /\ uc_is_active row = true
          /\ uc_score row = score params)).
  { destruct (issue_certificate_cases env params st0)
      as [(msg & ->)|[(r & -> & Hr)|[(tpl & -> & _)|(tpl & row & -> & H)]]].
    - left. eexists. split; reflexivity.
    - left. eexists. split; [reflexivity|exact Hr].
    - right. left. eexists _, tpl. split; reflexivity.
    - right. right. exists tpl, row. split; [reflexivity|exact H]. }
  destruct (fault env UserCertificateSelect); cbn [data_of].
  { right. exact Hissue. }
  destruct (data_of (maybeSingle _)) as [existing|] eqn:Hex.
  - left. apply maybeSingle_Some in Hex. rewrite Hu in Hex.
    exists existing. split; [exact Hex|reflexivity].
  - right. exact Hissue.
Qed.

(** A success of [generateCertificate] is never empty: the identifier it
    returns is that of an active certificate row of the identity and
    course of the call, which the store holds when the call returns, and
    the score of the call reached the passing score. *)
Theorem generateCertificate_success_is_backed (env : Env) (params : Params) (st : Store) :
  exists r, fst (generateCertificate env params st) = Returned r
    /\ (success r = true ->
        PASSING_SCORE <= score params
        /\ exists row,
             row ∈ user_certificates (snd (generateCertificate env params st))
             /\ certificateId r = Some (user_certificate_id row)
             /\ uc_user_id row = userId params
             /\ uc_course_id row = courseId params
             /\ uc_is_active row = true).
Proof.
  destruct (generateCertificate_cases env params st)
    as [[Hlow ->]|(Hpass & st0 & _ & Hsame & Hcase)].
  { eexists. split; [reflexivity|]. cbn. discriminate. }
  pose proof Hsame as (_ & _ & _ & _ & _ & _ & _ & Hu).
  destruct Hcase as [(existing & Hact & ->)|[(r & -> & Hr)|[(r & tpl & -> & Hr)
                     |(tpl & row & -> & _ & _ & Huser & Hcourse & Hactive & _)]]].
  - eexists. split; [reflexivity|]. intros _. split; [exact Hpass|].
    exists existing. cbn [snd fst]. rewrite Hu.
    assert (Hin : In existing (active_certificates (userId params) (courseId params)
                                 (user_certificates st)))
      by (rewrite Hact; now left).
    apply List.filter_In in Hin as [Hin Hp].
    apply andb_prop in Hp as [Hp Ha]. apply andb_prop in Hp as [Hp1 Hp2].
    apply String.eqb_eq in Hp1, Hp2. apply Bool.eqb_prop in Ha.
    split; [now apply list_elem_of_In|]. auto.
  - exists r. split; [reflexivity|]. congruence.
  - exists r. split; [reflexivity|]. congruence.
  - eexists. split; [reflexivity|]. intros _. split; [exact Hpass|].
    exists row. cbn [snd fst user_certificates set_user_certificates].
    split; [apply elem_of_app; right; now apply list_elem_of_singleton|]. auto.
Qed.

Lemma same_but_certificate_tables_refl st : same_but_certificate_tables st st.
Proof. repeat split. Qed.

Lemma generateCertificate_frame env params st :
  same_but_certificate_tables st (snd (generateCertificate env params st)).
Proof.
  destruct (generateCertificate_cases env params st)
    as [[Hlow ->]|(Hpass & st0 & Hupd & Hsame & Hcase)].
  { apply same_but_certificate_tables_refl. }
  destruct Hsame as (Ha & Hp & Hpay & Hsub & Hl & Hq & Hc & Hu).
  destruct Hcase as [(existing & _ & ->)|[(r & -> & _)|[(r & tpl & -> & _)
                     |(tpl & row & -> & _)]]]; repeat split; cbn; auto.
Qed.

(** The certificate block of [evaluateAssessment] writes to the tables of
    the certificates only. *)
Lemma certificate_if_passed_frame env request clerk uuid course result st :
  same_but_certificate_tables st
    (snd (certificate_if_passed env request clerk uuid course result st)).
Proof.
  unfold certificate_if_passed.
  destruct (Scorer.passed result); [|apply same_but_certificate_tables_refl].
  destruct (truthy_string (courseName_of request));
    [|apply same_but_certificate_tables_refl].
  unfold try_catch, bind, db_read.
  assert (G : forall found : db_result (option ProfileRow),
    same_but_certificate_tables st
      (snd (let (o, st') :=
              match data_of found with
              | Some profileData =>
                  match truthy_string (full_name profileData) with
                  | Some user_name =>
                      generateCertificate env
                        {| userId := uuid; name := user_name; courseId := course;
                           courseName := s; score := Scorer.score result;
                           clerkUserId := Some clerk |}
                  | None =>
                      ret {| success := false; certificateId := None;
                             message := Some "No profile data available" |}
                  end
              | None =>
                  ret {| success := false; certificateId := None;
                         message := Some "No profile data available" |}
              end st in
            match o with
            | Returned a => (Returned a, st')
            | Thrown e =>
                ret {| success := false; certificateId := None;
                       message := Some "Certificate generation failed" |} st'
            end))).
  { intros found. destruct (data_of found) as [profileData|];
      [|apply same_but_certificate_tables_refl].
    destruct (truthy_string (full_name profileData)) as [user_name|];
      [|apply same_but_certificate_tables_refl].
    match goal with |- context [generateCertificate env ?p st] =>
      pose proof (generateCertificate_frame env p st) as Hf;
      destruct (generateCertificate env p st) as [[r|msg] st'] end; exact Hf. }
  destruct (fault env ProfileSelect); apply G.
Qed.

(** [generateCertificate] leaves the profiles, the payments, the
    subscriptions, the learning records and the questions alone; it adds
    at most one certificate template and at most one user certificate,
    changes none that was there, writes the tracking row of its own
    external id and course only, and with a score below the passing score
    it writes nothing at all. *)
Theorem generateCertificate_only_appends (env : Env) (params : Params) (st : Store) :
  same_but_certificate_tables st (snd (generateCertificate env params st))
  /\ (exists added,
        user_certificates (snd (generateCertificate env params st))
        = (user_certificates st ++ added)%list /\ (length added <= 1)%nat)
  /\ (exists added,
        certificates (snd (generateCertificate env params st))
        = (certificates st ++ added)%list /\ (length added <= 1)%nat)
  /\ (forall clerk course,
        (clerkUserId params, courseId params) <> (Some clerk, course) ->
        course_certificate_management (snd (generateCertificate env params st))
          !! (clerk, course)
        = course_certificate_management st !! (clerk, course))
  /\ (score params < PASSING_SCORE -> snd (generateCertificate env params st) = st).
Proof.
  assert (Hnil : forall {A} (l : list A),
            exists added, l = (l ++ added)%list /\ (length added <= 1)%nat).
  { intros A l. exists []. rewrite app_nil_r. split; [reflexivity|cbn; lia]. }
  destruct (generateCertificate_cases env params st)
    as [[Hlow ->]|(Hpass & st0 & Hupd & Hsame & Hcase)].
  { cbn [snd]. repeat split; auto. }
  assert (Hmgmt : forall clerk course,
            (clerkUserId params, courseId params) <> (Some clerk, course) ->
            course_certificate_management st0 !! (clerk, course)
            = course_certificate_management st !! (clerk, course)).
  { intros clerk course Hne. revert Hupd. unfold update_certificate_management.
    destruct (truthy_string (clerkUserId params)) as [c|] eqn:Hc;
      [|now intros [= <-]].
    apply truthy_string_Some in Hc.
    unfold try_catch, bind, db_write.
    destruct (fault env CertificateManagementRpc); cbn; intros [= <-]; [reflexivity|].
    cbn [course_certificate_management set_course_certificate_management].
    unfold update_course_certificate_management.
    apply lookup_insert_ne. congruence. }
  destruct Hsame as (Ha & Hp & Hpay & Hsub & Hl & Hq & Hc & Hu).
  assert (Hst' : exists st', snd (generateCertificate env params st) = st'
            /\ (st' = st0
                \/ (exists tpl, st' = set_certificates (certificates st0 ++ [tpl])%list st0)
                \/ (exists row, st' = set_user_certificates
                                        (user_certificates st0 ++ [row])%list st0))).
  { destruct Hcase as [(existing & _ & ->)|[(r & -> & _)|[(r & tpl & -> & _)
                       |(tpl & row & -> & _)]]]; eexists; (split; [reflexivity|]); eauto. }
  destruct Hst' as (st' & -> & Hst').
  split; [|split; [|split; [|split]]].
  - destruct Hst' as [->|[(tpl & ->)|(row & ->)]]; repeat split; cbn; auto.
  - destruct Hst' as [->|[(tpl & ->)|(row & ->)]]; cbn; rewrite Hu; auto.
    exists [row]. split; [reflexivity|cbn; lia].
  - destruct Hst' as [->|[(tpl & ->)|(row & ->)]]; cbn; rewrite Hc; auto.
    exists [tpl]. split; [reflexivity|cbn; lia].
  - intros clerk course Hne.
    destruct Hst' as [->|[(tpl & ->)|(row & ->)]]; cbn; now apply Hmgmt.
  - intros Hlow. unfold PASSING_SCORE in *. lia.
Qed.


(** *** Issuance without a usable certificate template *)

(** With a passing score and no certificate of the pair in the store, the
    call is the issuance of steps 4 to 6 after step 2, its throw turned
    into a failure. *)
Lemma generateCertificate_issues env params st :
  PASSING_SCORE <= score params ->
  active_certificates (userId params) (courseId params) (user_certificates st) = [] ->
  exists st0,
    same_but_certificate_management st st0
    /\ generateCertificate env params st
       = match issue_certificate env params st0 with
         | (Returned r, st') => (Returned r, st')
         | (Thrown e, st') =>
             (Returned {| success := false; certificateId := None;
                          message := Some (if String.eqb e ""
                                           then "Certificate generation failed"
                                           else e) |}, st')
         end.
Proof.
  intros Hscore Hnone. unfold generateCertificate.
  destruct (score params <? PASSING_SCORE) eqn:E; [apply Z.ltb_lt in E; lia|].
  destruct (update_certificate_management_spec env params st) as (st0 & Hupd & Hsame).
  exists st0. split; [exact Hsame|].
  pose proof Hsame as (_ & _ & _ & _ & _ & _ & _ & Hu).
  unfold try_catch, generateCertificate_try, bind. rewrite Hupd.
  unfold db_read. rewrite Hu, Hnone.
  destruct (fault env UserCertificateSelect); cbn [maybeSingle data_of];
    destruct (issue_certificate env params st0) as [[r|msg] st']; reflexivity.
Qed.

(** The template the function inserts when it finds no default one. *)
Lemma create_default_certificate_row env st :
  fault env CertificateInsert = None ->
  create_default_certificate env st
  = (Thrown "Assignment to constant variable.",
     set_certificates
       (certificates st
        ++ [{| certificate_row_id := generated_id env CertificateInsert;
               title := "Course Completion Certificate";
               description := "Certificate of successful course completion";
               certificate_type := "completion";
               certificate_is_active := true;
               auto_issue := true;
               min_score := PASSING_SCORE |}])%list st).
Proof.
  intros Hins. unfold create_default_certificate, bind, db_write.
  now rewrite Hins.
Qed.

(** When the store does not hold exactly one active certificate template
    of type [completion], none or several, a passing call inserts a
    template and then fails on the assignment to the constant
    [defaultCertificate]: it answers [success = false] with the message
    of that error, issues nothing, and leaves one template more than
    there was. *)
Theorem issuance_without_single_template_adds_a_template
    (env : Env) (params : Params) (st : Store) :
  PASSING_SCORE <= score params ->
  active_certificates (userId params) (courseId params) (user_certificates st) = [] ->
  fault env CertificateSelect = None ->
  fault env CertificateInsert = None ->
  length (default_certificates (certificates st)) <> 1%nat ->
  fst (generateCertificate env params st)
  = Returned {| success := false; certificateId := None;
                message := Some "Assignment to constant variable." |}
  /\ user_certificates (snd (generateCertificate env params st))
     = user_certificates st
  /\ certificates (snd (generateCertificate env params st))
     = (certificates st
        ++ [{| certificate_row_id := generated_id env CertificateInsert;
               title := "Course Completion Certificate";
               description := "Certificate of successful course completion";
               certificate_type := "completion";
               certificate_is_active := true;
               auto_issue := true;
               min_score := PASSING_SCORE |}])%list
  /\ length (default_certificates
               (certificates (snd (generateCertificate env params st))))
     = S (length (default_certificates (certificates st))).
Proof.
  intros Hscore Hnone Hsel Hins Hlen.
  destruct (generateCertificate_issues env params st Hscore Hnone)
    as (st0 & Hsame & ->).
  destruct Hsame as (_ & _ & _ & _ & _ & _ & Hc & Hu).
  assert (Hissue : issue_certificate env params st0
                   = create_default_certificate env st0).
  { unfold issue_certificate, bind, db_read. rewrite Hsel, Hc.
    destruct (default_certificates (certificates st)) as [|a [|b l]];
      cbn [single length] in *; [reflexivity|lia|reflexivity]. }
  rewrite Hissue, (create_default_certificate_row env st0 Hins).
  cbn [fst snd certificates user_certificates set_certificates].
  rewrite Hc, Hu. repeat split.
  unfold default_certificates. rewrite List.filter_app, length_app. cbn. lia.
Qed.

Lemma issuance_without_single_template_adds_a_template_witness :
  fst (generateCertificate sample_env sample_params
         (set_certificates [] sample_store))
  = Returned {| success := false; certificateId := None;
                message := Some "Assignment to constant variable." |}.
Proof.
  apply (issuance_without_single_template_adds_a_template
           sample_env sample_params (set_certificates [] sample_store)).
  - vm_compute. discriminate.
  - reflexivity.
  - reflexivity.
  - reflexivity.
  - cbn. lia.
Defined.

(** On a store without a template, the first passing call therefore
    fails; the template it left makes the next one succeed, with a
    certificate that refers to that template. *)
Theorem second_attempt_issues_after_the_first_created_the_template
    (env1 env2 : Env) (params : Params) (st : Store) :
  PASSING_SCORE <= score params ->
  active_certificates (userId params) (courseId params) (user_certificates st) = [] ->
  default_certificates (certificates st) = [] ->
  fault env1 CertificateSelect = None -> fault env1 CertificateInsert = None ->
  fault env2 CertificateSelect = None -> fault env2 UserCertificateInsert = None ->
  let st1 := snd (generateCertificate env1 params st) in
  fst (generateCertificate env1 params st)
  = Returned {| success := false; certificateId := None;
                message := Some "Assignment to constant variable." |}
  /\ fst (generateCertificate env2 params st1)
     = Returned (issued (generated_id env2 UserCertificateInsert))
  /\ exists row,
       user_certificates (snd (generateCertificate env2 params st1))
       = (user_certificates st ++ [row])%list
       /\ user_certificate_id row = generated_id env2 UserCertificateInsert
       /\ uc_certificate_id row = generated_id env1 CertificateInsert.
Proof.
  intros Hscore Hnone Hdef Hsel1 Hins1 Hsel2 Hins2 st1.
  assert (Hlen : length (default_certificates (certificates st)) <> 1%nat)
    by (rewrite Hdef; cbn; lia).
  destruct (generateCertificate_issues env1 params st Hscore Hnone)
    as (st0 & Hsame & Hgen).
  destruct Hsame as (_ & _ & _ & _ & _ & _ & Hc & Hu).
  assert (Hissue : issue_certificate env1 params st0
                   = create_default_certificate env1 st0).
  { unfold issue_certificate, bind, db_read. now rewrite Hsel1, Hc, Hdef. }
  rewrite Hissue, (create_default_certificate_row env1 st0 Hins1) in Hgen.
  subst st1. rewrite Hgen. cbn [fst snd].
  split; [reflexivity|].
  set (st1 := set_certificates _ st0).
  assert (Hnone1 : active_certificates (userId params) (courseId params)
                     (user_certificates st1) = [])
    by (cbn; now rewrite Hu).
  destruct (generateCertificate_issues env2 params st1 Hscore Hnone1)
    as (st2 & Hsame2 & ->).
  destruct Hsame2 as (_ & _ & _ & _ & _ & _ & Hc2 & Hu2).
  assert (Htpl : exists tpl, default_certificates (certificates st2) = [tpl]
                             /\ certificate_row_id tpl = generated_id env1 CertificateInsert).
  { rewrite Hc2. cbn [certificates set_certificates st1]. rewrite Hc.
    unfold default_certificates. rewrite List.filter_app.
    fold (default_certificates (certificates st)). rewrite Hdef.
    eexists. split; reflexivity. }
  destruct Htpl as (tpl & Htpl & Hid).
  unfold issue_certificate, bind, db_read. rewrite Hsel2, Htpl. cbn [single].
  unfold create_user_certificate, bind, db_write. rewrite Hins2.
  cbn [fst snd user_certificates set_user_certificates].
  split; [reflexivity|].
  eexists. rewrite Hu2. cbn [user_certificates set_certificates st1]. rewrite Hu.
  split; [reflexivity|]. split; [reflexivity|exact Hid].
Qed.

Lemma second_attempt_issues_after_the_first_created_the_template_witness :
  fst (generateCertificate second_env sample_params
         (snd (generateCertificate sample_env sample_params
                 (set_certificates [] sample_store))))
  = Returned (issued (generated_id second_env UserCertificateInsert)).
Proof.
  apply (second_attempt_issues_after_the_first_created_the_template
           sample_env second_env sample_params (set_certificates [] sample_store)).
  - vm_compute. discriminate.
  - reflexivity.
  - reflexivity.
  - reflexivity.
  - reflexivity.
  - reflexivity.
  - reflexivity.
Defined.


(** *** The tracking row of a course *)

(** The upsert of the tracking table keeps the course name of the first
    insert and, for the rest, holds the latest call: after two calls for
    the same external id and course the row has the completion flag, the
    score and the pass mark ([score >= 70]) of the second, a completion
    date only if the second call completed and passed (a later failed
    attempt clears it), and the name stored first; rows of other keys are
    as they were. *)
Theorem tracking_upsert_keeps_the_name_and_the_latest_attempt
    (now1 now2 : Date) (clerk course name1 name2 : string)
    (complete1 complete2 : bool) (score1 score2 : Z)
    (table : gmap (string * string) CertificateManagementRow) :
  update_course_certificate_management now2 clerk course name2 complete2 score2
    (update_course_certificate_management now1 clerk course name1 complete1 score1
       table) !! (clerk, course)
  = Some {| cm_course_name := match table !! (clerk, course) with
                              | Some old => cm_course_name old
                              | None => name1
                              end;
            cm_course_complete := complete2;
            cm_assessment_pass := 70 <=? score2;
            cm_assessment_score := score2;
            cm_completion_date :=
              if complete2 && (70 <=? score2) then Some now2 else None |}
  /\ forall key, key <> (clerk, course) ->
       update_course_certificate_management now2 clerk course name2 complete2 score2
         (update_course_certificate_management now1 clerk course name1 complete1
            score1 table) !! key
       = table !! key.
Proof.
  split.
  - unfold update_course_certificate_management at 1.
    rewrite lookup_insert_eq. f_equal.
    unfold update_course_certificate_management.
    rewrite lookup_insert_eq. cbn [cm_course_name].
    destruct (table !! (clerk, course)); reflexivity.
  - intros key Hne. unfold update_course_certificate_management.
    now rewrite !lookup_insert_ne by congruence.
Qed.

End CertificateFacts.

(** ** The learning records *)

Module LearningRecordFacts.
Import JS Database DatabaseFacts Learning LearningFacts Frames ProfileFacts CertificateFacts.
Import LearningUpdate.

(** *** Selecting the learning records of an identity and course *)

Lemma learning_rows_app user course l1 l2 :
  learning_rows user course (l1 ++ l2)
  = (learning_rows user course l1 ++ learning_rows user course l2)%list.
Proof. unfold learning_rows. apply List.filter_app. Qed.

Lemma learning_rows_own user course row :
  learning_user_id row = user -> learning_course_id row = course ->
  learning_rows user course [row] = [row].
Proof.
  intros <- <-. unfold learning_rows. cbn [List.filter].
  now rewrite !String.eqb_refl.
Qed.

Lemma learning_rows_other user course row :
  (learning_user_id row, learning_course_id row) <> (user, course) ->
  learning_rows user course [row] = [].
Proof.
  intros Hne. unfold learning_rows. cbn [List.filter].
  destruct (String.eqb_spec (learning_user_id row) user) as [E1|]; [|reflexivity].
  destruct (String.eqb_spec (learning_course_id row) course) as [E2|]; [|reflexivity].
  congruence.
Qed.

Lemma learning_rows_In user course rows row :
  In row (learning_rows user course rows)
  <-> In row rows /\ learning_user_id row = user /\ learning_course_id row = course.
Proof.
  unfold learning_rows. rewrite List.filter_In, andb_true_iff, !String.eqb_eq.
  reflexivity.
Qed.

(** A change of rows that keeps their identity and course commutes with
    the selection. *)
Lemma learning_rows_map (f : LearningRow -> LearningRow) user course rows :
  (forall row, learning_user_id (f row) = learning_user_id row
               /\ learning_course_id (f row) = learning_course_id row) ->
  learning_rows user course (map f rows) = map f (learning_rows user course rows).
Proof.
  intros Hf. unfold learning_rows.
  induction rows as [|row rows IH]; [reflexivity|].
  cbn [map List.filter]. destruct (Hf row) as [-> ->].
  destruct (_ && _); cbn [map]; now rewrite IH.
Qed.

Lemma one_record_per_course_app rows row :
  one_record_per_course rows ->
  learning_rows (learning_user_id row) (learning_course_id row) rows = [] ->
  one_record_per_course (rows ++ [row]).
Proof.
  intros Hone Hnone user course. rewrite learning_rows_app, length_app.
  destruct (decide ((learning_user_id row, learning_course_id row) = (user, course)))
    as [[= <- <-]|Hne].
  - rewrite Hnone, (learning_rows_own _ _ row eq_refl eq_refl). cbn. lia.
  - rewrite (learning_rows_other _ _ _ Hne). specialize (Hone user course). cbn. lia.
Qed.

Lemma one_record_per_course_map (f : LearningRow -> LearningRow) rows :
  (forall row, learning_user_id (f row) = learning_user_id row
               /\ learning_course_id (f row) = learning_course_id row) ->
  one_record_per_course rows -> one_record_per_course (map f rows).
Proof.
  intros Hf Hone user course.
  rewrite (learning_rows_map f user course rows Hf), length_map. apply Hone.
Qed.

(** The lookup of the three actions, when the store answers it. *)
Lemma lookup_one_record rows user course :
  one_record_per_course rows ->
  maybeSingle (learning_rows user course rows)
  = DbOk (head (learning_rows user course rows))
  /\ (head (learning_rows user course rows) = None ->
      learning_rows user course rows = []).
Proof.
  intros Hone. specialize (Hone user course).
  destruct (learning_rows user course rows) as [|a [|b l]]; cbn in *;
    [auto|split; [reflexivity|discriminate]|lia].
Qed.


(** *** What each action does to [user_learning] *)

(** [fetch]: after the profile step, nothing, or one new row for the
    identity and course when the lookup gave no record. *)
Lemma fetch_action_learning env request clerk uuid st out st' :
  fetch_action env request clerk uuid st = (out, st') ->
  exists st1,
    ensure_profile env clerk st = (Returned tt, st1)
    /\ (st' = st1
        \/ exists row,
             st' = set_user_learning (user_learning st1 ++ [row])%list st1
             /\ out = Returned (learning_record (Some row))
             /\ learning_user_id row = uuid
             /\ truthy_string (courseId_of request) = Some (learning_course_id row)
             /\ (fault env LearningSelect <> None
                 \/ data_of (maybeSingle (learning_rows uuid (learning_course_id row)
                                            (user_learning st1))) = None)).
Proof.
  unfold fetch_action, bind.
  destruct (learning_profile_step env clerk st) as (st1 & Hp & _).
  rewrite Hp. intros H. exists st1. split; [reflexivity|]. revert H.
  assert (Hwhy : forall course,
    truthy_string (courseId_of request) = Some course ->
    filter_value (courseId_of request) = course).
  { intros course Hc. apply truthy_string_Some in Hc. now rewrite Hc. }
  assert (Hcreate : forall course total,
    truthy_string (courseId_of request) = Some course ->
    (fault env LearningSelect <> None
     \/ data_of (maybeSingle (learning_rows uuid course (user_learning st1))) = None) ->
    (let (o, st'0) :=
       insert_learning env
         {| learning_id := generated_id env LearningInsert;
            learning_user_id := uuid;
            learning_course_id := course;
            progress := "{}";
            completed_modules_count := 0;
            total_modules_count := total;
            assessment_attempted := false;
            assessment_score := None;
            last_assessment_score := 0;
            is_completed := false;
            assessment_passed := false;
            assessment_completed_at := None;
            learning_updated_at := None |} st1 in
     match o with
     | Returned a =>
         match a with
         | DbOk createdData => ret (learning_record (Some createdData))
         | DbErr _ => ret (learning_record None)
         end st'0
     | Thrown e => (Thrown e, st'0)
     end) = (out, st') ->
    st' = st1
    \/ exists row,
         st' = set_user_learning (user_learning st1 ++ [row])%list st1
         /\ out = Returned (learning_record (Some row))
         /\ learning_user_id row = uuid
         /\ truthy_string (courseId_of request) = Some (learning_course_id row)
         /\ (fault env LearningSelect <> None
             \/ data_of (maybeSingle (learning_rows uuid (learning_course_id row)
                                        (user_learning st1))) = None)).
  { intros course total Hc Hnone. unfold insert_learning, db_write.
    destruct (fault env LearningInsert); cbn; intros [= <- <-]; [now left|].
    right. eexists. split; [reflexivity|]. split; [reflexivity|].
    cbn [learning_user_id learning_course_id]. auto. }
  unfold db_read. cbv zeta.
  destruct (fault env LearningSelect) as [e|] eqn:Hsel.
  - destruct (negb (String.eqb (code e) "PGRST116")); [intros [= _ <-]; now left|].
    destruct (truthy_number (totalModules request)) as [total|];
      [|intros [= _ <-]; now left].
    destruct (truthy_string (courseId_of request)) as [course|] eqn:Hc;
      [|intros [= _ <-]; now left].
    apply (Hcreate course total eq_refl). left. discriminate.
  - destruct (maybeSingle _) as [[d|]|e] eqn:Hm.
    + intros [= _ <-]; now left.
    + destruct (truthy_number (totalModules request)) as [total|];
        [|intros [= _ <-]; now left].
      destruct (truthy_string (courseId_of request)) as [course|] eqn:Hc;
        [|intros [= _ <-]; now left].
      apply (Hcreate course total eq_refl). right.
      rewrite (Hwhy course eq_refl) in Hm. now rewrite Hm.
    + destruct (negb (String.eqb (code e) "PGRST116")); [intros [= _ <-]; now left|].
      destruct (truthy_number (totalModules request)) as [total|];
        [|intros [= _ <-]; now left].
      destruct (truthy_string (courseId_of request)) as [course|] eqn:Hc;
        [|intros [= _ <-]; now left].
      apply (Hcreate course total eq_refl). right.
      rewrite (Hwhy course eq_refl) in Hm. now rewrite Hm.
Qed.

(** The row [save_assessment] writes over the record it found. *)
Lemma save_assessment_learning env request uuid course result st out st' :
  save_assessment env request uuid course result st = (out, st') ->
  (user_learning st' = user_learning st /\ exists msg, out = Thrown msg)
  \/ (exists row,
        user_learning st' = (user_learning st ++ [row])%list
        /\ out = Returned tt
        /\ learning_user_id row = uuid /\ learning_course_id row = course
        /\ records_assessment result row
        /\ (fault env LearningSelect <> None
            \/ data_of (maybeSingle (learning_rows uuid course (user_learning st)))
               = None))
  \/ (exists (f : LearningRow -> LearningRow) existing,
        user_learning st' = map f (user_learning st)
        /\ out = Returned tt
        /\ fault env LearningSelect = None
        /\ learning_rows uuid course (user_learning st) = [existing]
        /\ (forall row, learning_user_id (f row) = learning_user_id row
                        /\ learning_course_id (f row) = learning_course_id row)
        /\ (forall row, learning_id row = learning_id existing ->
                        records_assessment result (f row)
                        /\ completed_modules_count (f row)
                           = completed_modules_count existing)
        /\ (forall row, learning_id row <> learning_id existing -> f row = row)).
Proof.
  unfold save_assessment, bind, db_read.
  match goal with |- _ -> ?Concl =>
  assert (Hins : forall row,
    learning_user_id row = uuid -> learning_course_id row = course ->
    records_assessment result row ->
    (fault env LearningSelect <> None
     \/ data_of (maybeSingle (learning_rows uuid course (user_learning st))) = None) ->
    (let (o, st1) := insert_learning env row st in
     match o with
     | Returned r =>
         match r with
         | DbOk _ => ret tt
         | DbErr insertError =>
             throw ("Failed to save assessment results: "
                    ++ Database.message insertError)
         end st1
     | Thrown e => (Thrown e, st1)
     end) = (out, st') -> Concl)
  end.
  { intros row Hu Hc Hr Hwhy. unfold insert_learning, db_write.
    destruct (fault env LearningInsert); cbn; intros [= <- <-]; [left; eauto|].
    right. left. exists row. auto 10. }
  destruct (fault env LearningSelect) as [e|] eqn:Hsel; cbn [data_of].
  - apply Hins; [reflexivity|reflexivity|repeat split|left; discriminate].
  - destruct (data_of (maybeSingle _)) as [existing|] eqn:Hex.
    + apply maybeSingle_Some in Hex.
      unfold db_write. destruct (fault env LearningUpdate); cbn;
        intros [= <- <-]; [left; eauto|].
      right. right. eexists _, existing. split; [reflexivity|].
      split; [reflexivity|]. split; [reflexivity|]. split; [exact Hex|].
      split; [|split].
      * intros row. now destruct (String.eqb (learning_id row) (learning_id existing)).
      * intros row Hid. apply String.eqb_eq in Hid. rewrite Hid.
        repeat split.
      * intros row Hid. apply String.eqb_neq in Hid. now rewrite Hid.
    + apply Hins; [reflexivity|reflexivity|repeat split|now right].
Qed.


(** [update]: after the profile step, nothing (and an error), one new row
    when the lookup gave no record, or the record found with its progress
    columns replaced. *)
Lemma update_action_learning env d clerk uuid st out st' :
  update_action env d clerk uuid st = (out, st') ->
  exists st1,
    ensure_profile env clerk st = (Returned tt, st1)
    /\ ((st' = st1 /\ exists msg, out = Thrown msg)
        \/ (st' = set_user_learning
                    (user_learning st1 ++ [newRecord env uuid d])%list st1
            /\ out = Returned (learning_record (Some (newRecord env uuid d)))
            /\ (fault env LearningSelect <> None
                \/ data_of (maybeSingle (learning_rows uuid (u_courseId d)
                                           (user_learning st1))) = None))
        \/ (exists existing,
              learning_rows uuid (u_courseId d) (user_learning st1) = [existing]
              /\ fault env LearningSelect = None
              /\ st' = set_user_learning
                         (map (fun row =>
                                 if String.eqb (learning_user_id row) uuid
                                    && String.eqb (learning_course_id row) (u_courseId d)
                                 then updated_row env d row else row)
                              (user_learning st1)) st1
              /\ out = Returned (learning_record (Some (updated_row env d existing))))).
Proof.
  unfold update_action, bind.
  destruct (learning_profile_step env clerk st) as (st1 & Hp & _).
  rewrite Hp. intros H. exists st1. split; [reflexivity|]. revert H.
  match goal with |- _ -> ?Concl =>
  assert (Hins :
    fault env LearningSelect <> None
    \/ data_of (maybeSingle (learning_rows uuid (u_courseId d)
                               (user_learning st1))) = None ->
    (let (o, st2) := insert_learning env (newRecord env uuid d) st1 in
     match o with
     | Returned a =>
         match a with
         | DbOk createdData => ret (learning_record (Some createdData))
         | DbErr createError => throw (Database.message createError)
         end st2
     | Thrown e => (Thrown e, st2)
     end) = (out, st') -> Concl)
  end.
  { intros why. unfold insert_learning, db_write.
    destruct (fault env LearningInsert); cbn; intros [= <- <-]; [left; eauto|].
    right. left. auto. }
  unfold db_read.
  destruct (fault env LearningSelect) as [e|] eqn:Hsel; cbn [data_of].
  { apply Hins. left. discriminate. }
  destruct (data_of (maybeSingle _)) as [existing|] eqn:Hex; [|apply Hins; now right].
  apply maybeSingle_Some in Hex.
  unfold db_write. destruct (fault env LearningUpdate); cbn.
  { intros [= <- <-]. left. eauto. }
  unfold update_statement.
  rewrite (learning_rows_map _ uuid (u_courseId d) (user_learning st1)).
  2:{ intros row. now destruct (_ && _). }
  rewrite Hex. cbn [map single].
  assert (Hown : In existing (learning_rows uuid (u_courseId d) (user_learning st1)))
    by (rewrite Hex; now left).
  apply learning_rows_In in Hown as (_ & Hu & Hc).
  rewrite Hu, Hc, !String.eqb_refl. cbn [andb].
  intros [= <- <-]. right. right. exists existing. auto.
Qed.


Lemma ensure_profile_learning env clerk st st1 :
  ensure_profile env clerk st = (Returned tt, st1) ->
  user_learning st1 = user_learning st /\ course_questions st1 = course_questions st.
Proof.
  intros Hp. destruct (learning_profile_step env clerk st) as (st1' & Hp' & Hs).
  rewrite Hp in Hp'. injection Hp' as <-.
  destruct Hs as (_ & _ & _ & Hl & Hq & _). auto.
Qed.

(** [evaluateAssessment] up to the saving: it stops before any call, or
    after the profile step, or scores the submission against the active
    questions of the course and saves the result. *)
Lemma evaluate_and_save_cases env request clerk uuid st out st' :
  evaluate_and_save env request clerk uuid st = (out, st') ->
  (st' = st /\ exists msg, out = Thrown msg)
  \/ exists st1,
       ensure_profile env clerk st = (Returned tt, st1)
       /\ ((st' = st1 /\ exists msg, out = Thrown msg)
           \/ exists course submitted saved,
                truthy_string (courseId_of request) = Some course
                /\ answers request = Some submitted
                /\ fault env QuestionsSelect = None
                /\ select_course_questions course (course_questions st1) <> []
                /\ save_assessment env request uuid course
                     (Scorer.assess
                        (map question
                           (select_course_questions course (course_questions st1)))
                        submitted) st1 = (saved, st')
                /\ out = match saved with
                         | Returned _ =>
                             Returned
                               (Scorer.assess
                                  (map question
                                     (select_course_questions course
                                        (course_questions st1)))
                                  submitted, course)
                         | Thrown e => Thrown e
                         end).
Proof.
  unfold evaluate_and_save.
  destruct (questions request); [|intros [= <- <-]; left; eauto].
  destruct (answers request) as [submitted|]; [|intros [= <- <-]; left; eauto].
  destruct (truthy_string (courseId_of request)) as [course|];
    [|intros [= <- <-]; left; eauto].
  intros H. right.
  destruct (learning_profile_step env clerk st) as (st1 & Hp & _).
  exists st1. split; [exact Hp|].
  unfold bind in H. rewrite Hp in H. unfold db_read in H.
  destruct (fault env QuestionsSelect).
  { unfold throw in H. injection H as <- <-. left. eauto. }
  destruct (select_course_questions course (course_questions st1)) as [|q qs] eqn:Hq.
  { unfold throw in H. injection H as <- <-. left. eauto. }
  right. exists course, submitted.
  destruct (save_assessment env request uuid course _ st1) as [saved st2] eqn:E.
  exists saved. split; [reflexivity|]. split; [reflexivity|]. split; [reflexivity|].
  split; [rewrite Hq; discriminate|].
  rewrite Hq.
  destruct saved as [[]|msg]; unfold ret in H; injection H as <- <-; auto.
Qed.

(** *** One record per identity and course *)

Lemma save_assessment_one_record env request uuid course result st out st' :
  fault env LearningSelect = None ->
  one_record_per_course (user_learning st) ->
  save_assessment env request uuid course result st = (out, st') ->
  one_record_per_course (user_learning st').
Proof.
  intros Hsel Hone H.
  apply save_assessment_learning in H
    as [[-> _]|[(row & -> & _ & Hu & Hc & _ & Hwhy)|(f & existing & -> & _ & _ & _ & Hf & _)]].
  - exact Hone.
  - apply one_record_per_course_app; [exact Hone|]. rewrite Hu, Hc.
    destruct Hwhy as [Hwhy|Hwhy]; [contradiction|].
    destruct (lookup_one_record _ uuid course Hone) as [Hm Hnil].
    rewrite Hm in Hwhy. now apply Hnil.
  - now apply one_record_per_course_map.
Qed.

(** Unless a lookup of the record fails, the three actions keep the
    learning records unique: if no identity had two records of a course
    before a request, none has after it. *)
Theorem one_record_per_course_is_kept
    (env : Env) (request : Request) (request_clerkUserId : option string)
    (d : UpdateData) (st : Store) :
  fault env LearningSelect = None ->
  one_record_per_course (user_learning st) ->
  one_record_per_course (user_learning (snd (Learning.serve env request st)))
  /\ one_record_per_course
       (user_learning (snd (LearningUpdate.serve env request_clerkUserId d st))).
Proof.
  intros Hsel Hone. split.
  - unfold Learning.serve.
    destruct (truthy_string (Learning.request_clerkUserId request)) as [clerk|];
      [|exact Hone].
    set (uuid := Identity.generateConsistentUUID (charCodes clerk)).
    destruct (action request) as [| |a]; [| |exact Hone].
    + destruct (fetch_action env request clerk uuid st) as [out st'] eqn:E.
      assert (G : one_record_per_course (user_learning st')).
      { apply fetch_action_learning in E
          as (st1 & Hp & [->|(row & -> & _ & Hu & Hc & Hwhy)]);
          apply ensure_profile_learning in Hp as [Hl _].
        - now rewrite Hl.
        - cbn [user_learning set_user_learning]. rewrite Hl in *.
          apply one_record_per_course_app; [exact Hone|]. rewrite Hu.
          destruct Hwhy as [Hwhy|Hwhy]; [contradiction|].
          destruct (lookup_one_record _ uuid (learning_course_id row) Hone)
            as [Hm Hnil].
          rewrite Hm in Hwhy. now apply Hnil. }
      destruct out; exact G.
    + unfold evaluateAssessment_action, bind.
      destruct (evaluate_and_save env request clerk uuid st)
        as [[[result course]|msg] st1] eqn:E.
      * assert (G : one_record_per_course (user_learning st1)).
        { apply evaluate_and_save_cases in E
            as [[-> _]|(st0 & Hp & [[-> _]|(c & sub & saved & _ & _ & _ & _ & Hsave & _)])];
            [exact Hone|apply ensure_profile_learning in Hp as [Hl _]..].
          - now rewrite Hl.
          - eapply save_assessment_one_record; [exact Hsel| |exact Hsave].
            now rewrite Hl. }
        pose proof (certificate_if_passed_frame env request clerk uuid course
                      result st1) as Hf.
        destruct (certificate_if_passed env request clerk uuid course result st1)
          as [[cert|msg] st2]; cbn [snd] in Hf;
          destruct Hf as (_ & _ & _ & _ & Hl & _); rewrite <- Hl in G; exact G.
      * cbn [snd].
        apply evaluate_and_save_cases in E
          as [[-> _]|(st0 & Hp & [[-> _]|(c & sub & saved & _ & _ & _ & _ & Hsave & _)])];
          [exact Hone|apply ensure_profile_learning in Hp as [Hl _]..].
        -- now rewrite Hl.
        -- eapply save_assessment_one_record; [exact Hsel| |exact Hsave].
           now rewrite Hl.
  - unfold LearningUpdate.serve.
    destruct (truthy_string request_clerkUserId) as [clerk|]; [|exact Hone].
    set (uuid := Identity.generateConsistentUUID (charCodes clerk)).
    destruct (update_action env d clerk uuid st) as [out st'] eqn:E.
    assert (G : one_record_per_course (user_learning st')).
    { apply update_action_learning in E
        as (st1 & Hp & [[-> _]|[(-> & _ & Hwhy)|(existing & _ & _ & -> & _)]]);
        apply ensure_profile_learning in Hp as [Hl _].
      - now rewrite Hl.
      - cbn [user_learning set_user_learning]. rewrite Hl in *.
        apply one_record_per_course_app; [exact Hone|].
        destruct Hwhy as [Hwhy|Hwhy]; [contradiction|].
        destruct (lookup_one_record _ uuid (u_courseId d) Hone) as [Hm Hnil].
        rewrite Hm in Hwhy. now apply Hnil.
      - cbn [user_learning set_user_learning]. rewrite Hl.
        apply one_record_per_course_map; [|exact Hone].
        intros row. now destruct (_ && _). }
    destruct out; exact G.
Qed.


Lemma one_record_per_course_is_kept_witness :
  one_record_per_course
    (user_learning (snd (Learning.serve sample_env (sample_request fetch 0)
                           sample_store)))
  /\ one_record_per_course
       (user_learning (snd (LearningUpdate.serve sample_env (Some "user_2abc")
                              sample_update sample_store))).
Proof.
  apply (one_record_per_course_is_kept sample_env (sample_request fetch 0)
           (Some "user_2abc") sample_update sample_store).
  - reflexivity.
  - intros user course. cbn. lia.
Defined.

(** *** [fetch] *)

Lemma serve_fetch env request st clerk :
  truthy_string (Learning.request_clerkUserId request) = Some clerk ->
  action request = fetch ->
  Learning.serve env request st
  = respond (fetch_action env request clerk
               (Identity.generateConsistentUUID (charCodes clerk)) st).
Proof. intros Hc Ha. unfold Learning.serve. now rewrite Hc, Ha. Qed.

(** The lookup of [fetch] found no record, or could not tell which: a
    record is created when the request names the course and a non-zero
    number of modules. *)
Lemma fetch_action_creates env request clerk uuid st st1 course total :
  ensure_profile env clerk st = (Returned tt, st1) ->
  truthy_number (totalModules request) = Some total ->
  truthy_string (courseId_of request) = Some course ->
  fault env LearningSelect = None ->
  fault env LearningInsert = None ->
  length (learning_rows uuid course (user_learning st)) <> 1%nat ->
  fetch_action env request clerk uuid st
  = (Returned (learning_record (Some (fresh_record env uuid course total))),
     set_user_learning
       (user_learning st ++ [fresh_record env uuid course total])%list st1).
Proof.
  intros Hp Ht Hc Hsel Hins Hlen.
  destruct (ensure_profile_learning env clerk st st1 Hp) as [Hl _].
  unfold fetch_action, bind. rewrite Hp. unfold db_read. rewrite Hsel.
  cbv beta zeta. rewrite Ht, Hc, Hl.
  apply truthy_string_Some in Hc. rewrite Hc. cbn [filter_value].
  assert (Hnew : forall row,
    insert_learning env row st1
    = (Returned (DbOk row), set_user_learning (user_learning st ++ [row])%list st1)).
  { intros row. unfold insert_learning, db_write. now rewrite Hins, Hl. }
  destruct (learning_rows uuid course (user_learning st)) as [|a [|b l]];
    cbn [length maybeSingle] in *; [|lia|].
  - rewrite Hnew. reflexivity.
  - match goal with |- context [negb ?b] => change (negb b) with false end.
    cbv beta iota. rewrite Hnew. reflexivity.
Qed.

Lemma fetch_action_finds env request clerk uuid st st1 row :
  ensure_profile env clerk st = (Returned tt, st1) ->
  fault env LearningSelect = None ->
  learning_rows uuid (filter_value (courseId_of request)) (user_learning st) = [row] ->
  fetch_action env request clerk uuid st = (Returned (learning_record (Some row)), st1).
Proof.
  intros Hp Hsel Hrows.
  destruct (ensure_profile_learning env clerk st st1 Hp) as [Hl _].
  unfold fetch_action, bind. rewrite Hp. unfold db_read. rewrite Hsel.
  cbv beta zeta. rewrite Hl, Hrows. reflexivity.
Qed.

(** A [fetch] that finds no record of the identity and course creates
    one, without progress and without assessment, and returns it; the
    next [fetch] returns that record and creates nothing. *)
Theorem fetch_creates_the_record_once
    (env1 env2 : Env) (request : Request) (st : Store)
    (clerk course : string) (total : Z) :
  truthy_string (Learning.request_clerkUserId request) = Some clerk ->
  action request = fetch ->
  truthy_number (totalModules request) = Some total ->
  truthy_string (courseId_of request) = Some course ->
  fault env1 LearningSelect = None -> fault env1 LearningInsert = None ->
  fault env2 LearningSelect = None ->
  learning_rows (Identity.generateConsistentUUID (charCodes clerk)) course
    (user_learning st) = [] ->
  let created :=
    fresh_record env1 (Identity.generateConsistentUUID (charCodes clerk))
      course total in
  let st1 := snd (Learning.serve env1 request st) in
  fst (Learning.serve env1 request st)
  = {| http_status := 200; body := SuccessBody (learning_record (Some created)) |}
  /\ user_learning st1 = (user_learning st ++ [created])%list
  /\ fst (Learning.serve env2 request st1)
     = {| http_status := 200; body := SuccessBody (learning_record (Some created)) |}
  /\ user_learning (snd (Learning.serve env2 request st1)) = user_learning st1.
Proof.
  intros Hclerk Hact Ht Hc Hsel1 Hins1 Hsel2 Hnone created st1.
  set (uuid := Identity.generateConsistentUUID (charCodes clerk)) in *.
  destruct (learning_profile_step env1 clerk st) as (sp1 & Hp1 & _).
  assert (H1 : Learning.serve env1 request st
               = ({| http_status := 200;
                     body := SuccessBody (learning_record (Some created)) |},
                  set_user_learning (user_learning st ++ [created])%list sp1)).
  { rewrite (serve_fetch env1 request st clerk Hclerk Hact). fold uuid.
    rewrite (fetch_action_creates env1 request clerk uuid st sp1 course total
               Hp1 Ht Hc Hsel1 Hins1); [reflexivity|].
    rewrite Hnone. cbn. lia. }
  subst st1. rewrite H1. cbn [fst snd user_learning set_user_learning].
  split; [reflexivity|]. split; [reflexivity|].
  set (st1 := set_user_learning _ sp1).
  destruct (learning_profile_step env2 clerk st1) as (sp2 & Hp2 & _).
  destruct (ensure_profile_learning env2 clerk st1 sp2 Hp2) as [Hl2 _].
  rewrite (serve_fetch env2 request st1 clerk Hclerk Hact). fold uuid.
  rewrite (fetch_action_finds env2 request clerk uuid st1 sp2 created Hp2 Hsel2).
  - cbn [respond fst snd]. split; [reflexivity|exact Hl2].
  - pose proof (truthy_string_Some _ _ Hc) as Hc'. rewrite Hc'. cbn [filter_value].
    unfold st1. cbn [user_learning set_user_learning].
    rewrite learning_rows_app, Hnone.
    apply (learning_rows_own uuid course created); reflexivity.
Qed.

Lemma fetch_creates_the_record_once_witness :
  fst (Learning.serve second_env (sample_request fetch 0)
         (snd (Learning.serve sample_env (sample_request fetch 0) sample_store)))
  = {| http_status := 200;
       body := SuccessBody
                 (learning_record (Some (fresh_record sample_env sample_uuid
                                           "course-1" 4))) |}.
Proof.
  apply (fetch_creates_the_record_once sample_env second_env
           (sample_request fetch 0) sample_store "user_2abc" "course-1" 4).
  - reflexivity.
  - reflexivity.
  - reflexivity.
  - reflexivity.
  - reflexivity.
  - reflexivity.
  - reflexivity.
  - reflexivity.
Defined.

(** When the store already holds two or more records of the identity and
    course, the lookup answers with the error [PGRST116], which [fetch]
    takes for no record: it inserts one more and returns it. *)
Theorem fetch_adds_to_duplicate_records
    (env : Env) (request : Request) (st : Store)
    (clerk course : string) (total : Z) :
  truthy_string (Learning.request_clerkUserId request) = Some clerk ->
  action request = fetch ->
  truthy_number (totalModules request) = Some total ->
  truthy_string (courseId_of request) = Some course ->
  fault env LearningSelect = None -> fault env LearningInsert = None ->
  (2 <= length (learning_rows (Identity.generateConsistentUUID (charCodes clerk))
                  course (user_learning st)))%nat ->
  let created :=
    fresh_record env (Identity.generateConsistentUUID (charCodes clerk))
      course total in
  fst (Learning.serve env request st)
  = {| http_status := 200; body := SuccessBody (learning_record (Some created)) |}
  /\ user_learning (snd (Learning.serve env request st))
     = (user_learning st ++ [created])%list
  /\ length (learning_rows (Identity.generateConsistentUUID (charCodes clerk))
               course (user_learning (snd (Learning.serve env request st))))
     = S (length (learning_rows (Identity.generateConsistentUUID (charCodes clerk))
                    course (user_learning st))).
Proof.
  intros Hclerk Hact Ht Hc Hsel Hins Hdup created.
  set (uuid := Identity.generateConsistentUUID (charCodes clerk)) in *.
  destruct (learning_profile_step env clerk st) as (sp & Hp & _).
  rewrite (serve_fetch env request st clerk Hclerk Hact). fold uuid.
  rewrite (fetch_action_creates env request clerk uuid st sp course total
             Hp Ht Hc Hsel Hins) by lia.
  cbn [respond fst snd user_learning set_user_learning].
  split; [reflexivity|]. split; [reflexivity|].
  rewrite learning_rows_app, length_app. subst created.
  rewrite (learning_rows_own uuid course (fresh_record env uuid course total))
    by reflexivity.
  cbn [length]. lia.
Qed.


Lemma fetch_adds_to_duplicate_records_witness :
  user_learning
    (snd (Learning.serve second_env (sample_request fetch 0)
            (set_user_learning
               [fresh_record sample_env sample_uuid "course-1" 4;
                fresh_record sample_env sample_uuid "course-1" 4] sample_store)))
  = [fresh_record sample_env sample_uuid "course-1" 4;
     fresh_record sample_env sample_uuid "course-1" 4;
     fresh_record second_env sample_uuid "course-1" 4].
Proof.
  apply (fetch_adds_to_duplicate_records second_env (sample_request fetch 0)
           (set_user_learning
              [fresh_record sample_env sample_uuid "course-1" 4;
               fresh_record sample_env sample_uuid "course-1" 4] sample_store)
           "user_2abc" "course-1" 4).
  - reflexivity.
  - reflexivity.
  - reflexivity.
  - reflexivity.
  - reflexivity.
  - reflexivity.
  - vm_compute. lia.
Defined.

(** *** [update] *)

Lemma serve_update env request_clerkUserId d st clerk :
  truthy_string request_clerkUserId = Some clerk ->
  LearningUpdate.serve env request_clerkUserId d st
  = respond (update_action env d clerk
               (Identity.generateConsistentUUID (charCodes clerk)) st).
Proof. intros Hc. unfold LearningUpdate.serve. now rewrite Hc. Qed.

(** A successful [update] returns the record of the identity and course
    with the progress and the counts of the request, and a [fetch] that
    follows returns that same record: what was saved is what is read. *)
Theorem update_then_fetch_returns_what_was_saved
    (env1 env2 : Env) (request_clerkUserId : option string) (d : UpdateData)
    (request : Request) (st : Store) (clerk : string) :
  truthy_string request_clerkUserId = Some clerk ->
  truthy_string (Learning.request_clerkUserId request) = Some clerk ->
  action request = fetch ->
  courseId_of request = Some (u_courseId d) ->
  fault env1 LearningSelect = None -> fault env2 LearningSelect = None ->
  (length (learning_rows (Identity.generateConsistentUUID (charCodes clerk))
             (u_courseId d) (user_learning st)) <= 1)%nat ->
  http_status (fst (LearningUpdate.serve env1 request_clerkUserId d st)) = 200 ->
  exists row,
    fst (LearningUpdate.serve env1 request_clerkUserId d st)
    = {| http_status := 200; body := SuccessBody (learning_record (Some row)) |}
    /\ learning_user_id row = Identity.generateConsistentUUID (charCodes clerk)
    /\ learning_course_id row = u_courseId d
    /\ progress row = progress_of d
    /\ completed_modules_count row = completed_of d
    /\ total_modules_count row = total_of d
    /\ fst (Learning.serve env2 request
              (snd (LearningUpdate.serve env1 request_clerkUserId d st)))
       = {| http_status := 200; body := SuccessBody (learning_record (Some row)) |}.
Proof.
  intros Hclerk Hclerk' Hact Hcourse Hsel1 Hsel2 Hone Hok.
  set (uuid := Identity.generateConsistentUUID (charCodes clerk)) in *.
  rewrite (serve_update env1 request_clerkUserId d st clerk Hclerk) in *.
  fold uuid in Hok |- *.
  destruct (update_action env1 d clerk uuid st) as [out st1] eqn:E.
  apply update_action_learning in E
    as (sp & Hp & [[-> [msg ->]]|[(-> & -> & Hwhy)|(existing & Hex & _ & -> & ->)]]).
  { cbn in Hok. discriminate Hok. }
  - (* the record is created *)
    destruct (ensure_profile_learning env1 clerk st sp Hp) as [Hl _].
    destruct Hwhy as [Hwhy|Hwhy]; [contradiction|].
    assert (Hnone : learning_rows uuid (u_courseId d) (user_learning st) = []).
    { rewrite Hl in Hwhy.
      destruct (learning_rows uuid (u_courseId d) (user_learning st)) as [|a [|b l]];
        cbn in *; [reflexivity|discriminate|lia]. }
    exists (newRecord env1 uuid d). cbn [respond fst snd].
    split; [reflexivity|]. do 5 (split; [reflexivity|]).
    set (st1 := set_user_learning _ sp).
    destruct (learning_profile_step env2 clerk st1) as (sp2 & Hp2 & _).
    rewrite (serve_fetch env2 request st1 clerk Hclerk' Hact). fold uuid.
    rewrite (fetch_action_finds env2 request clerk uuid st1 sp2 (newRecord env1 uuid d)
               Hp2 Hsel2); [reflexivity|].
    rewrite Hcourse. cbn [filter_value]. unfold st1.
    cbn [user_learning set_user_learning]. rewrite Hl, learning_rows_app, Hnone.
    now apply learning_rows_own.
  - (* the record is updated *)
    destruct (ensure_profile_learning env1 clerk st sp Hp) as [Hl _].
    assert (Hown : In existing (learning_rows uuid (u_courseId d) (user_learning sp)))
      by (rewrite Hex; now left).
    apply learning_rows_In in Hown as (_ & Hu & Hc).
    exists (updated_row env1 d existing). cbn [respond fst snd].
    split; [reflexivity|]. split; [exact Hu|]. split; [exact Hc|].
    do 3 (split; [reflexivity|]).
    set (st1 := set_user_learning _ sp).
    destruct (learning_profile_step env2 clerk st1) as (sp2 & Hp2 & _).
    rewrite (serve_fetch env2 request st1 clerk Hclerk' Hact). fold uuid.
    rewrite (fetch_action_finds env2 request clerk uuid st1 sp2
               (updated_row env1 d existing) Hp2 Hsel2); [reflexivity|].
    rewrite Hcourse. cbn [filter_value]. unfold st1.
    cbn [user_learning set_user_learning].
    rewrite (learning_rows_map _ uuid (u_courseId d) (user_learning sp)).
    2:{ intros row. now destruct (_ && _). }
    rewrite Hex. cbn [map]. now rewrite Hu, Hc, !String.eqb_refl.
Qed.

Lemma update_then_fetch_returns_what_was_saved_witness :
  exists row,
    fst (LearningUpdate.serve sample_env (Some "user_2abc") sample_update sample_store)
    = {| http_status := 200; body := SuccessBody (learning_record (Some row)) |}
    /\ learning_user_id row = Identity.generateConsistentUUID (charCodes "user_2abc")
    /\ learning_course_id row = u_courseId sample_update
    /\ progress row = progress_of sample_update
    /\ completed_modules_count row = completed_of sample_update
    /\ total_modules_count row = total_of sample_update
    /\ fst (Learning.serve second_env (sample_request fetch 0)
              (snd (LearningUpdate.serve sample_env (Some "user_2abc") sample_update
                      sample_store)))
       = {| http_status := 200; body := SuccessBody (learning_record (Some row)) |}.
Proof.
  apply (update_then_fetch_returns_what_was_saved sample_env second_env
           (Some "user_2abc") sample_update (sample_request fetch 0) sample_store
           "user_2abc").
  - reflexivity.
  - reflexivity.
  - reflexivity.
  - reflexivity.
  - reflexivity.
  - reflexivity.
  - cbn. lia.
  - reflexivity.
Defined.

(** [update] changes the progress columns of the records of the identity
    and course of the request and nothing else: every record that was
    there stays, in place, with its id, identity, course and assessment
    columns; records of another course are untouched; at most one record
    is added. *)
Theorem update_keeps_the_assessment_columns
    (env : Env) (request_clerkUserId : option string) (d : UpdateData) (st : Store) :
  exists kept added,
    user_learning (snd (LearningUpdate.serve env request_clerkUserId d st))
    = (kept ++ added)%list
    /\ Forall2 (fun row row' =>
                  learning_id row' = learning_id row
                  /\ learning_user_id row' = learning_user_id row
                  /\ learning_course_id row' = learning_course_id row
                  /\ same_assessment row row'
                  /\ (learning_course_id row <> u_courseId d -> row' = row))
               (user_learning st) kept
    /\ (length added <= 1)%nat.
Proof.
  assert (Hsame : Forall2 (fun row row' =>
                     learning_id row' = learning_id row
                     /\ learning_user_id row' = learning_user_id row
                     /\ learning_course_id row' = learning_course_id row
                     /\ same_assessment row row'
                     /\ (learning_course_id row <> u_courseId d -> row' = row))
                    (user_learning st) (user_learning st)).
  { rewrite <- (map_id (user_learning st)) at 2. apply Forall2_map_same.
    intros row. repeat split. }
  unfold LearningUpdate.serve.
  destruct (truthy_string request_clerkUserId) as [clerk|].
  2:{ exists (user_learning st), []. rewrite app_nil_r. cbn. auto. }
  set (uuid := Identity.generateConsistentUUID (charCodes clerk)).
  destruct (update_action env d clerk uuid st) as [out st'] eqn:E.
  assert (G : exists kept added,
            user_learning st' = (kept ++ added)%list
            /\ Forall2 (fun row row' =>
                          learning_id row' = learning_id row
                          /\ learning_user_id row' = learning_user_id row
                          /\ learning_course_id row' = learning_course_id row
                          /\ same_assessment row row'
                          /\ (learning_course_id row <> u_courseId d -> row' = row))
                       (user_learning st) kept
            /\ (length added <= 1)%nat).
  { apply update_action_learning in E
      as (sp & Hp & [[-> _]|[(-> & _ & _)|(existing & _ & _ & -> & _)]]);
      apply ensure_profile_learning in Hp as [Hl _];
      cbn [user_learning set_user_learning]; rewrite Hl.
    - exists (user_learning st), []. rewrite app_nil_r. cbn. auto.
    - exists (user_learning st), [newRecord env uuid d]. cbn. auto.
    - eexists _, []. rewrite app_nil_r. split; [reflexivity|]. split; [|cbn; lia].
      apply Forall2_map_same. intros row.
      destruct (String.eqb (learning_user_id row) uuid); cbn [andb];
        [|repeat split].
      destruct (String.eqb_spec (learning_course_id row) (u_courseId d));
        repeat split. intros Hne. contradiction. }
  destruct out; exact G.
Qed.


(** *** [evaluateAssessment] *)

Lemma serve_evaluateAssessment env request st clerk :
  truthy_string (Learning.request_clerkUserId request) = Some clerk ->
  action request = evaluateAssessment ->
  Learning.serve env request st
  = respond (evaluateAssessment_action env request clerk
               (Identity.generateConsistentUUID (charCodes clerk)) st).
Proof. intros Hc Ha. unfold Learning.serve. now rewrite Hc, Ha. Qed.

(** A request answered with an evaluation went through the scoring and
    the saving, and then through the certificate block. *)
Lemma evaluation_response_inv env request clerk uuid st r st' :
  respond (evaluateAssessment_action env request clerk uuid st)
  = ({| http_status := 200; body := SuccessBody (evaluation r) |}, st') ->
  exists course st1 cert,
    evaluate_and_save env request clerk uuid st
    = (Returned (assessmentResult r, course), st1)
    /\ certificate_if_passed env request clerk uuid course (assessmentResult r) st1
       = (Returned cert, st')
    /\ saved r = true
    /\ certificateGenerated r = success cert
    /\ result_certificateId r = truthy_string (certificateId cert).
Proof.
  unfold evaluateAssessment_action, bind.
  destruct (evaluate_and_save env request clerk uuid st)
    as [[[result course]|msg] st1] eqn:E; [|cbn; intros [= ? ?]; discriminate].
  destruct (certificate_if_passed env request clerk uuid course result st1)
    as [[cert|msg] st2] eqn:Ec; [|cbn; intros [= ? ?]; discriminate].
  cbn. intros [= <- <-]. exists course, st1, cert. cbn. auto.
Qed.

(** What an evaluation reports is what it saved: after a request answered
    with an evaluation, the one learning record of the identity and
    course says that the assessment was attempted, holds the reported
    score as score and as last score, and is passed and completed exactly
    when the report says passed, whatever the record said before. (The
    lookup of the record is answered, and the identity had at most one
    record of the course.) *)
Theorem evaluation_is_saved_as_reported
    (env : Env) (request : Request) (st : Store) (clerk : string)
    (r : EvaluationResult) :
  truthy_string (Learning.request_clerkUserId request) = Some clerk ->
  action request = evaluateAssessment ->
  fault env LearningSelect = None ->
  one_record_per_course (user_learning st) ->
  fst (Learning.serve env request st)
  = {| http_status := 200; body := SuccessBody (evaluation r) |} ->
  saved r = true
  /\ exists course row,
       truthy_string (courseId_of request) = Some course
       /\ learning_rows (Identity.generateConsistentUUID (charCodes clerk)) course
            (user_learning (snd (Learning.serve env request st))) = [row]
       /\ records_assessment (assessmentResult r) row.
Proof.
  intros Hclerk Hact Hsel Hone Hresp.
  set (uuid := Identity.generateConsistentUUID (charCodes clerk)) in *.
  rewrite (serve_evaluateAssessment env request st clerk Hclerk Hact) in *.
  fold uuid in Hresp |- *.
  destruct (respond (evaluateAssessment_action env request clerk uuid st))
    as [resp st'] eqn:E.
  cbn [fst snd] in *. subst resp.
  apply evaluation_response_inv in E
    as (course & st1 & cert & Heval & Hcert & Hsaved & _).
  split; [exact Hsaved|].
  pose proof (certificate_if_passed_frame env request clerk uuid course
                (assessmentResult r) st1) as Hf.
  rewrite Hcert in Hf. cbn [snd] in Hf.
  destruct Hf as (_ & _ & _ & _ & Hl' & _). rewrite Hl'.
  apply evaluate_and_save_cases in Heval
    as [[_ [msg Hm]]|(sp & Hp & [[_ [msg Hm]]
                                |(c & sub & sv & Hc & _ & _ & _ & Hsave & Hout)])];
    [discriminate Hm|discriminate Hm|].
  destruct (ensure_profile_learning env clerk st sp Hp) as [Hl _].
  assert (Hone' : one_record_per_course (user_learning sp)) by now rewrite Hl.
  destruct sv as [[]|msg]; [|discriminate Hout].
  injection Hout as Hres <-.
  exists course. rewrite <- Hres in Hsave.
  apply save_assessment_learning in Hsave
    as [[_ [msg Hm]]|[(row & -> & _ & Hu & Hcr & Hrec & Hwhy)
                     |(f & existing & -> & _ & _ & Hex & Hf & Hupd & _)]];
    [discriminate Hm| |].
  - exists row. split; [exact Hc|]. split; [|exact Hrec].
    destruct Hwhy as [Hwhy|Hwhy]; [contradiction|].
    destruct (lookup_one_record _ uuid course Hone') as [Hm Hnil].
    rewrite Hm in Hwhy. rewrite learning_rows_app, (Hnil Hwhy).
    now apply learning_rows_own.
  - exists (f existing). split; [exact Hc|].
    rewrite (learning_rows_map f uuid course _ Hf), Hex. split; [reflexivity|].
    now apply Hupd.
Qed.

Lemma evaluation_is_saved_as_reported_witness :
  saved {| assessmentResult :=
             Scorer.assess (Scorer.sample_questions 10) (Scorer.sample_answers 6);
           saved := true;
           certificateGenerated := false;
           result_certificateId := None |} = true
  /\ exists course row,
       truthy_string (courseId_of (sample_request evaluateAssessment 6)) = Some course
       /\ learning_rows (Identity.generateConsistentUUID (charCodes "user_2abc")) course
            (user_learning
               (snd (Learning.serve sample_env (sample_request evaluateAssessment 6)
                       sample_store))) = [row]
       /\ records_assessment
            (assessmentResult
               {| assessmentResult :=
                    Scorer.assess (Scorer.sample_questions 10) (Scorer.sample_answers 6);
                  saved := true;
                  certificateGenerated := false;
                  result_certificateId := None |}) row.
Proof.
  apply (evaluation_is_saved_as_reported sample_env
           (sample_request evaluateAssessment 6) sample_store "user_2abc").
  - reflexivity.
  - reflexivity.
  - reflexivity.
  - intros user course. cbn. lia.
  - vm_compute. reflexivity.
Defined.

Lemma fetch_action_returns env request clerk uuid st res st' :
  fetch_action env request clerk uuid st = (Returned res, st') ->
  exists row, res = learning_record row.
Proof.
  unfold fetch_action, bind.
  destruct (learning_profile_step env clerk st) as (st1 & -> & _).
  unfold db_read, insert_learning, db_write. cbv zeta.
  repeat match goal with
         | |- context [match ?x with _ => _ end] => destruct x
         end;
    cbn; intros [= <- _]; eauto.
Qed.

(** A failed evaluation never touches the certificates: no template, no
    user certificate and no tracking row is written, none is revoked, and
    the response reports no certificate. Together with the saving above:
    failing a retake marks the course not completed and leaves an earlier
    certificate in place. *)
Theorem failed_evaluation_leaves_certificates
    (env : Env) (request : Request) (st : Store) (r : EvaluationResult) :
  fst (Learning.serve env request st)
  = {| http_status := 200; body := SuccessBody (evaluation r) |} ->
  Scorer.passed (assessmentResult r) = false ->
  certificateGenerated r = false
  /\ result_certificateId r = None
  /\ user_certificates (snd (Learning.serve env request st)) = user_certificates st
  /\ certificates (snd (Learning.serve env request st)) = certificates st
  /\ course_certificate_management (snd (Learning.serve env request st))
     = course_certificate_management st.
Proof.
  intros Hresp Hfail. revert Hresp. unfold Learning.serve.
  destruct (truthy_string (Learning.request_clerkUserId request)) as [clerk|];
    [|cbn; intros [= ?]].
  set (uuid := Identity.generateConsistentUUID (charCodes clerk)).
  destruct (action request) as [| |a] eqn:Hact.
  - destruct (fetch_action env request clerk uuid st) as [[res|msg] st'] eqn:E;
      [|cbn; intros [= ?]].
    cbn. intros [= ->]. exfalso.
    apply fetch_action_returns in E as [row E]. discriminate E.
  - change (match evaluateAssessment_action env request clerk uuid st with
            | (Returned result, st') =>
                ({| http_status := 200; body := SuccessBody result |}, st')
            | (Thrown e, st') =>
                ({| http_status := 400;
                    body := ErrorBody
                              (if String.eqb e ""
                               then "An error occurred in the enhanced learning service"
                               else e) |}, st')
            end)
      with (respond (evaluateAssessment_action env request clerk uuid st)).
    destruct (respond (evaluateAssessment_action env request clerk uuid st))
      as [resp st'] eqn:E.
    cbn [fst snd]. intros ->.
    apply evaluation_response_inv in E
      as (course & st1 & cert & Heval & Hcert & _ & Hgen & Hid).
    unfold certificate_if_passed in Hcert. rewrite Hfail in Hcert.
    injection Hcert as <- <-. cbn in Hgen, Hid.
    split; [exact Hgen|]. split; [exact Hid|].
    apply evaluate_and_save_frame in Heval as [->|(sp & Hp & Hl)]; [auto|].
    destruct (learning_profile_step env clerk st) as (sp' & Hp' & Hs).
    rewrite Hp in Hp'. injection Hp' as <-.
    destruct Hs as (_ & _ & _ & _ & _ & Hc & Hu & Hm).
    destruct Hl as (_ & _ & _ & _ & _ & Hc' & Hu' & Hm').
    rewrite Hc', Hu', Hm', Hc, Hu, Hm. auto.
  - cbn. intros [= ?].
Qed.


Lemma failed_evaluation_leaves_certificates_witness :
  certificateGenerated
    {| assessmentResult :=
         Scorer.assess (Scorer.sample_questions 10) (Scorer.sample_answers 6);
       saved := true;
       certificateGenerated := false;
       result_certificateId := None |} = false
  /\ result_certificateId
       {| assessmentResult :=
            Scorer.assess (Scorer.sample_questions 10) (Scorer.sample_answers 6);
          saved := true;
          certificateGenerated := false;
          result_certificateId := None |} = None
  /\ user_certificates
       (snd (Learning.serve sample_env (sample_request evaluateAssessment 6)
               (set_user_certificates [sample_user_certificate "old"] sample_store)))
     = user_certificates
         (set_user_certificates [sample_user_certificate "old"] sample_store)
  /\ certificates
       (snd (Learning.serve sample_env (sample_request evaluateAssessment 6)
               (set_user_certificates [sample_user_certificate "old"] sample_store)))
     = certificates
         (set_user_certificates [sample_user_certificate "old"] sample_store)
  /\ course_certificate_management
       (snd (Learning.serve sample_env (sample_request evaluateAssessment 6)
               (set_user_certificates [sample_user_certificate "old"] sample_store)))
     = course_certificate_management
         (set_user_certificates [sample_user_certificate "old"] sample_store).
Proof.
  apply (failed_evaluation_leaves_certificates sample_env
           (sample_request evaluateAssessment 6)
           (set_user_certificates [sample_user_certificate "old"] sample_store)).
  - vm_compute. reflexivity.
  - vm_compute. reflexivity.
Defined.

(** *** The questions an evaluation counts *)

Lemma insert_by_order_Permutation q l : insert_by_order q l ≡ₚ q :: l.
Proof.
  induction l as [|x l IH]; [reflexivity|].
  cbn [insert_by_order]. destruct (order_index q <? order_index x); [reflexivity|].
  rewrite IH. apply Permutation_swap.
Qed.

Lemma order_by_order_index_Permutation l : order_by_order_index l ≡ₚ l.
Proof.
  unfold order_by_order_index.
  transitivity (rev l); [|symmetry; apply Permutation_rev].
  induction (rev l) as [|x l' IH]; [reflexivity|].
  cbn [fold_right]. rewrite insert_by_order_Permutation. now rewrite IH.
Qed.

(** The rows [.order('order_index')] returns are in order. *)
Lemma insert_by_order_sorted q l :
  StronglySorted (fun a b => order_index a <= order_index b) l ->
  StronglySorted (fun a b => order_index a <= order_index b) (insert_by_order q l).
Proof.
  induction 1 as [|x l Hs IH Hx]; cbn [insert_by_order].
  - repeat constructor.
  - destruct (order_index q <? order_index x) eqn:E.
    + apply Z.ltb_lt in E. constructor; [now constructor|].
      constructor; [lia|].
      eapply Forall_impl; [exact Hx|]. intros y Hy. cbn beta in *. lia.
    + apply Z.ltb_ge in E. constructor; [exact IH|].
      rewrite insert_by_order_Permutation. constructor; [exact E|exact Hx].
Qed.

Lemma order_by_order_index_sorted l :
  StronglySorted (fun a b => order_index a <= order_index b) (order_by_order_index l).
Proof.
  unfold order_by_order_index.
  induction (rev l) as [|x l' IH]; [constructor|].
  cbn [fold_right]. now apply insert_by_order_sorted.
Qed.

(** An evaluation is scored against the questions of the course that are
    active, all of them and no others, taken in the order of their
    [order_index]: [totalQuestions] is their number, and, their ids being
    distinct, the reported result is the scorer's result on them in any
    order. *)
Theorem evaluation_counts_the_active_questions
    (env : Env) (request : Request) (st : Store) (clerk : string)
    (r : EvaluationResult) :
  truthy_string (Learning.request_clerkUserId request) = Some clerk ->
  action request = evaluateAssessment ->
  fst (Learning.serve env request st)
  = {| http_status := 200; body := SuccessBody (evaluation r) |} ->
  exists course submitted,
    truthy_string (courseId_of request) = Some course
    /\ answers request = Some submitted
    /\ let active :=
         List.filter (fun q => String.eqb (question_course_id q) course
                               && Bool.eqb (question_is_active q) true)
                     (course_questions st) in
       select_course_questions course (course_questions st) ≡ₚ active
       /\ StronglySorted (fun a b => order_index a <= order_index b)
            (select_course_questions course (course_questions st))
       /\ Scorer.totalQuestions (assessmentResult r) = Z.of_nat (length active)
       /\ (NoDup (map Scorer.id (map question active)) ->
           assessmentResult r = Scorer.assess (map question active) submitted).
Proof.
  intros Hclerk Hact Hresp.
  set (uuid := Identity.generateConsistentUUID (charCodes clerk)) in *.
  rewrite (serve_evaluateAssessment env request st clerk Hclerk Hact) in Hresp.
  fold uuid in Hresp.
  destruct (respond (evaluateAssessment_action env request clerk uuid st))
    as [resp st'] eqn:E.
  cbn [fst] in Hresp. subst resp.
  apply evaluation_response_inv in E as (course & st1 & cert & Heval & _).
  apply evaluate_and_save_cases in Heval
    as [[_ [msg Hm]]|(sp & Hp & [[_ [msg Hm]]
                                |(c & sub & sv & Hc & Hsub & _ & _ & _ & Hout)])];
    [discriminate Hm|discriminate Hm|].
  destruct (ensure_profile_learning env clerk st sp Hp) as [_ Hq].
  destruct sv as [[]|msg]; [|discriminate Hout].
  injection Hout as Hres <-. rewrite Hq in Hres.
  exists course, sub. split; [exact Hc|]. split; [exact Hsub|].
  intros active.
  assert (Hperm : select_course_questions course (course_questions st) ≡ₚ active)
    by apply order_by_order_index_Permutation.
  split; [exact Hperm|]. split; [apply order_by_order_index_sorted|].
  rewrite Hres. split.
  - rewrite ScorerFacts.assess_unfold. cbn [Scorer.totalQuestions].
    f_equal. rewrite List.length_map. apply Permutation_length, Hperm.
  - intros Hnd. unfold Scorer.assess.
    rewrite (ScoringFacts.evaluate_answers_Permutation
               (map question active)
               (map question (select_course_questions course (course_questions st)))
               Hnd).
    + rewrite !List.length_map. now rewrite (Permutation_length Hperm).
    + symmetry. change (question <$> select_course_questions course (course_questions st)
                        ≡ₚ question <$> active).
      now rewrite Hperm.
Qed.

Lemma evaluation_counts_the_active_questions_witness :
  exists course submitted,
    truthy_string (courseId_of (sample_request evaluateAssessment 8)) = Some course
    /\ answers (sample_request evaluateAssessment 8) = Some submitted
    /\ let active :=
         List.filter (fun q => String.eqb (question_course_id q) course
                               && Bool.eqb (question_is_active q) true)
                     (course_questions sample_store) in
       select_course_questions course (course_questions sample_store) ≡ₚ active
       /\ StronglySorted (fun a b => order_index a <= order_index b)
            (select_course_questions course (course_questions sample_store))
       /\ Scorer.totalQuestions
            (assessmentResult
               {| assessmentResult :=
                    Scorer.assess (Scorer.sample_questions 10)
                      (Scorer.sample_answers 8);
                  saved := true;
                  certificateGenerated := true;
                  result_certificateId := Some (generated_id sample_env UserCertificateInsert) |})
          = Z.of_nat (length active)
       /\ (NoDup (map Scorer.id (map question active)) ->
           assessmentResult
             {| assessmentResult :=
                  Scorer.assess (Scorer.sample_questions 10)
                    (Scorer.sample_answers 8);
                saved := true;
                certificateGenerated := true;
                result_certificateId := Some (generated_id sample_env UserCertificateInsert) |}
           = Scorer.assess (map question active) submitted).
Proof.
  apply (evaluation_counts_the_active_questions sample_env
           (sample_request evaluateAssessment 8) sample_store "user_2abc").
  - reflexivity.
  - reflexivity.
  - vm_compute. reflexivity.
Defined.


(** *** The tracking table *)

Lemma update_certificate_management_completions env params st st0 :
  update_certificate_management env params st = (Returned tt, st0) ->
  PASSING_SCORE <= score params ->
  only_completions (course_certificate_management st) ->
  only_completions (course_certificate_management st0).
Proof.
  unfold update_certificate_management. intros H Hpass Hall.
  destruct (truthy_string (clerkUserId params)) as [clerk|];
    [|injection H as <-; exact Hall].
  unfold try_catch, bind, db_write in H.
  destruct (fault env CertificateManagementRpc); cbn in H; injection H as <-;
    [exact Hall|].
  cbn [course_certificate_management set_course_certificate_management].
  unfold update_course_certificate_management. intros key row.
  destruct (decide (key = (clerk, courseId params))) as [->|Hne].
  - rewrite lookup_insert_eq. intros [= <-].
    unfold PASSING_SCORE in Hpass.
    assert (Hp : (70 <=? score params) = true) by now apply Z.leb_le.
    unfold completion_recorded.
    cbn [cm_course_complete cm_assessment_pass cm_assessment_score cm_completion_date].
    rewrite Hp. cbn [andb]. repeat split; [exact Hpass|eexists; reflexivity].
  - rewrite lookup_insert_ne by congruence. apply Hall.
Qed.

Lemma generateCertificate_completions env params st :
  only_completions (course_certificate_management st) ->
  only_completions
    (course_certificate_management (snd (generateCertificate env params st))).
Proof.
  intros Hall.
  destruct (generateCertificate_cases env params st)
    as [[Hlow ->]|(Hpass & st0 & Hupd & _ & Hcase)]; [exact Hall|].
  pose proof (update_certificate_management_completions env params st st0
                Hupd Hpass Hall) as H0.
  destruct Hcase as [(existing & _ & ->)|[(r & -> & _)|[(r & tpl & -> & _)
                     |(tpl & row & -> & _)]]]; exact H0.
Qed.

Lemma certificate_if_passed_completions env request clerk uuid course result st :
  only_completions (course_certificate_management st) ->
  only_completions
    (course_certificate_management
       (snd (certificate_if_passed env request clerk uuid course result st))).
Proof.
  intros Hall. unfold certificate_if_passed.
  destruct (Scorer.passed result); [|exact Hall].
  destruct (truthy_string (courseName_of request)); [|exact Hall].
  unfold try_catch, bind, db_read.
  assert (G : forall found : db_result (option ProfileRow),
    only_completions
      (course_certificate_management
        (snd (let (o, st') :=
              match data_of found with
              | Some profileData =>
                  match truthy_string (full_name profileData) with
                  | Some user_name =>
                      generateCertificate env
                        {| userId := uuid; name := user_name; courseId := course;
                           courseName := s; score := Scorer.score result;
                           clerkUserId := Some clerk |}
                  | None =>
                      ret {| success := false; certificateId := None;
                             message := Some "No profile data available" |}
                  end
              | None =>
                  ret {| success := false; certificateId := None;
                         message := Some "No profile data available" |}
              end st in
            match o with
            | Returned a => (Returned a, st')
            | Thrown e =>
                ret {| success := false; certificateId := None;
                       message := Some "Certificate generation failed" |} st'
            end)))).
  { intros found. destruct (data_of found) as [profileData|]; [|exact Hall].
    destruct (truthy_string (full_name profileData)) as [user_name|]; [|exact Hall].
    match goal with |- context [generateCertificate env ?p st] =>
      pose proof (generateCertificate_completions env p st Hall) as Hf;
      destruct (generateCertificate env p st) as [[r|msg] st'] end; exact Hf. }
  destruct (fault env ProfileSelect); apply G.
Qed.

(** Whatever the requests, the learning service writes to the tracking
    table only rows of completed and passed courses, with a score of at
    least 70 and a completion date: if the table holds only such rows
    before a request, it holds only such rows after it. *)
Theorem tracking_rows_record_completions
    (env : Env) (request : Request) (request_clerkUserId : option string)
    (d : UpdateData) (st : Store) :
  only_completions (course_certificate_management st) ->
  only_completions
    (course_certificate_management (snd (Learning.serve env request st)))
  /\ only_completions
       (course_certificate_management
          (snd (LearningUpdate.serve env request_clerkUserId d st))).
Proof.
  intros Hall. split.
  - unfold Learning.serve.
    destruct (truthy_string (Learning.request_clerkUserId request)) as [clerk|];
      [|exact Hall].
    set (uuid := Identity.generateConsistentUUID (charCodes clerk)).
    assert (Hprofile : forall st1, ensure_profile env clerk st = (Returned tt, st1) ->
              course_certificate_management st1 = course_certificate_management st).
    { intros st1 Hp. destruct (learning_profile_step env clerk st) as (st1' & Hp' & Hs).
      rewrite Hp in Hp'. injection Hp' as <-.
      now destruct Hs as (_ & _ & _ & _ & _ & _ & _ & Hm). }
    destruct (action request) as [| |a]; [| |exact Hall].
    + destruct (fetch_action env request clerk uuid st) as [out st'] eqn:E.
      assert (G : only_completions (course_certificate_management st')).
      { apply fetch_action_learning in E as (st1 & Hp & [->|(row & -> & _)]);
          cbn; now rewrite (Hprofile st1 Hp). }
      destruct out; exact G.
    + unfold evaluateAssessment_action, bind.
      destruct (evaluate_and_save env request clerk uuid st)
        as [[[result course]|msg] st1] eqn:E;
        (assert (G : only_completions (course_certificate_management st1));
         [apply evaluate_and_save_frame in E as [->|(sp & Hp & Hl)];
          [exact Hall|];
          destruct Hl as (_ & _ & _ & _ & _ & _ & _ & Hm);
          now rewrite Hm, (Hprofile sp Hp)|]); [|exact G].
      pose proof (certificate_if_passed_completions env request clerk uuid course
                    result st1 G) as Hf.
      destruct (certificate_if_passed env request clerk uuid course result st1)
        as [[cert|msg] st2]; exact Hf.
  - unfold LearningUpdate.serve.
    destruct (truthy_string request_clerkUserId) as [clerk|]; [|exact Hall].
    set (uuid := Identity.generateConsistentUUID (charCodes clerk)).
    destruct (update_action env d clerk uuid st) as [out st'] eqn:E.
    assert (G : only_completions (course_certificate_management st')).
    { apply update_action_learning in E
        as (sp & Hp & [[-> _]|[(-> & _)|(existing & _ & _ & -> & _)]]);
        destruct (learning_profile_step env clerk st) as (sp' & Hp' & Hs);
        rewrite Hp in Hp'; injection Hp' as <-;
        destruct Hs as (_ & _ & _ & _ & _ & _ & _ & Hm); cbn; now rewrite Hm. }
    destruct out; exact G.
Qed.

Lemma tracking_rows_record_completions_witness :
  only_completions
    (course_certificate_management
       (snd (Learning.serve sample_env (sample_request evaluateAssessment 8)
               sample_store)))
  /\ only_completions
       (course_certificate_management
          (snd (LearningUpdate.serve sample_env (Some "user_2abc") sample_update
                  sample_store))).
Proof.
  apply (tracking_rows_record_completions sample_env
           (sample_request evaluateAssessment 8) (Some "user_2abc") sample_update
           sample_store).
  intros key row H. cbn in H. rewrite lookup_empty in H. discriminate H.
Defined.

Example tracking_row_of_the_sample_evaluation :
  course_certificate_management
    (snd (Learning.serve sample_env (sample_request evaluateAssessment 8)
            sample_store)) !! ("user_2abc", "course-1")
  = Some {| cm_course_name := "Proof Engineering";
            cm_course_complete := true;
            cm_assessment_pass := true;
            cm_assessment_score := 80;
            cm_completion_date := Some (NOW sample_env CertificateManagementRpc) |}.
Proof. vm_compute. reflexivity. Qed.

End LearningRecordFacts.

(** ** The payment function, further *)

Module PaymentFlowFacts.
Import JS Database DatabaseFacts Payment PaymentFacts Access.

(** *** What the payment function writes, and when *)

(** Every way a request to the payment function can end. *)
Lemma serve_cases env request st :
  (snd (serve env request st) = st /\ http_status (fst (serve env request st)) = 400)
  \/ exists payload key_id key_secret user_email clerk st1,
       request = verify_payment_request payload
       /\ razorpay_credentials env st = (Returned (key_id, key_secret), st)
       /\ truthy_string (p_user_email payload) = Some user_email
       /\ truthy_string (p_user_id payload) = Some clerk
       /\ p_razorpay_signature payload
          = Some (expectedSignature env key_secret payload)
       /\ same_but_profiles st st1
       /\ serve env request st
          = respond
              match fault env PaymentInsert with
              | Some e =>
                  (Thrown ("Failed to store payment record: " ++ message e), st1)
              | None =>
                  let st2 :=
                    set_payments
                      (payments st1
                       ++ [payment_row
                             (Identity.generateConsistentUUID (charCodes clerk))
                             payload])%list st1 in
                  match fault env SubscriptionUpsert with
                  | Some e =>
                      (Thrown ("Failed to manage subscription: " ++ message e), st2)
                  | None =>
                      (Returned verified_response,
                       set_user_subscriptions
                         (<[Identity.generateConsistentUUID (charCodes clerk) :=
                              subscription_row env
                                (Identity.generateConsistentUUID (charCodes clerk))
                                payload]> (user_subscriptions st2)) st2)
                  end
              end.
Proof.
  unfold serve at 1 2 3, bind.
  destruct (razorpay_credentials env st) as [[[kid ks]|msg] st0] eqn:Hk;
    pose proof (razorpay_credentials_store _ _ _ _ Hk) as ->; [|left; auto].
  destruct request as [payload|]; [|left; auto].
  unfold verify_payment.
  destruct (truthy_string (p_user_email payload)) as [user_email|] eqn:He;
    [|left; auto].
  destruct (truthy_string (p_user_id payload)) as [clerk|] eqn:Hc; [|left; auto].
  destruct (string_opt_eqb _ _) eqn:Hs; cbn [negb]; [|left; auto].
  apply string_opt_eqb_true in Hs.
  destruct (after_signature_spec env payload clerk user_email
              (Identity.generateConsistentUUID (charCodes clerk)) st)
    as (st1 & Hsame & Hafter).
  right. exists payload, kid, ks, user_email, clerk, st1.
  do 6 (split; [first [reflexivity|assumption]|]).
  now rewrite Hafter.
Qed.

(** The payment function writes nothing without a valid signature:
    whenever a request leaves the store changed, it was a [verify_payment]
    request, the gateway credentials were configured, the request named
    an e-mail address and a user id, and its signature was the expected
    one. *)
Theorem nothing_is_written_without_a_valid_signature
    (env : Env) (request : Request) (st : Store) :
  snd (serve env request st) <> st ->
  exists payload key_id key_secret,
    request = verify_payment_request payload
    /\ razorpay_credentials env st = (Returned (key_id, key_secret), st)
    /\ is_Some (truthy_string (p_user_email payload))
    /\ is_Some (truthy_string (p_user_id payload))
    /\ p_razorpay_signature payload
       = Some (expectedSignature env key_secret payload).
Proof.
  intros Hchanged.
  destruct (serve_cases env request st)
    as [[Hsame _]|(payload & kid & ks & user_email & clerk & st1
                   & -> & Hk & He & Hc & Hs & _)]; [contradiction|].
  exists payload, kid, ks. rewrite He, Hc. eauto 10.
Qed.

Lemma nothing_is_written_without_a_valid_signature_witness :
  exists payload key_id key_secret,
    verify_payment_request (sample_payload "00ab0fff")
    = verify_payment_request payload
    /\ razorpay_credentials sample_env sample_store
       = (Returned (key_id, key_secret), sample_store)
    /\ is_Some (truthy_string (p_user_email payload))
    /\ is_Some (truthy_string (p_user_id payload))
    /\ p_razorpay_signature payload
       = Some (expectedSignature sample_env key_secret payload).
Proof.
  apply (nothing_is_written_without_a_valid_signature sample_env
           (verify_payment_request (sample_payload "00ab0fff")) sample_store).
  intros H.
  assert (E : payments (snd (serve sample_env
                               (verify_payment_request (sample_payload "00ab0fff"))
                               sample_store)) = payments sample_store)
    by now rewrite H.
  vm_compute in E. discriminate E.
Defined.

(** No entitlement without a stored payment: the payment function only
    appends to [payments], one row at most, and when a request changes
    the subscriptions it has stored its payment row and answers with the
    success body. It leaves the tables of the learning service alone. *)
Theorem subscription_changes_only_after_the_payment_is_stored
    (env : Env) (request : Request) (st : Store) :
  (exists added,
     payments (snd (serve env request st)) = (payments st ++ added)%list
     /\ (length added <= 1)%nat)
  /\ (user_subscriptions (snd (serve env request st)) <> user_subscriptions st ->
      fst (serve env request st) = verified_response
      /\ exists row, payments (snd (serve env request st)) = (payments st ++ [row])%list)
  /\ admin_credentials (snd (serve env request st)) = admin_credentials st
  /\ user_learning (snd (serve env request st)) = user_learning st
  /\ course_questions (snd (serve env request st)) = course_questions st
  /\ certificates (snd (serve env request st)) = certificates st
  /\ user_certificates (snd (serve env request st)) = user_certificates st
  /\ course_certificate_management (snd (serve env request st))
     = course_certificate_management st.
Proof.
  destruct (serve_cases env request st)
    as [[Hsame _]|(payload & kid & ks & user_email & clerk & st1
                   & -> & _ & _ & _ & _ & Hsp & ->)].
  { rewrite Hsame. split; [exists []; rewrite app_nil_r; cbn; auto|].
    split; [intros H; contradiction|]. auto 10. }
  destruct Hsp as (Ha & Hp & Hu & Hl & Hq & Hc & Huc & Hm).
  destruct (fault env PaymentInsert); cbn [respond snd fst].
  { split; [exists []; rewrite app_nil_r, Hp; cbn; auto|].
    split; [intros H; rewrite Hu in H; contradiction|]. auto 10. }
  cbv zeta. destruct (fault env SubscriptionUpsert); cbn [respond snd fst];
    cbn [payments user_subscriptions admin_credentials user_learning
         course_questions certificates user_certificates
         course_certificate_management set_payments set_user_subscriptions];
    rewrite Hp.
  - split; [eexists [_]; split; [reflexivity|cbn; lia]|].
    split; [intros H; rewrite Hu in H; contradiction|]. auto 10.
  - split; [eexists [_]; split; [reflexivity|cbn; lia]|].
    split; [intros _; split; [reflexivity|eauto]|]. auto 10.
Qed.


(** *** The end of the period *)

Lemma days_in_month_range y m : 28 <= days_in_month y m <= 31.
Proof.
  unfold days_in_month.
  repeat match goal with |- context [if ?b then _ else _] => destruct b end; lia.
Qed.

(** [setMonth(getMonth() + 1)] of a date of the calendar is again a date
    of the calendar, with the same time of day, in the following month,
    or, when that month is too short for the day, within the first three
    days of the month after it; either way it is later than the date. *)
Theorem setMonth_next_is_a_later_date (d : Date) :
  valid_date d ->
  valid_date (setMonth_next d)
  /\ time_of_day (setMonth_next d) = time_of_day d
  /\ before d (setMonth_next d) = true
  /\ ((month_index (setMonth_next d) = month_index d + 1
       /\ day (setMonth_next d) = day d)
      \/ (month_index (setMonth_next d) = month_index d + 2
          /\ 1 <= day (setMonth_next d) <= 3
          /\ 29 <= day d)).
Proof.
  intros [Hm Hd]. unfold setMonth_next.
  set (m := month d + 1).
  assert (Hdiv : (m / 12 = 0 /\ m mod 12 = m /\ m <= 11)
                 \/ (m / 12 = 1 /\ m mod 12 = 0 /\ m = 12)).
  { destruct (Z.eq_dec m 12) as [->|Hne]; [right; repeat split; reflexivity|].
    left. rewrite Z.div_small, Z.mod_small by lia. lia. }
  pose proof (days_in_month_range (year d) (month d)) as Hr0.
  pose proof (days_in_month_range (year d + m / 12) (m mod 12)) as Hr1.
  pose proof (days_in_month_range (year d + m / 12) (m mod 12 + 1)) as Hr2.
  destruct (day d <=? days_in_month (year d + m / 12) (m mod 12)) eqn:E.
  - apply Z.leb_le in E.
    unfold valid_date, before, month_index. cbn [year month day time_of_day].
    split; [lia|]. split; [reflexivity|]. split; [|left; lia].
    destruct Hdiv as [(H1 & H2 & H3)|(H1 & H2 & H3)]; rewrite H1, H2.
    + replace (year d <? year d + 0) with false by (symmetry; apply Z.ltb_ge; lia).
      replace (year d =? year d + 0) with true by (symmetry; apply Z.eqb_eq; lia).
      replace (month d <? m) with true by (symmetry; apply Z.ltb_lt; lia).
      reflexivity.
    + replace (year d <? year d + 1) with true by (symmetry; apply Z.ltb_lt; lia).
      reflexivity.
  - apply Z.leb_gt in E.
    assert (Hshort : m mod 12 <> 11).
    { intros H11. unfold days_in_month in E, Hd. rewrite H11 in E.
      cbn in E.
      repeat match goal with
             | H : context [if ?b then _ else _] |- _ => destruct b
             end; lia. }
    unfold valid_date, before, month_index. cbn [year month day time_of_day].
    split; [lia|]. split; [reflexivity|]. split; [|right; lia].
    destruct Hdiv as [(H1 & H2 & H3)|(H1 & H2 & H3)]; rewrite H1, H2.
    + replace (year d <? year d + 0) with false by (symmetry; apply Z.ltb_ge; lia).
      replace (year d =? year d + 0) with true by (symmetry; apply Z.eqb_eq; lia).
      replace (month d <? m + 1) with true by (symmetry; apply Z.ltb_lt; lia).
      reflexivity.
    + replace (year d <? year d + 1) with true by (symmetry; apply Z.ltb_lt; lia).
      reflexivity.
Qed.

Lemma setMonth_next_is_a_later_date_witness :
  valid_date (setMonth_next {| year := 2024; month := 0; day := 31; time_of_day := 0 |})
  /\ setMonth_next {| year := 2024; month := 0; day := 31; time_of_day := 0 |}
     = {| year := 2024; month := 2; day := 2; time_of_day := 0 |}.
Proof.
  split; [|reflexivity].
  apply (setMonth_next_is_a_later_date
           {| year := 2024; month := 0; day := 31; time_of_day := 0 |}).
  unfold valid_date. cbn. lia.
Defined.


(** *** From the payment to the interview resources *)



Example pro_access_of_the_sample_buyer :
  pro_users_can_view_interview_resources
    (snd (serve sample_env (verify_payment_request (sample_payload "00ab0fff"))
            sample_store))
    (Some (Identity.generateConsistentUUID (charCodes "user_2abc")))
    (sample_date 20) true = true
  /\ pro_users_can_view_interview_resources
       (snd (serve sample_env (verify_payment_request (sample_payload "00ab0fff"))
               sample_store))
       (Some (Identity.generateConsistentUUID (charCodes "user_2abc")))
       {| year := 2025; month := 1; day := 10; time_of_day := 43200000 |} true
     = false.
Proof. split; vm_compute; reflexivity. Qed.

End PaymentFlowFacts.
